(** * PrimeForge HTML2Image: the /render pipeline of the HTML-to-image service

    A shallow embedding of the rendering service defined in [src/server.js]
    and of its later revision, the server code that follows the OpenAPI
    preamble in [src/swagger.js] (same handler, with a liveness probe in
    [getBrowser] and a retry loop in [withPage]).

    - JavaScript integers are [Z], other numbers (device pixel ratio, clip
      coordinates, raw JSON numbers) are [Q]; strings are [string].
    - [PRESETS.sizes] and [PRESETS.clips] are finite maps keyed by name,
      the own properties of the parsed JSON objects, or absent; a lookup
      [obj?.[key]] also finds the members inherited from [Object.prototype].
    - Promise-returning Playwright calls are effects in a state-and-exception
      monad [M]: each call is appended to the [trace] of the state and its
      outcome (resolve or reject with a message) is read from the [World],
      which may depend on everything that happened before.  Every call
      settles, and a computation in [M] is one request followed on its own:
      what another request does while this one awaits is composed by hand
      where a statement needs it.
    - The module-level variable [browser] is the [browser] field of the
      state, shared by all invocations of [withPage].
    - Logging ([logger], [req.log]) is not modelled. *)

From Stdlib Require Import ZArith QArith String Ascii List Lia DecimalString.
From stdpp Require Import base strings gmap list.

Open Scope string_scope.
Open Scope Z_scope.
Open Scope list_scope.

(** ** JavaScript string primitives used by the service *)

Module Js.

(** [s.startsWith(p)] *)
Definition startsWith (s p : string) : bool := String.prefix p s.

(** [s.slice(n)] for [0 <= n] *)
Definition slice (n : nat) (s : string) : string :=
  String.substring n (String.length s - n) s.

(** [s.endsWith(p)] *)
Definition endsWith (s p : string) : bool :=
  let n := String.length s in
  let m := String.length p in
  if (m <=? n)%nat then String.eqb (String.substring (n - m) m s) p else false.

(** [s.includes(p)] *)
Definition includes (s p : string) : bool :=
  match String.index 0 p s with Some _ => true | None => false end.

(** Expansion of the replacement patterns of [String.prototype.replace]
    for a string pattern (no capture groups): [$$], [$&], [$`] and [$']. *)
Fixpoint expand (repl before matched after : string) : string :=
  match repl with
  | EmptyString => EmptyString
  | String c r =>
      if Ascii.eqb c "$" then
        match r with
        | String d r' =>
            if Ascii.eqb d "$" then String "$" (expand r' before matched after)
            else if Ascii.eqb d "&" then matched +:+ expand r' before matched after
            else if Ascii.eqb d "`" then before +:+ expand r' before matched after
            else if Ascii.eqb d "'" then after +:+ expand r' before matched after
            else String c (expand r before matched after)
        | EmptyString => String c EmptyString
        end
      else String c (expand r before matched after)
  end.

(** [s.replace(pat, repl)] with a string pattern: first occurrence only. *)
Definition replace (s pat repl : string) : string :=
  match String.index 0 pat s with
  | None => s
  | Some i =>
      let before := String.substring 0 i s in
      let after := slice (i + String.length pat) s in
      before +:+ expand repl before pat after +:+ after
  end.

(** Decimal rendering of an integer inside a template literal. *)
Definition showZ (z : Z) : string := NilZero.string_of_int (Z.to_int z).

(** Truthiness of an optional string: [undefined] and [''] are falsy. *)
Definition truthy (o : option string) : bool :=
  match o with
  | Some s => negb (String.eqb s "")
  | None => false
  end.

(** [n || d] on an optional integer: [undefined] and [0] are falsy. *)
Definition orZ (n : option Z) (d : Z) : Z :=
  match n with
  | Some v => if v =? 0 then d else v
  | None => d
  end.

(** [v ?? d] *)
Definition nullish {A} (v : option A) (d : A) : A :=
  match v with Some a => a | None => d end.

(** The property names of [Object.prototype] (ECMAScript, with Annex B):
    what every object parsed from JSON inherits.  Each of them holds a
    function, except [__proto__], an accessor that gives the prototype
    itself: all these values are truthy, and none has a property [width]
    or [height]. *)
Definition Object_prototype : list string :=
  ["constructor"; "__defineGetter__"; "__defineSetter__"; "hasOwnProperty";
   "__lookupGetter__"; "__lookupSetter__"; "isPrototypeOf";
   "propertyIsEnumerable"; "toString"; "valueOf"; "__proto__";
   "toLocaleString"].

(** What [obj?.[key]] gives, for [obj] an object parsed from JSON or
    absent: an own property, a member inherited from [Object.prototype],
    or [undefined]. *)
Inductive Member (A : Type) :=
| Own (a : A)
| Inherited (key : string)
| Undefined.
Arguments Own {A} a.
Arguments Inherited {A} key.
Arguments Undefined {A}.

Definition member {A} (obj : option (gmap string A)) (key : string) : Member A :=
  match obj with
  | None => Undefined
  | Some o =>
      match o !! key with
      | Some a => Own a
      | None =>
          if existsb (String.eqb key) Object_prototype then Inherited key
          else Undefined
      end
  end.

(** A JSON number that is an integer ([z.number().int()]). *)
Definition asInt (q : Q) : option Z :=
  if Z.rem (Qnum q) (Zpos (Qden q)) =? 0
  then Some (Z.quot (Qnum q) (Zpos (Qden q)))
  else None.

End Js.

(** ** Values, errors and results *)

#[local] Unset Elimination Schemes.
Inductive Json :=
| JNull
| JBool (b : bool)
| JNum (q : Q)
| JStr (s : string)
| JArr (l : list Json)
| JObj (fields : list (string * Json)).
#[local] Set Elimination Schemes.

(** What a [throw] carries: an [Error] with its message, or [undefined]
    (the initial value of [lastError] in [withPage]). *)
Inductive Thrown :=
| JsUndefined
| JsError (message : string).

Inductive Res (A : Type) :=
| Val (a : A)
| Throw (e : Thrown).
Arguments Val {A} a.
Arguments Throw {A} e.

(** The result of a synchronous computation that may [throw new Error(message)]. *)
Inductive Try (A : Type) :=
| Success (a : A)
| Failure (message : string).
Arguments Success {A} a.
Arguments Failure {A} message.

(** ** Request, configuration and presets *)

Inductive Format := png | jpeg | webp.
Inductive WaitUntil := load | domcontentloaded | networkidle.
Inductive WaitFor := WaitMs (n : Z) | WaitSelector (sel : string).
Inductive RawWaitFor := RawWaitNum (q : Q) | RawWaitStr (s : string).

Record Clip := mkClip { clip_x : Q; clip_y : Q; clip_width : Q; clip_height : Q }.

(** The value of [clip] when the screenshot is taken: a rectangle (the
    request's own or an own entry of [PRESETS.clips]), or the member of
    [Object.prototype] that an inherited preset name selects. *)
Inductive ClipValue :=
| ClipRect (c : Clip)
| ClipMember (key : string).

Record Size := mkSize { size_width : Z; size_height : Z }.

Definition TemplateData := list (string * Json).

(** The JSON body of [POST /render], field types as [RenderSchema] names
    them; every field may be absent. *)
Record RenderBody := mkBody {
  b_html : option string;
  b_url : option string;
  b_templateName : option string;
  b_templateData : option TemplateData;
  b_width : option Q;
  b_height : option Q;
  b_sizePreset : option string;
  b_mainTitleSize : option string;
  b_subtitleSize : option string;
  b_bodySize : option string;
  b_dpr : option Q;
  b_format : option Format;
  b_quality : option Q;
  b_fullPage : option bool;
  b_omitBackground : option bool;
  b_clip : option Clip;
  b_clipPreset : option string;
  b_waitUntil : option WaitUntil;
  b_waitFor : option RawWaitFor;
  b_timeout : option Q;
  b_css : option string
}.

(** [parsed.data]: the body after [RenderSchema.safeParse], defaults applied. *)
Record RenderOpts := mkOpts {
  html : option string;
  url : option string;
  templateName : option string;
  templateData : option TemplateData;
  width : option Z;
  height : option Z;
  sizePreset : option string;
  mainTitleSize : option string;
  subtitleSize : option string;
  bodySize : option string;
  dpr : option Q;
  format : Format;
  quality : option Z;
  fullPage : bool;
  omitBackground : bool;
  clip : option Clip;
  clipPreset : option string;
  waitUntil : WaitUntil;
  waitFor : option WaitFor;
  timeout : option Z;
  css : option string
}.

(** The environment-sourced constants at the top of the server. *)
Record Config := mkConfig {
  DEFAULT_DPR : Q;
  MAX_WIDTH : Z;
  MAX_HEIGHT : Z;
  MAX_PIXELS : Z;
  BLOCK_EXTERNAL : bool;
  ALLOW_URL : bool;
  ALLOWLIST : list string
}.

(** [PRESETS], loaded once from [presets.json]: [sizes] and [clips] are
    objects parsed from JSON, or absent. *)
Record Presets := mkPresets {
  sizes : option (gmap string Size);
  clips : option (gmap string Clip)
}.

(** The defaults the code uses when the environment sets nothing. *)
Definition default_config : Config :=
  {| DEFAULT_DPR := 1%Q; MAX_WIDTH := 4000; MAX_HEIGHT := 4000;
     MAX_PIXELS := 14000000; BLOCK_EXTERNAL := true; ALLOW_URL := false;
     ALLOWLIST := [] |}.

(** ** Engine calls, the world and the state *)

Record ScreenshotOptions := mkShot {
  shot_type : Format;
  shot_quality : option Z;
  shot_fullPage : bool;
  shot_omitBackground : bool;
  shot_clip : option ClipValue
}.

(** One constructor per awaited call the server makes. *)
Inductive Event :=
| contexts_probe
| launch
| newContext (deviceScaleFactor : Q) (viewport_width viewport_height : Z)
| route_install
| newPage
| setViewportSize (w h : Z)
| emulateMedia
| setDefaultTimeout (t : Z)
| setContent (markup : string) (wu : WaitUntil)
| goto (target : string) (wu : WaitUntil)
| waitForTimeout (ms : Z)
| waitForSelector (sel : string) (t : Z)
| evaluate_devicePixelRatio (d : Q)
| screenshot (o : ScreenshotOptions)
| page_close
| context_close
| sleep (ms : Z).

Definition Bytes := list Z.

(** Everything outside the server: the URL parser, the template files and
    the rendering engine.  [outcome history call] is [None] when the call
    resolves and [Some msg] when it rejects with [Error(msg)]. *)
Record World := mkWorld {
  hostnameOf : string -> option string;
  getTemplate : string -> Try (TemplateData -> Try string);
  outcome : list Event -> Event -> option string;
  capture : list Event -> Bytes
}.

Definition Page := nat.

(** [browser]: the shared engine handle ([None] when unset), and what the
    process has asked of the engine so far. *)
Record State := mkState {
  browser : option nat;
  trace : list Event
}.

Definition M (A : Type) := State -> Res A * State.

Definition ret {A} (a : A) : M A := fun st => (Val a, st).

Definition throw {A} (e : Thrown) : M A := fun st => (Throw e, st).

Definition bind {A B} (m : M A) (k : A -> M B) : M B :=
  fun st =>
    match m st with
    | (Val a, st1) => k a st1
    | (Throw e, st1) => (Throw e, st1)
    end.

(** [try { m } catch (err) { h err }] *)
Definition try_catch {A} (m : M A) (h : Thrown -> M A) : M A :=
  fun st =>
    match m st with
    | (Val a, st1) => (Val a, st1)
    | (Throw e, st1) => h e st1
    end.

(** [try { m } finally { fin }]: a throw inside [fin] replaces the
    completion of [m]. *)
Definition try_finally {A} (m : M A) (fin : M unit) : M A :=
  fun st =>
    match m st with
    | (r, st1) =>
        match fin st1 with
        | (Val _, st2) => (r, st2)
        | (Throw e, st2) => (Throw e, st2)
        end
    end.

(** Run a synchronous computation inside an async function. *)
Definition raise {A} (t : Try A) : M A :=
  match t with
  | Success a => ret a
  | Failure message => throw (JsError message)
  end.

Declare Scope js_scope.
Delimit Scope js_scope with js.
Notation "x <- m ;; k" := (bind m (fun x => k))
  (at level 100, m at next level, right associativity) : js_scope.
Notation "m ;; k" := (bind m (fun _ => k))
  (at level 100, right associativity) : js_scope.
Open Scope js_scope.

Definition record_call (e : Event) (st : State) : State :=
  {| browser := browser st; trace := trace st ++ [e] |}.

Definition set_browser (b : option nat) : M unit :=
  fun st => (Val tt, {| browser := b; trace := trace st |}).

Definition get_browser : M (option nat) :=
  fun st => (Val (browser st), st).

(** An identifier for the next handle: the position of the call that
    creates it. *)
Definition fresh_id : M nat :=
  fun st => (Val (List.length (trace st)), st).

(** ** The server, over a configuration, a preset table and a world *)

Section Server.

Variable cfg : Config.
Variable PRESETS : Presets.
Variable W : World.

(** An awaited engine call: recorded, then resolved or rejected by the world. *)
Definition call (e : Event) : M unit :=
  fun st =>
    match outcome W (trace st) e with
    | None => (Val tt, record_call e st)
    | Some msg => (Throw (JsError msg), record_call e st)
    end.

(** [page.screenshot(o)]: resolves with the captured bytes. *)
Definition call_screenshot (o : ScreenshotOptions) : M Bytes :=
  fun st =>
    match outcome W (trace st) (screenshot o) with
    | None => (Val (capture W (trace st)), record_call (screenshot o) st)
    | Some msg => (Throw (JsError msg), record_call (screenshot o) st)
    end.

(** The predicate handed to [ALLOWLIST.some] inside [isWhitelisted]. *)
Definition allowlist_entry_matches (h pattern : string) : bool :=
  if Js.startsWith pattern "*." then
    let dom := Js.slice 2 pattern in
    String.eqb h dom || Js.endsWith h ("." +:+ dom)
  else String.eqb h pattern.

Definition isWhitelisted (u : string) : bool :=
  match hostnameOf W u with
  | None => false
  | Some h =>
      if String.eqb h "" then false
      else if Nat.eqb (List.length (ALLOWLIST cfg)) 0 then false
      else existsb (allowlist_entry_matches h) (ALLOWLIST cfg)
  end.

Inductive RouteAction := route_continue | route_abort.

(** The handler installed by [context.route] in [withPage], applied to
    the URL of an outgoing request. *)
Definition routeHandler (requestUrl : string) : RouteAction :=
  if negb (BLOCK_EXTERNAL cfg) then route_continue
  else if Js.startsWith requestUrl "data:" || Js.startsWith requestUrl "blob:"
  then route_continue
  else if ALLOW_URL cfg && isWhitelisted requestUrl then route_continue
  else route_abort.

Definition enforceSize (width height : option Z) : Try Size :=
  let w := Z.min (Js.orZ width 1200) (MAX_WIDTH cfg) in
  let h := Z.min (Js.orZ height 630) (MAX_HEIGHT cfg) in
  if w * h >? MAX_PIXELS cfg then
    Failure ("Requested viewport " +:+ Js.showZ w +:+ "x" +:+ Js.showZ h
             +:+ " exceeds maximum pixel budget " +:+ Js.showZ (MAX_PIXELS cfg))
  else Success {| size_width := w; size_height := h |}.

(** *** [RenderSchema] *)

Definition check_int (lo hi : Z) (q : option Q) : option (option Z) :=
  match q with
  | None => Some None
  | Some v =>
      match Js.asInt v with
      | Some n => if (lo <=? n) && (n <=? hi) then Some (Some n) else None
      | None => None
      end
  end.

Definition check_url (u : option string) : option (option string) :=
  match u with
  | None => Some None
  | Some s => match hostnameOf W s with Some _ => Some (Some s) | None => None end
  end.

Definition check_dpr (d : option Q) : option (option Q) :=
  match d with
  | None => Some None
  | Some v => if Qle_bool (1 # 2) v && Qle_bool v 4 then Some (Some v) else None
  end.

Definition check_waitFor (w : option RawWaitFor) : option (option WaitFor) :=
  match w with
  | None => Some None
  | Some (RawWaitStr s) => Some (Some (WaitSelector s))
  | Some (RawWaitNum q) =>
      match check_int 0 30000 (Some q) with
      | Some (Some n) => Some (Some (WaitMs n))
      | _ => None
      end
  end.

(** [RenderSchema.safeParse(req.body)]: [None] when [parsed.success] is
    false, otherwise [parsed.data]. *)
Definition RenderSchema (b : RenderBody) : option RenderOpts :=
  match check_url (b_url b), check_int 1 10000 (b_width b),
        check_int 1 10000 (b_height b), check_dpr (b_dpr b),
        check_int 1 100 (b_quality b), check_waitFor (b_waitFor b),
        check_int 0 60000 (b_timeout b) with
  | Some u, Some w, Some h, Some d, Some q, Some wf, Some t =>
      Some {| html := b_html b; url := u; templateName := b_templateName b;
              templateData := b_templateData b; width := w; height := h;
              sizePreset := b_sizePreset b; mainTitleSize := b_mainTitleSize b;
              subtitleSize := b_subtitleSize b; bodySize := b_bodySize b;
              dpr := d; format := Js.nullish (b_format b) png; quality := q;
              fullPage := Js.nullish (b_fullPage b) false;
              omitBackground := Js.nullish (b_omitBackground b) false;
              clip := b_clip b; clipPreset := b_clipPreset b;
              waitUntil := Js.nullish (b_waitUntil b) networkidle;
              waitFor := wf; timeout := t; css := b_css b |}
  | _, _, _, _, _, _, _ => None
  end.

(** *** The [/render] handler, before the page is opened *)

(** "Apply size preset if provided": the values handed to [enforceSize]. *)
Definition requested_size (opts : RenderOpts) : Try (option Z * option Z) :=
  if Js.truthy (sizePreset opts) then
    let name := Js.nullish (sizePreset opts) "" in
    match Js.member (sizes PRESETS) name with
    | Js.Undefined => Failure ("Unknown sizePreset: " +:+ name)
    | Js.Own sp => Success (Some (size_width sp), Some (size_height sp))
    | Js.Inherited _ => Success (None, None)
    end
  else Success (width opts, height opts).

(** "Apply clip preset if provided (overrides clip)". *)
Definition resolved_clip (opts : RenderOpts) : Try (option ClipValue) :=
  if Js.truthy (clipPreset opts) then
    let name := Js.nullish (clipPreset opts) "" in
    match Js.member (clips PRESETS) name with
    | Js.Undefined => Failure ("Unknown clipPreset: " +:+ name)
    | Js.Own cp => Success (Some (ClipRect cp))
    | Js.Inherited key => Success (Some (ClipMember key))
    end
  else Success (option_map ClipRect (clip opts)).

Definition inject_css (opts : RenderOpts) (markup : string) : string :=
  if Js.truthy (css opts)
  then Js.replace markup "</head>"
         ("<style>" +:+ Js.nullish (css opts) "" +:+ "</style></head>")
  else markup.

(** The [if / else if] chain that loads the content into the page. *)
Definition load_content (opts : RenderOpts) : M unit :=
  if Js.truthy (templateName opts) then
    tpl <- raise (getTemplate W (Js.nullish (templateName opts) "")) ;;
    markup <- raise (tpl (Js.nullish (templateData opts) [])) ;;
    call (setContent (inject_css opts markup) (waitUntil opts))
  else if Js.truthy (html opts) then
    call (setContent (inject_css opts (Js.nullish (html opts) "")) (waitUntil opts))
  else if Js.truthy (url opts) then
    if negb (ALLOW_URL cfg) then
      throw (JsError "URL rendering disabled by server configuration")
    else if negb (isWhitelisted (Js.nullish (url opts) "")) then
      throw (JsError "URL not in allowlist")
    else call (goto (Js.nullish (url opts) "") (waitUntil opts))
  else throw (JsError "Provide one of: html | templateName | url").

Definition extra_wait (opts : RenderOpts) : M unit :=
  match waitFor opts with
  | Some (WaitMs n) => call (waitForTimeout n)
  | Some (WaitSelector sel) =>
      call (waitForSelector sel (Js.nullish (timeout opts) 15000))
  | None => ret tt
  end.

Definition screenshotOptions (opts : RenderOpts) (clip : option ClipValue)
  : ScreenshotOptions :=
  {| shot_type := format opts;
     shot_quality := match format opts with
                     | png => None
                     | _ => Some (Js.nullish (quality opts) 90)
                     end;
     shot_fullPage := fullPage opts;
     shot_omitBackground := omitBackground opts;
     shot_clip := clip |}.

(** The callback passed to [withPage]. *)
Definition render_page (opts : RenderOpts) (size : Size)
    (clip : option ClipValue)
    (page : Page) : M Bytes :=
  call (setViewportSize (size_width size) (size_height size)) ;;
  call emulateMedia ;;
  call (setDefaultTimeout (Js.nullish (timeout opts) 15000)) ;;
  load_content opts ;;
  extra_wait opts ;;
  call (setViewportSize (size_width size) (size_height size)) ;;
  call (evaluate_devicePixelRatio (Js.nullish (dpr opts) (DEFAULT_DPR cfg))) ;;
  call_screenshot (screenshotOptions opts clip).

Inductive Response :=
| Image (contentType : Format) (body : Bytes)
| Json400 (error : string).

(** [err.message || 'Render failed'] *)
Definition error_text (e : Thrown) : M string :=
  match e with
  | JsError m => ret (if String.eqb m "" then "Render failed" else m)
  | JsUndefined =>
      throw (JsError "Cannot read properties of undefined (reading 'message')")
  end.

(** [app.post('/render', ...)], given the [withPage] in scope. *)
Definition render_with
    (withPage : (Page -> M Bytes) -> M Bytes) (body : RenderBody) : M Response :=
  match RenderSchema body with
  | None => ret (Json400 "Invalid payload")
  | Some opts =>
      try_catch
        (dims <- raise (requested_size opts) ;;
         size <- raise (enforceSize (fst dims) (snd dims)) ;;
         clip <- raise (resolved_clip opts) ;;
         buffer <- withPage (render_page opts size clip) ;;
         ret (Image (format opts) buffer))
        (fun err => msg <- error_text err ;; ret (Json400 msg))
  end.

(** The part of [withPage] after the engine handle is obtained: open a
    context and a page, run [fn], close both. *)
Definition page_session {A} (fn : Page -> M A) : M A :=
  call (newContext (DEFAULT_DPR cfg) 1200 630) ;;
  call route_install ;;
  page <- fresh_id ;;
  call newPage ;;
  try_finally (fn page) (call page_close ;; call context_close).

(** [browser = await chromium.launch(...)] *)
Definition launch_browser : M unit :=
  id <- fresh_id ;;
  call launch ;;
  set_browser (Some id).

End Server.

(** A call that cannot reject ([setTimeout] wrapped in a promise). *)
Definition record (e : Event) : M unit :=
  fun st => (Val tt, record_call e st).

(** ** [getBrowser] and [withPage] as in src/server.js *)

Module ServerJs.
Section Impl.

Variable cfg : Config.
Variable PRESETS : Presets.
Variable W : World.

Definition getBrowser : M (option nat) :=
  b <- get_browser ;;
  match b with
  | None => launch_browser W ;; get_browser
  | Some _ => get_browser
  end.

Definition withPage {A} (fn : Page -> M A) : M A :=
  getBrowser ;;
  page_session cfg W fn.

Definition render : RenderBody -> M Response :=
  render_with cfg PRESETS W withPage.

End Impl.
End ServerJs.

(** ** [getBrowser] and [withPage] as in the server code of src/swagger.js *)

Module SwaggerJs.
Section Impl.

Variable cfg : Config.
Variable PRESETS : Presets.
Variable W : World.

Definition getBrowser : M (option nat) :=
  b <- get_browser ;;
  match b with
  | Some _ => try_catch (call W contexts_probe) (fun _ => set_browser None)
  | None => ret tt
  end ;;
  b' <- get_browser ;;
  match b' with
  | None => launch_browser W ;; get_browser
  | Some _ => get_browser
  end.

(** The body of the [try] block of one loop iteration. *)
Definition attempt {A} (fn : Page -> M A) : M A :=
  getBrowser ;;
  page_session cfg W fn.

Definition closed_message : string :=
  "Target page, context or browser has been closed".

(** [err.message && err.message.includes(closed_message)] *)
Definition browser_closed (msg : string) : bool :=
  negb (String.eqb msg "") && Js.includes msg closed_message.

(** [while (retries > 0) { try { ... } catch (err) { ... } } throw lastError] *)
Fixpoint withPage_loop {A} (retries : nat) (lastError : Thrown)
    (fn : Page -> M A) : M A :=
  match retries with
  | O => throw lastError
  | S retries' =>
      try_catch (attempt fn)
        (fun err =>
           match err with
           | JsUndefined =>
               throw (JsError
                 "Cannot read properties of undefined (reading 'message')")
           | JsError msg =>
               if browser_closed msg then
                 set_browser None ;;
                 record (sleep 500) ;;
                 withPage_loop retries' err fn
               else throw err
           end)
  end.

Definition withPage {A} (fn : Page -> M A) : M A :=
  withPage_loop 3 JsUndefined fn.

Definition render : RenderBody -> M Response :=
  render_with cfg PRESETS W withPage.

End Impl.
End SwaggerJs.

(** ** Concrete worlds and requests used in the examples *)

Definition initial_state : State := {| browser := None; trace := [] |}.

(** Hostnames of the URLs that occur in the examples, as [new URL] gives
    them; every other string is taken as unparsable. *)
Definition sample_hostnameOf (u : string) : option string :=
  if String.eqb u "https://example.com/" then Some "example.com"
  else if String.eqb u "https://sub.example.com/" then Some "sub.example.com"
  else if String.eqb u "https://example.org/x.png" then Some "example.org"
  else None.

(** An engine on which every call resolves and no template exists. *)
Definition healthy_world : World :=
  {| hostnameOf := sample_hostnameOf;
     getTemplate := fun name =>
       Failure ("ENOENT: no such file or directory, open '" +:+ name +:+ ".hbs'");
     outcome := fun _ _ => None;
     capture := fun _ => [137; 80; 78; 71] |}.

(** Modelled from the spec: the preset table [templates/presets/presets.json],
    which is not among the sources.  The sizes are those the README lists
    (the spec quotes [twitter_card] as 1200 x 630); no clip preset is
    documented. *)
Definition documented_presets : Presets :=
  {| sizes := Some ({[ "twitter_card" := mkSize 1200 630 ]} ∪
                    {[ "square_1080" := mkSize 1080 1080 ]} ∪
                    {[ "story_1080x1920" := mkSize 1080 1920 ]} ∪
                    {[ "banner_1920x480" := mkSize 1920 480 ]} ∪
                    {[ "rednote_1080x1440" := mkSize 1080 1440 ]} ∪
                    {[ "rednote_1080x1080" := mkSize 1080 1080 ]});
     clips := Some ∅ |}.

(** * Vocabulary of the statements *)

(** [emits P m]: whatever the state, running [m] only appends calls that
    satisfy [P] to the trace. *)
Definition emits {A} (P : Event -> Prop) (m : M A) : Prop :=
  forall st, exists evs,
    trace (snd (m st)) = trace st ++ evs /\ Forall P evs.

(** [follows script m]: running [m] appends a prefix of [script], and the
    whole of it when [m] returns normally. *)
Definition follows {A} (script : list Event) (m : M A) : Prop :=
  forall st, exists evs,
    trace (snd (m st)) = trace st ++ evs /\
    evs `prefix_of` script /\
    (forall a, fst (m st) = Val a -> evs = script).

(** [fails m]: [m] never returns normally, it throws an [Error]. *)
Definition fails {A} (m : M A) : Prop :=
  forall st, exists msg, fst (m st) = Throw (JsError msg).

(** [sound m]: whatever [m] throws is an [Error] object. *)
Definition sound {A} (m : M A) : Prop :=
  forall st e, fst (m st) = Throw e -> exists msg, e = JsError msg.

(** The calls [getBrowser] and [withPage] make on their own account. *)
Definition session_event (cfg : Config) (e : Event) : Prop :=
  e = contexts_probe \/ e = launch \/
  e = newContext (DEFAULT_DPR cfg) 1200 630 \/ e = route_install \/
  e = newPage \/ e = page_close \/ e = context_close \/ e = sleep 500.

(** The calls of the [withPage] callback, in program order: what
    [load_content], [extra_wait] and [render_page] ask of the page when
    nothing rejects. *)
Definition content_script (cfg : Config) (W : World) (opts : RenderOpts)
  : list Event :=
  if Js.truthy (templateName opts) then
    match getTemplate W (Js.nullish (templateName opts) "") with
    | Success tpl =>
        match tpl (Js.nullish (templateData opts) []) with
        | Success markup => [setContent (inject_css opts markup) (waitUntil opts)]
        | Failure _ => []
        end
    | Failure _ => []
    end
  else if Js.truthy (html opts) then
    [setContent (inject_css opts (Js.nullish (html opts) "")) (waitUntil opts)]
  else if Js.truthy (url opts) then
    if negb (ALLOW_URL cfg) then []
    else if negb (isWhitelisted cfg W (Js.nullish (url opts) "")) then []
    else [goto (Js.nullish (url opts) "") (waitUntil opts)]
  else [].

Definition wait_script (opts : RenderOpts) : list Event :=
  match waitFor opts with
  | Some (WaitMs n) => [waitForTimeout n]
  | Some (WaitSelector sel) => [waitForSelector sel (Js.nullish (timeout opts) 15000)]
  | None => []
  end.

Definition page_script (cfg : Config) (W : World) (opts : RenderOpts)
    (size : Size) (clip : option ClipValue) : list Event :=
  [setViewportSize (size_width size) (size_height size); emulateMedia;
   setDefaultTimeout (Js.nullish (timeout opts) 15000)]
  ++ content_script cfg W opts
  ++ wait_script opts
  ++ [setViewportSize (size_width size) (size_height size);
      evaluate_devicePixelRatio (Js.nullish (dpr opts) (DEFAULT_DPR cfg));
      screenshot (screenshotOptions opts clip)].

(** Every call a [/render] request may cause. *)
Definition request_event (cfg : Config) (W : World) (opts : RenderOpts)
    (size : Size) (clip : option ClipValue) (e : Event) : Prop :=
  session_event cfg e \/ In e (page_script cfg W opts size clip).

(** What the handler relies on from the [withPage] in scope: it adds only
    its own session calls to those of the callback, throws only [Error]
    objects when the callback does, and fails whenever the callback does. *)
Definition wrapper_ok (cfg : Config)
    (withPage : (Page -> M Bytes) -> M Bytes) : Prop :=
  (forall (P : Event -> Prop) fn,
      (forall e, session_event cfg e -> P e) ->
      (forall page, emits P (fn page)) -> emits P (withPage fn)) /\
  (forall fn, (forall page, sound (fn page)) -> sound (withPage fn)) /\
  (forall fn, (forall page, fails (fn page)) -> fails (withPage fn)).

(** The calls a run of [m] from [st] appends to the trace. *)
Definition appended {A} (m : M A) (st : State) (evs : list Event) : Prop :=
  trace (snd (m st)) = trace st ++ evs.

(** [st] after the calls [evs]. *)
Definition add_events (st : State) (evs : list Event) : State :=
  {| browser := browser st; trace := trace st ++ evs |}.

(** The state in which [getBrowser] leaves a healthy engine, in
    src/server.js and in src/swagger.js. *)
Definition server_opened (st : State) : State :=
  match browser st with
  | Some _ => st
  | None => {| browser := Some (List.length (trace st));
               trace := trace st ++ [launch] |}
  end.

Definition swagger_opened (st : State) : State :=
  match browser st with
  | Some _ => add_events st [contexts_probe]
  | None => {| browser := Some (List.length (trace st));
               trace := trace st ++ [launch] |}
  end.

(** The state in which a page session hands the page to the callback. *)
Definition page_opened (cfg : Config) (st : State) : State :=
  add_events st [newContext (DEFAULT_DPR cfg) 1200 630; route_install; newPage].

(** Every engine call resolves. *)
Definition healthy (W : World) : Prop :=
  forall history e, outcome W history e = None.

(** [e] is not a viewport call, or it sets the viewport to [w] x [h]. *)
Definition viewport_is (w h : Z) (e : Event) : Prop :=
  forall w' h', e = setViewportSize w' h' -> w' = w /\ h' = h.

(** The size and clip resolution of the handler succeeds with [size], [clip]. *)
Definition resolves (cfg : Config) (PRESETS : Presets) (opts : RenderOpts)
    (size : Size) (clip : option ClipValue) : Prop :=
  exists dims,
    requested_size PRESETS opts = Success dims /\
    enforceSize cfg (fst dims) (snd dims) = Success size /\
    resolved_clip PRESETS opts = Success clip.

(** A request in URL mode: neither [templateName] nor [html] is truthy
    and [url] is [u]. *)
Definition url_mode (opts : RenderOpts) (u : string) : Prop :=
  Js.truthy (templateName opts) = false /\
  Js.truthy (html opts) = false /\
  url opts = Some u /\ u <> "".

Definition is_goto (e : Event) : Prop := exists u wu, e = goto u wu.

(** The body [b] with its [clip] field replaced, and the same on [parsed.data]. *)
Definition body_with_clip (b : RenderBody) (c : option Clip) : RenderBody :=
  {| b_html := b_html b; b_url := b_url b; b_templateName := b_templateName b;
     b_templateData := b_templateData b; b_width := b_width b;
     b_height := b_height b; b_sizePreset := b_sizePreset b;
     b_mainTitleSize := b_mainTitleSize b; b_subtitleSize := b_subtitleSize b;
     b_bodySize := b_bodySize b; b_dpr := b_dpr b; b_format := b_format b;
     b_quality := b_quality b; b_fullPage := b_fullPage b;
     b_omitBackground := b_omitBackground b; b_clip := c;
     b_clipPreset := b_clipPreset b; b_waitUntil := b_waitUntil b;
     b_waitFor := b_waitFor b; b_timeout := b_timeout b; b_css := b_css b |}.

(** The body [b] with its [clipPreset] field set to [name]. *)
Definition body_with_clipPreset (b : RenderBody) (name : string) : RenderBody :=
  {| b_html := b_html b; b_url := b_url b; b_templateName := b_templateName b;
     b_templateData := b_templateData b; b_width := b_width b;
     b_height := b_height b; b_sizePreset := b_sizePreset b;
     b_mainTitleSize := b_mainTitleSize b; b_subtitleSize := b_subtitleSize b;
     b_bodySize := b_bodySize b; b_dpr := b_dpr b; b_format := b_format b;
     b_quality := b_quality b; b_fullPage := b_fullPage b;
     b_omitBackground := b_omitBackground b; b_clip := b_clip b;
     b_clipPreset := Some name; b_waitUntil := b_waitUntil b;
     b_waitFor := b_waitFor b; b_timeout := b_timeout b; b_css := b_css b |}.

(** The body [b] with its [sizePreset] field set to [name]. *)
Definition body_with_sizePreset (b : RenderBody) (name : string) : RenderBody :=
  {| b_html := b_html b; b_url := b_url b; b_templateName := b_templateName b;
     b_templateData := b_templateData b; b_width := b_width b;
     b_height := b_height b; b_sizePreset := Some name;
     b_mainTitleSize := b_mainTitleSize b; b_subtitleSize := b_subtitleSize b;
     b_bodySize := b_bodySize b; b_dpr := b_dpr b; b_format := b_format b;
     b_quality := b_quality b; b_fullPage := b_fullPage b;
     b_omitBackground := b_omitBackground b; b_clip := b_clip b;
     b_clipPreset := b_clipPreset b; b_waitUntil := b_waitUntil b;
     b_waitFor := b_waitFor b; b_timeout := b_timeout b; b_css := b_css b |}.

Definition opts_with_clip (o : RenderOpts) (c : option Clip) : RenderOpts :=
  {| html := html o; url := url o; templateName := templateName o;
     templateData := templateData o; width := width o; height := height o;
     sizePreset := sizePreset o; mainTitleSize := mainTitleSize o;
     subtitleSize := subtitleSize o; bodySize := bodySize o; dpr := dpr o;
     format := format o; quality := quality o; fullPage := fullPage o;
     omitBackground := omitBackground o; clip := c;
     clipPreset := clipPreset o; waitUntil := waitUntil o;
     waitFor := waitFor o; timeout := timeout o; css := css o |}.

(** What the engine is asked about device pixel ratios. *)
Definition dpr_event_ok (cfg : Config) (opts : RenderOpts) (e : Event) : Prop :=
  (forall d w h, e = newContext d w h -> d = DEFAULT_DPR cfg) /\
  (forall d, e = evaluate_devicePixelRatio d ->
             d = Js.nullish (dpr opts) (DEFAULT_DPR cfg)).

(** A capture call carries the clip [rc]. *)
Definition clip_event_ok (rc : option ClipValue) (e : Event) : Prop :=
  forall o, e = screenshot o -> shot_clip o = rc.

(** A content call loads what the precedence [templateName], [html], [url]
    selects. *)
Definition content_event_ok (W : World) (opts : RenderOpts) (e : Event) : Prop :=
  (forall markup wu, e = setContent markup wu ->
     (Js.truthy (templateName opts) = true /\
      exists tpl m,
        getTemplate W (Js.nullish (templateName opts) "") = Success tpl /\
        tpl (Js.nullish (templateData opts) []) = Success m /\
        markup = inject_css opts m) \/
     (Js.truthy (templateName opts) = false /\ Js.truthy (html opts) = true /\
      markup = inject_css opts (Js.nullish (html opts) ""))) /\
  (forall u wu, e = goto u wu ->
     Js.truthy (templateName opts) = false /\ Js.truthy (html opts) = false /\
     url opts = Some u).

(** The state in which the [catch] block of [withPage] starts the next
    iteration: the shared handle dropped, 500 ms waited. *)
Definition after_pause (st : State) : State :=
  {| browser := None; trace := trace st ++ [sleep 500] |}.

(** [retried cfg W fn st msgs st']: from [st], [length msgs] attempts in a
    row threw an error reporting a closed browser (messages [msgs], in
    order), each followed by the pause; [st'] is where the next iteration
    starts. *)
Inductive retried {A} (cfg : Config) (W : World) (fn : Page -> M A)
  : State -> list string -> State -> Prop :=
| retried_none st : retried cfg W fn st [] st
| retried_again st msg st1 msgs st2 :
    SwaggerJs.attempt cfg W fn st = (Throw (JsError msg), st1) ->
    SwaggerJs.browser_closed msg = true ->
    retried cfg W fn (after_pause st1) msgs st2 ->
    retried cfg W fn st (msg :: msgs) st2.

(** What is thrown once the retries are used up. *)
Definition final_error (lastError : Thrown) (msgs : list string) : Thrown :=
  match last msgs with
  | Some msg => JsError msg
  | None => lastError
  end.

(** *** Sample requests and configurations *)

(** A healthy engine next to a template directory that holds the single
    template [simple-card]. *)
Definition card_world : World :=
  {| hostnameOf := sample_hostnameOf;
     getTemplate := fun name =>
       if String.eqb name "simple-card"
       then Success (fun _ =>
              Success "<html><head></head><body>card</body></html>")
       else getTemplate healthy_world name;
     outcome := fun _ _ => None;
     capture := capture healthy_world |}.

(** [templateName], [html], [url] and [css] all supplied. *)
Definition all_sources_body : RenderBody :=
  {| b_html := Some "<p>hi</p>"; b_url := Some "https://sub.example.com/";
     b_templateName := Some "simple-card";
     b_templateData := None; b_width := None; b_height := None;
     b_sizePreset := None; b_mainTitleSize := None; b_subtitleSize := None;
     b_bodySize := None; b_dpr := None; b_format := Some jpeg; b_quality := None;
     b_fullPage := None; b_omitBackground := None; b_clip := None;
     b_clipPreset := None; b_waitUntil := Some load;
     b_waitFor := Some (RawWaitNum 250); b_timeout := None;
     b_css := Some "body{margin:0}" |}.

(** An engine that dies between [newContext] and [newPage], every time. *)
Definition page_lost_world : World :=
  {| hostnameOf := sample_hostnameOf;
     getTemplate := getTemplate healthy_world;
     outcome := fun _ e =>
       match e with
       | newPage => Some SwaggerJs.closed_message
       | _ => None
       end;
     capture := capture healthy_world |}.

(** An engine that dies between [newContext] and [newPage] once, before
    the first pause, and is healthy after the relaunch. *)
Definition flaky_world : World :=
  {| hostnameOf := sample_hostnameOf;
     getTemplate := getTemplate healthy_world;
     outcome := fun history e =>
       match e with
       | newPage =>
           if existsb (fun e' => match e' with sleep _ => true | _ => false end)
                      history
           then None else Some SwaggerJs.closed_message
       | _ => None
       end;
     capture := capture healthy_world |}.

(** An engine on which [page.close()] rejects. *)
Definition stuck_page_world : World :=
  {| hostnameOf := sample_hostnameOf;
     getTemplate := getTemplate healthy_world;
     outcome := fun _ e =>
       match e with
       | page_close => Some "page.close: Protocol error (Target.closeTarget)"
       | _ => None
       end;
     capture := capture healthy_world |}.

(** [html] and [url] both supplied. *)
Definition html_and_url_body (markup u : string) : RenderBody :=
  {| b_html := Some markup; b_url := Some u; b_templateName := None;
     b_templateData := None; b_width := None; b_height := None;
     b_sizePreset := None; b_mainTitleSize := None; b_subtitleSize := None;
     b_bodySize := None; b_dpr := None; b_format := None; b_quality := None;
     b_fullPage := None; b_omitBackground := None; b_clip := None;
     b_clipPreset := None; b_waitUntil := None; b_waitFor := None;
     b_timeout := None; b_css := None |}.

(** [html] with a requested device pixel ratio. *)
Definition dpr_body (markup : string) (d : Q) : RenderBody :=
  {| b_html := Some markup; b_url := None; b_templateName := None;
     b_templateData := None; b_width := None; b_height := None;
     b_sizePreset := None; b_mainTitleSize := None; b_subtitleSize := None;
     b_bodySize := None; b_dpr := Some d; b_format := None; b_quality := None;
     b_fullPage := None; b_omitBackground := None; b_clip := None;
     b_clipPreset := None; b_waitUntil := None; b_waitFor := None;
     b_timeout := None; b_css := None |}.

(** A clip rectangle far outside every limit, with a negative origin. *)
Definition wild_clip : Clip :=
  {| clip_x := (-5)%Q; clip_y := 0%Q; clip_width := 100000%Q; clip_height := 7%Q |}.

Definition html_body (markup : string) : RenderBody :=
  {| b_html := Some markup; b_url := None; b_templateName := None;
     b_templateData := None; b_width := None; b_height := None;
     b_sizePreset := None; b_mainTitleSize := None; b_subtitleSize := None;
     b_bodySize := None; b_dpr := None; b_format := None; b_quality := None;
     b_fullPage := None; b_omitBackground := None; b_clip := None;
     b_clipPreset := None; b_waitUntil := None; b_waitFor := None;
     b_timeout := None; b_css := None |}.

Definition url_body (u : string) : RenderBody :=
  {| b_html := None; b_url := Some u; b_templateName := None;
     b_templateData := None; b_width := None; b_height := None;
     b_sizePreset := None; b_mainTitleSize := None; b_subtitleSize := None;
     b_bodySize := None; b_dpr := None; b_format := None; b_quality := None;
     b_fullPage := None; b_omitBackground := None; b_clip := None;
     b_clipPreset := None; b_waitUntil := None; b_waitFor := None;
     b_timeout := None; b_css := None |}.

(** [html] with explicit width and height. *)
Definition sized_body (markup : string) (w h : Z) : RenderBody :=
  {| b_html := Some markup; b_url := None; b_templateName := None;
     b_templateData := None; b_width := Some (inject_Z w);
     b_height := Some (inject_Z h);
     b_sizePreset := None; b_mainTitleSize := None; b_subtitleSize := None;
     b_bodySize := None; b_dpr := None; b_format := None; b_quality := None;
     b_fullPage := None; b_omitBackground := None; b_clip := None;
     b_clipPreset := None; b_waitUntil := None; b_waitFor := None;
     b_timeout := None; b_css := None |}.

(** [html], a size preset, and explicit width and height as well. *)
Definition preset_body (markup name : string) (w h : Z) : RenderBody :=
  {| b_html := Some markup; b_url := None; b_templateName := None;
     b_templateData := None; b_width := Some (inject_Z w);
     b_height := Some (inject_Z h);
     b_sizePreset := Some name; b_mainTitleSize := None; b_subtitleSize := None;
     b_bodySize := None; b_dpr := None; b_format := None; b_quality := None;
     b_fullPage := None; b_omitBackground := None; b_clip := None;
     b_clipPreset := None; b_waitUntil := None; b_waitFor := None;
     b_timeout := None; b_css := None |}.

(** URL rendering enabled for the subdomains of example.com. *)
Definition wildcard_config : Config :=
  {| DEFAULT_DPR := 1%Q; MAX_WIDTH := 4000; MAX_HEIGHT := 4000;
     MAX_PIXELS := 14000000; BLOCK_EXTERNAL := true; ALLOW_URL := true;
     ALLOWLIST := ["*.example.com"] |}.

(** External requests not blocked, URL rendering off, empty allowlist. *)
Definition open_network_config : Config :=
  {| DEFAULT_DPR := 1%Q; MAX_WIDTH := 4000; MAX_HEIGHT := 4000;
     MAX_PIXELS := 14000000; BLOCK_EXTERNAL := false; ALLOW_URL := false;
     ALLOWLIST := [] |}.

(** [exactly script m]: when [m] returns normally it has appended
    precisely the calls of [script]. *)
Definition exactly {A} (script : list Event) (m : M A) : Prop :=
  forall st a st', m st = (Val a, st') -> trace st' = trace st ++ script.

(** [finishes_with tail m]: when [m] returns normally the calls it has
    appended end with [tail]. *)
Definition finishes_with {A} (tail : list Event) (m : M A) : Prop :=
  forall st a st', m st = (Val a, st') ->
    exists pre, trace st' = trace st ++ pre ++ tail.

(** [keeps_browser m]: [m] does not assign the shared handle. *)
Definition keeps_browser {A} (m : M A) : Prop :=
  forall st, browser (snd (m st)) = browser st.

(** The calls of one complete page session around the script of a request. *)
Definition session_script (cfg : Config) (W : World) (opts : RenderOpts)
    (size : Size) (clip : option ClipValue) : list Event :=
  [newContext (DEFAULT_DPR cfg) 1200 630; route_install; newPage]
  ++ page_script cfg W opts size clip
  ++ [page_close; context_close].

(** What a request asks of [page.screenshot]. *)
Definition capture_event_ok (opts : RenderOpts) (e : Event) : Prop :=
  forall o, e = screenshot o ->
    shot_type o = format opts /\
    shot_fullPage o = fullPage opts /\
    shot_omitBackground o = omitBackground opts /\
    match format opts with
    | png => shot_quality o = None
    | _ =>
        shot_quality o = Some (Js.nullish (quality opts) 90) /\
        1 <= Js.nullish (quality opts) 90 <= 100
    end.

(** What [getBrowser] may ask of the engine in one call. *)
Definition handle_calls (evs : list Event) : Prop :=
  evs = [] \/ evs = [launch] \/ evs = [contexts_probe] \/
  evs = [contexts_probe; launch].

(** A navigation goes to the request's [url] and is let through by the
    route handler of its own context. *)
Definition navigation_ok (cfg : Config) (W : World) (opts : RenderOpts)
    (e : Event) : Prop :=
  forall u wu, e = goto u wu ->
    url opts = Some u /\ wu = waitUntil opts /\
    routeHandler cfg W u = route_continue.

(** URL rendering enabled with no allowlist configured. *)
Definition no_allowlist_config : Config :=
  {| DEFAULT_DPR := 1%Q; MAX_WIDTH := 4000; MAX_HEIGHT := 4000;
     MAX_PIXELS := 14000000; BLOCK_EXTERNAL := true; ALLOW_URL := true;
     ALLOWLIST := [] |}.

(** [html] as JPEG with an explicit quality. *)
Definition jpeg_body (markup : string) (q : Z) : RenderBody :=
  {| b_html := Some markup; b_url := None; b_templateName := None;
     b_templateData := None; b_width := None; b_height := None;
     b_sizePreset := None; b_mainTitleSize := None; b_subtitleSize := None;
     b_bodySize := None; b_dpr := None; b_format := Some jpeg;
     b_quality := Some (inject_Z q);
     b_fullPage := Some true; b_omitBackground := None; b_clip := None;
     b_clipPreset := None; b_waitUntil := None; b_waitFor := None;
     b_timeout := None; b_css := None |}.

(** [example.org] and the subdomains of example.com. *)
Definition wider_config : Config :=
  {| DEFAULT_DPR := 1%Q; MAX_WIDTH := 4000; MAX_HEIGHT := 4000;
     MAX_PIXELS := 14000000; BLOCK_EXTERNAL := true; ALLOW_URL := true;
     ALLOWLIST := ["example.org"; "*.example.com"] |}.

(** [parsed.data] written out again as a JSON body. *)
Definition body_of_opts (o : RenderOpts) : RenderBody :=
  {| b_html := html o; b_url := url o; b_templateName := templateName o;
     b_templateData := templateData o;
     b_width := option_map inject_Z (width o);
     b_height := option_map inject_Z (height o);
     b_sizePreset := sizePreset o; b_mainTitleSize := mainTitleSize o;
     b_subtitleSize := subtitleSize o; b_bodySize := bodySize o;
     b_dpr := dpr o; b_format := Some (format o);
     b_quality := option_map inject_Z (quality o);
     b_fullPage := Some (fullPage o);
     b_omitBackground := Some (omitBackground o);
     b_clip := clip o; b_clipPreset := clipPreset o;
     b_waitUntil := Some (waitUntil o);
     b_waitFor := match waitFor o with
                  | Some (WaitMs n) => Some (RawWaitNum (inject_Z n))
                  | Some (WaitSelector sel) => Some (RawWaitStr sel)
                  | None => None
                  end;
     b_timeout := option_map inject_Z (timeout o); b_css := css o |}.

(** The ranges [RenderSchema] enforces on [parsed.data]. *)
Definition in_schema_ranges (W : World) (o : RenderOpts) : Prop :=
  (forall w, width o = Some w -> 1 <= w <= 10000) /\
  (forall h, height o = Some h -> 1 <= h <= 10000) /\
  (forall q, quality o = Some q -> 1 <= q <= 100) /\
  (forall t, timeout o = Some t -> 0 <= t <= 60000) /\
  (forall n, waitFor o = Some (WaitMs n) -> 0 <= n <= 30000) /\
  (forall d, dpr o = Some d -> (1 # 2 <= d)%Q /\ (d <= 4)%Q) /\
  (forall u, url o = Some u -> is_Some (hostnameOf W u)).

(** A viewport call with positive dimensions inside the limits. *)
Definition viewport_in_limits (cfg : Config) (e : Event) : Prop :=
  forall w h, e = setViewportSize w h ->
    1 <= w <= MAX_WIDTH cfg /\ 1 <= h <= MAX_HEIGHT cfg /\
    w * h <= MAX_PIXELS cfg.

(** No [$] in a string, so that [String.prototype.replace] inserts it as
    it is. *)
Fixpoint no_dollar (s : string) : bool :=
  match s with
  | EmptyString => true
  | String c r => negb (Ascii.eqb c "$") && no_dollar r
  end.

(** A request with [html] and [css]. *)
Definition styled_opts (markup style : string) : RenderOpts :=
  mkOpts (Some markup) None None None None None None None None None None png
         None false false None None networkidle None None (Some style).

(** The calls [evs], made one after the other once [history] has been
    asked of the engine, all resolve. *)
Fixpoint all_resolve (W : World) (history : list Event) (evs : list Event)
  : Prop :=
  match evs with
  | [] => True
  | e :: rest =>
      outcome W history e = None /\ all_resolve W (history ++ [e]) rest
  end.

(** The engine calls of a request whose content step throws on its own,
    once the engine handle is there: the session is opened, the page is
    prepared, page and context are closed. *)
Definition refused_script (cfg : Config) (opts : RenderOpts) (size : Size)
  : list Event :=
  [newContext (DEFAULT_DPR cfg) 1200 630; route_install; newPage;
   setViewportSize (size_width size) (size_height size); emulateMedia;
   setDefaultTimeout (Js.nullish (timeout opts) 15000);
   page_close; context_close].

(** A callback of [withPage] that only makes calls, none of them one of
    the calls [getBrowser] and [withPage] make on their own account. *)
Definition callback_ok {A} (cfg : Config) (fn : Page -> M A) : Prop :=
  forall page, emits (fun e => ~ session_event cfg e) (fn page).

Definition is_newPage (e : Event) : bool :=
  match e with newPage => true | _ => false end.

Definition is_pause (e : Event) : bool :=
  match e with sleep ms => ms =? 500 | _ => false end.

(** How many of the calls [evs] satisfy [p]. *)
Definition count (p : Event -> bool) (evs : list Event) : nat :=
  List.length (List.filter p evs).

(** [at_most p n m]: running [m] only appends calls, at most [n] of them
    satisfying [p]. *)
Definition at_most {A} (p : Event -> bool) (n : nat) (m : M A) : Prop :=
  forall st, exists evs,
    trace (snd (m st)) = trace st ++ evs /\ (count p evs <= n)%nat.

(** What [getBrowser] asks of the engine from the state [s]: in
    src/server.js a launch when no handle is set; in src/swagger.js a
    launch when no handle is set, and otherwise the liveness probe,
    followed by a launch when the probe rejects. *)
Definition server_handle_script (s : State) : list Event :=
  match browser s with
  | None => [launch]
  | Some _ => []
  end.

Definition swagger_handle_script (W : World) (s : State) : list Event :=
  match browser s with
  | None => [launch]
  | Some _ =>
      match outcome W (trace s) contexts_probe with
      | None => [contexts_probe]
      | Some _ => [contexts_probe; launch]
      end
  end.

(** ** The switches read from the environment *)

Module Env.

(** [/^true$/i.test(s)] *)
Definition is_true (s : string) : bool :=
  match s with
  | String a (String b (String c (String d EmptyString))) =>
      (Ascii.eqb a "t" || Ascii.eqb a "T") &&
      (Ascii.eqb b "r" || Ascii.eqb b "R") &&
      (Ascii.eqb c "u" || Ascii.eqb c "U") &&
      (Ascii.eqb d "e" || Ascii.eqb d "E")
  | _ => false
  end.

(** [process.env.NAME || dflt]: an unset or empty variable gives [dflt]. *)
Definition or_default (v : option string) (dflt : string) : string :=
  match v with
  | Some s => if String.eqb s "" then dflt else s
  | None => dflt
  end.

Definition BLOCK_EXTERNAL (v : option string) : bool :=
  is_true (or_default v "true").

Definition ALLOW_URL (v : option string) : bool :=
  is_true (or_default v "false").

End Env.

(** ** The template cache *)

Module TemplateCache.
Section Cache.

(** [process.env.NODE_ENV === 'development'] *)
Variable isDevelopment : bool.
(** What [Handlebars.compile(tpl, { noEscape: true })] returns. *)
Variable Compiled : Type.
Variable compile : string -> Compiled.
(** [path.join(TEMPLATES_DIR, 'html', `${name}.hbs`)] *)
Variable template_file : string -> string.
(** [fs.readFileSync(file, 'utf8')], given the files read so far: the
    content may differ from one read to the next. *)
Variable readFileSync : list string -> string -> Try string.

(** [templateCache] and the reads made so far. *)
Record Store := mkStore {
  templateCache : gmap string Compiled;
  reads : list string
}.

Definition getTemplate (name : string) (st : Store) : Try Compiled * Store :=
  match (if isDevelopment then None else templateCache st !! name) with
  | Some compiled => (Success compiled, st)
  | None =>
      let file := template_file name in
      match readFileSync (reads st) file with
      | Failure message =>
          (Failure message,
           {| templateCache := templateCache st; reads := reads st ++ [file] |})
      | Success tpl =>
          let compiled := compile tpl in
          (Success compiled,
           {| templateCache := if isDevelopment then templateCache st
                               else <[name := compiled]> (templateCache st);
              reads := reads st ++ [file] |})
      end
  end.

(** The store after [getTemplate] has been called for each of [names]. *)
Fixpoint after_calls (names : list string) (st : Store) : Store :=
  match names with
  | [] => st
  | name :: rest => after_calls rest (snd (getTemplate name st))
  end.

End Cache.
End TemplateCache.

(** A template directory in which every file holds the number of reads
    made before it was read (so every read gives a new content). *)
Definition changing_files (history : list string) (file : string) : Try string :=
  Success (Js.showZ (Z.of_nat (List.length history))).

(** ** [POST /render-html] and the template list *)

Inductive HtmlResponse :=
| Html200 (body : string)
| HtmlJson400 (error : string).

(** [app.post('/render-html', ...)], for a body whose [templateName] is a
    string or absent and whose [templateData] is an object or absent. *)
Definition render_html (W : World) (templateName : option string)
    (templateData : option TemplateData) : HtmlResponse :=
  if negb (Js.truthy templateName) then HtmlJson400 "Template name is required"
  else
    let failed (message : string) :=
      HtmlJson400 (if String.eqb message "" then "HTML render failed" else message) in
    match getTemplate W (Js.nullish templateName "") with
    | Failure message => failed message
    | Success tpl =>
        match tpl (Js.nullish templateData []) with
        | Failure message => failed message
        | Success markup => Html200 markup
        end
    end.

(** The template names offered by [/] and [/preview]:
    [readdirSync(...).filter(f => f.endsWith('.hbs')).map(f => f.replace('.hbs', ''))]. *)
Definition template_names (files : list string) : list string :=
  List.map (fun f => Js.replace f ".hbs" "")
           (List.filter (fun f => Js.endsWith f ".hbs") files).

(** The file [getTemplate] opens for a name: [`${name}.hbs`] inside the
    template directory. *)
Definition template_file_name (name : string) : string := name +:+ ".hbs".

(** * Reasoning about runs *)

Create HintDb run discriminated.

Section Logic.

Context {A B : Type}.
Implicit Types (P : Event -> Prop) (st : State).

Lemma emits_ret P (a : A) : emits P (ret a).
Proof. intros st. exists []. simpl. rewrite app_nil_r. auto. Qed.

Lemma emits_throw P e : emits P (@throw A e).
Proof. intros st. exists []. simpl. rewrite app_nil_r. auto. Qed.

Lemma emits_raise P (r : Try A) : emits P (raise r).
Proof. intros st. exists []. destruct r; simpl; rewrite app_nil_r; auto. Qed.

Lemma emits_bind P (m : M A) (k : A -> M B) :
  emits P m -> (forall a, emits P (k a)) -> emits P (bind m k).
Proof.
  intros Hm Hk st. unfold bind.
  destruct (Hm st) as (e1 & E1 & F1).
  destruct (m st) as [[a|e] st1]; simpl in *.
  - destruct (Hk a st1) as (e2 & E2 & F2).
    exists (e1 ++ e2). rewrite E2, E1, <- app_assoc. split; [done|].
    apply Forall_app; auto.
  - exists e1. auto.
Qed.

Lemma emits_try_catch P (m : M A) (h : Thrown -> M A) :
  emits P m -> (forall e, emits P (h e)) -> emits P (try_catch m h).
Proof.
  intros Hm Hh st. unfold try_catch.
  destruct (Hm st) as (e1 & E1 & F1).
  destruct (m st) as [[a|e] st1]; simpl in *.
  - exists e1. auto.
  - destruct (Hh e st1) as (e2 & E2 & F2).
    exists (e1 ++ e2). rewrite E2, E1, <- app_assoc. split; [done|].
    apply Forall_app; auto.
Qed.

Lemma emits_try_finally P (m : M A) (fin : M unit) :
  emits P m -> emits P fin -> emits P (try_finally m fin).
Proof.
  intros Hm Hf st. unfold try_finally.
  destruct (Hm st) as (e1 & E1 & F1).
  destruct (m st) as [r st1]; simpl in *.
  destruct (Hf st1) as (e2 & E2 & F2).
  exists (e1 ++ e2).
  destruct (fin st1) as [[u|e] st2]; simpl in *;
    (rewrite E2, E1, <- app_assoc; split; [done|]; apply Forall_app; auto).
Qed.

Lemma follows_emits P script (m : M A) :
  follows script m -> Forall P script -> emits P m.
Proof.
  intros Hm HP st. destruct (Hm st) as (evs & E & [k ->] & _).
  exists evs. split; [done|]. apply Forall_app in HP. tauto.
Qed.

Lemma follows_ret (a : A) : follows [] (ret a).
Proof.
  intros st. exists []. simpl. rewrite app_nil_r. repeat split; auto.
Qed.

Lemma follows_throw script e : follows script (@throw A e).
Proof.
  intros st. exists []. simpl. rewrite app_nil_r.
  repeat split; [apply prefix_nil | discriminate].
Qed.

Lemma sound_raise (r : Try A) : sound (raise r).
Proof. intros st e. destruct r; simpl; [discriminate|]. intros [= <-]. eauto. Qed.

Lemma follows_bind s1 s2 (m : M A) (k : A -> M B) :
  follows s1 m -> (forall a, follows s2 (k a)) -> follows (s1 ++ s2) (bind m k).
Proof.
  intros Hm Hk st. unfold bind.
  destruct (Hm st) as (e1 & E1 & P1 & V1).
  destruct (m st) as [[a|e] st1]; simpl in *.
  - destruct (Hk a st1) as (e2 & E2 & P2 & V2).
    rewrite (V1 a eq_refl) in E1.
    exists (s1 ++ e2). rewrite E2, E1, <- app_assoc. split; [done|]. split.
    + by apply prefix_app.
    + intros b Hb. by rewrite (V2 b Hb).
  - exists e1. split; [done|]. split; [|discriminate].
    by apply prefix_app_r.
Qed.

Lemma fails_throw msg : fails (@throw A (JsError msg)).
Proof. intros st. by exists msg. Qed.

Lemma fails_bind_l (m : M A) (k : A -> M B) : fails m -> fails (bind m k).
Proof.
  intros Hm st. unfold bind. destruct (Hm st) as [e He].
  destruct (m st) as [[a|e'] st1]; simpl in *; [discriminate|].
  injection He as ->. eauto.
Qed.

Lemma fails_bind_r (m : M A) (k : A -> M B) :
  sound m -> (forall a, fails (k a)) -> fails (bind m k).
Proof.
  intros Hm Hk st. unfold bind. pose proof (Hm st) as Hs.
  destruct (m st) as [[a|e'] st1]; simpl in *; [apply Hk|].
  destruct (Hs e' eq_refl) as [msg ->]. by exists msg.
Qed.

Lemma fails_try_finally (m : M A) (fin : M unit) :
  fails m -> sound fin -> fails (try_finally m fin).
Proof.
  intros Hm Hf st. unfold try_finally. destruct (Hm st) as [e He].
  destruct (m st) as [r st1]; simpl in *. subst r.
  pose proof (Hf st1) as Hs.
  destruct (fin st1) as [[u|e'] st2]; simpl in *; [eauto|].
  destruct (Hs e' eq_refl) as [msg ->]. eauto.
Qed.

Lemma fails_try_catch (m : M A) (h : Thrown -> M A) :
  fails m -> (forall e, fails (h e)) -> fails (try_catch m h).
Proof.
  intros Hm Hh st. unfold try_catch. destruct (Hm st) as [e He].
  destruct (m st) as [[a|e'] st1]; simpl in *; [discriminate|]. apply Hh.
Qed.

Lemma sound_ret (a : A) : sound (ret a).
Proof. intros st e. discriminate. Qed.

Lemma sound_throw msg : sound (@throw A (JsError msg)).
Proof. intros st e [= <-]. by exists msg. Qed.

Lemma sound_bind (m : M A) (k : A -> M B) :
  sound m -> (forall a, sound (k a)) -> sound (bind m k).
Proof.
  intros Hm Hk st e. unfold bind. pose proof (Hm st) as Hs.
  destruct (m st) as [[a|e'] st1]; simpl in *; [apply Hk|].
  intros [= <-]. by apply Hs.
Qed.

Lemma sound_try_catch (m : M A) (h : Thrown -> M A) :
  (forall e, sound (h e)) -> sound (try_catch m h).
Proof.
  intros Hh st e. unfold try_catch.
  destruct (m st) as [[a|e'] st1]; simpl in *; [discriminate|]. apply Hh.
Qed.

Lemma sound_try_finally (m : M A) (fin : M unit) :
  sound m -> sound fin -> sound (try_finally m fin).
Proof.
  intros Hm Hf st e. unfold try_finally. pose proof (Hm st) as Hs.
  destruct (m st) as [r st1]; simpl in *.
  pose proof (Hf st1) as Hs'.
  destruct (fin st1) as [[u|e'] st2]; simpl in *.
  - intros ->. by apply Hs.
  - intros [= <-]. by apply Hs'.
Qed.

End Logic.

Lemma emits_set_browser P b : emits P (set_browser b).
Proof. intros st. exists []. simpl. rewrite app_nil_r. auto. Qed.

Lemma emits_get_browser P : emits P get_browser.
Proof. intros st. exists []. simpl. rewrite app_nil_r. auto. Qed.

Lemma emits_record (P : Event -> Prop) e : P e -> emits P (record e).
Proof. intros HP st. exists [e]. simpl. auto. Qed.

Lemma emits_call W (P : Event -> Prop) e : P e -> emits P (call W e).
Proof.
  intros HP st. exists [e]. unfold call.
  destruct (outcome W (trace st) e); simpl; auto.
Qed.

Lemma follows_call W e : follows [e] (call W e).
Proof.
  intros st. exists [e]. unfold call.
  destruct (outcome W (trace st) e); simpl; repeat split; auto.
Qed.

Lemma follows_call_screenshot W o : follows [screenshot o] (call_screenshot W o).
Proof.
  intros st. exists [screenshot o]. unfold call_screenshot.
  destruct (outcome W (trace st) (screenshot o)); simpl; repeat split; auto.
Qed.

Lemma emits_fresh_id P : emits P fresh_id.
Proof. intros st. exists []. simpl. rewrite app_nil_r. auto. Qed.

Lemma sound_call W e : sound (call W e).
Proof.
  intros st e'. unfold call.
  destruct (outcome W (trace st) e) as [msg|]; simpl; [|discriminate].
  intros [= <-]. by exists msg.
Qed.

Lemma sound_call_screenshot W o : sound (call_screenshot W o).
Proof.
  intros st e'. unfold call_screenshot.
  destruct (outcome W (trace st) (screenshot o)) as [msg|]; simpl; [|discriminate].
  intros [= <-]. by exists msg.
Qed.

Lemma sound_state_read {A} (f : State -> A) : sound (fun st => (Val (f st), st)).
Proof. intros st e. discriminate. Qed.

Lemma sound_set_browser b : sound (set_browser b).
Proof. intros st e. discriminate. Qed.

Lemma sound_record e : sound (record e).
Proof. intros st e'. discriminate. Qed.

#[export] Hint Resolve emits_ret emits_throw emits_raise sound_raise emits_set_browser
  emits_get_browser emits_fresh_id sound_ret sound_throw sound_call
  sound_call_screenshot sound_set_browser sound_record : run.

(** One step of a syntax-directed proof of [emits] or [sound]. *)
Ltac run_step :=
  first
    [ apply emits_bind; [|intros ?]
    | apply emits_try_catch; [|intros ?]
    | apply emits_try_finally
    | apply emits_call
    | apply emits_record
    | apply sound_bind; [|intros ?]
    | apply sound_try_catch; intros ?
    | apply sound_try_finally
    | apply (sound_state_read browser)
    | apply (sound_state_read (fun st => List.length (trace st)))
    | solve [auto with run] ].

(** * String facts behind the allowlist *)

Module JsFacts.

Lemma substring_all s : String.substring 0 (String.length s) s = s.
Proof. induction s as [|c s IH]; simpl; [done | by rewrite IH]. Qed.

Lemma length_append s t :
  String.length (s +:+ t) = (String.length s + String.length t)%nat.
Proof. induction s as [|c s IH]; simpl; [done | by rewrite IH]. Qed.

Lemma substring_split s k :
  (k <= String.length s)%nat ->
  s = String.substring 0 k s +:+ String.substring k (String.length s - k) s.
Proof.
  revert k. induction s as [|c s IH]; intros [|k] Hk; simpl in *; try lia.
  - done.
  - by rewrite substring_all.
  - change (String c s = String c
      (String.substring 0 k s +:+ String.substring k (String.length s - k) s)).
    f_equal. apply IH. lia.
Qed.

Lemma substring_append_r pre p :
  String.substring (String.length pre) (String.length p) (pre +:+ p) = p.
Proof. induction pre as [|c pre IH]; simpl; [apply substring_all | done]. Qed.

Lemma endsWith_spec h p :
  Js.endsWith h p = true <-> exists pre, h = pre +:+ p.
Proof.
  unfold Js.endsWith. split.
  - destruct (Nat.leb_spec (String.length p) (String.length h)) as [Hle|]; [|done].
    intros Heq%String.eqb_eq.
    exists (String.substring 0 (String.length h - String.length p) h).
    rewrite (substring_split h (String.length h - String.length p)) at 1 by lia.
    f_equal. rewrite <- Heq at 3. f_equal. lia.
  - intros [pre ->]. rewrite length_append.
    destruct (Nat.leb_spec (String.length p) (String.length pre + String.length p))
      as [_|]; [|lia].
    apply String.eqb_eq.
    replace (String.length pre + String.length p - String.length p)%nat
      with (String.length pre) by lia.
    apply substring_append_r.
Qed.

Lemma slice_wildcard dom : Js.slice 2 ("*." +:+ dom) = dom.
Proof. unfold Js.slice. simpl. rewrite Nat.sub_0_r. apply substring_all. Qed.

Lemma startsWith_wildcard dom : Js.startsWith ("*." +:+ dom) "*." = true.
Proof. unfold Js.startsWith. simpl. by destruct dom. Qed.

End JsFacts.

(** * What the pieces of the server do *)

Section Components.

Variable cfg : Config.
Variable PRESETS : Presets.
Variable W : World.

Lemma follows_bind_raise {A B} script (r : Try A) (k : A -> M B) :
  (forall a, r = Success a -> follows script (k a)) ->
  follows script (bind (raise r) k).
Proof.
  intros Hk. destruct r as [a|msg].
  - intros st. exact (Hk a eq_refl st).
  - intros st. exact (follows_throw script (JsError msg) st).
Qed.

Lemma follows_call_bind {B} e script (k : unit -> M B) :
  (forall u, follows script (k u)) -> follows (e :: script) (bind (call W e) k).
Proof. intros Hk. exact (follows_bind [e] script _ _ (follows_call W e) Hk). Qed.

Lemma load_content_follows opts :
  follows (content_script cfg W opts) (load_content cfg W opts).
Proof.
  unfold load_content, content_script.
  destruct (Js.truthy (templateName opts)).
  { apply follows_bind_raise. intros tpl ->.
    apply follows_bind_raise. intros markup ->. apply follows_call. }
  destruct (Js.truthy (html opts)); [apply follows_call|].
  destruct (Js.truthy (url opts)); [|apply follows_throw].
  destruct (negb (ALLOW_URL cfg)); [apply follows_throw|].
  destruct (negb (isWhitelisted cfg W _)); [apply follows_throw|].
  apply follows_call.
Qed.

Lemma extra_wait_follows opts : follows (wait_script opts) (extra_wait W opts).
Proof.
  unfold extra_wait, wait_script.
  destruct (waitFor opts) as [[n|sel]|];
    [apply follows_call | apply follows_call | apply follows_ret].
Qed.

Lemma render_page_follows opts size clip page :
  follows (page_script cfg W opts size clip)
          (render_page cfg W opts size clip page).
Proof.
  unfold render_page, page_script. simpl.
  do 3 (apply follows_call_bind; intros _).
  apply follows_bind; [apply load_content_follows | intros _].
  apply follows_bind; [apply extra_wait_follows | intros _].
  do 2 (apply follows_call_bind; intros _).
  apply follows_call_screenshot.
Qed.

Lemma load_content_sound opts : sound (load_content cfg W opts).
Proof.
  unfold load_content.
  repeat match goal with |- sound (if ?b then _ else _) => destruct b end;
    repeat run_step.
Qed.

Lemma extra_wait_sound opts : sound (extra_wait W opts).
Proof.
  unfold extra_wait. destruct (waitFor opts) as [[n|sel]|]; run_step.
Qed.

Lemma render_page_sound opts size clip page :
  sound (render_page cfg W opts size clip page).
Proof.
  pose proof (load_content_sound opts). pose proof (extra_wait_sound opts).
  unfold render_page. repeat run_step.
Qed.

Lemma render_page_emits opts size clip page :
  emits (request_event cfg W opts size clip)
        (render_page cfg W opts size clip page).
Proof.
  eapply follows_emits; [apply render_page_follows|].
  apply Forall_forall. intros e He. right. by apply list_elem_of_In.
Qed.

(** *** One page session *)

Lemma page_session_emits {A} (P : Event -> Prop) (fn : Page -> M A) :
  (forall e, session_event cfg e -> P e) ->
  (forall page, emits P (fn page)) ->
  emits P (page_session cfg W fn).
Proof.
  intros HP Hfn. unfold page_session.
  repeat run_step; try apply Hfn; apply HP; unfold session_event; tauto.
Qed.

Lemma page_session_sound {A} (fn : Page -> M A) :
  (forall page, sound (fn page)) -> sound (page_session cfg W fn).
Proof. intros Hfn. unfold page_session. repeat run_step. Qed.

Lemma page_session_fails {A} (fn : Page -> M A) :
  (forall page, fails (fn page)) -> fails (page_session cfg W fn).
Proof.
  intros Hfn. unfold page_session.
  do 2 (apply fails_bind_r; [run_step | intros _]).
  apply fails_bind_r; [run_step | intros page].
  apply fails_bind_r; [run_step | intros _].
  apply fails_try_finally; [apply Hfn | repeat run_step].
Qed.

(** However the callback ends, [page.close()] is called once after it,
    and then [context.close()] once unless [page.close()] rejected. *)
Lemma cleanup_after_callback {A} (fn : M A) st :
  let st1 := snd (fn st) in
  trace (snd (try_finally fn (call W page_close ;; call W context_close) st)) =
  trace st1 ++
    match outcome W (trace st1) page_close with
    | None => [page_close; context_close]
    | Some _ => [page_close]
    end.
Proof.
  unfold try_finally, bind, call. destruct (fn st) as [r st1]. simpl.
  destruct (outcome W (trace st1) page_close); simpl; [done|].
  destruct (outcome W _ context_close); simpl; by rewrite <- app_assoc.
Qed.

End Components.

(** * The two versions of [getBrowser] and [withPage] *)

Section Wrappers.

Variable cfg : Config.
Variable PRESETS : Presets.
Variable W : World.

Lemma launch_browser_emits (P : Event -> Prop) :
  P launch -> emits P (launch_browser W).
Proof. intros HP. unfold launch_browser. repeat run_step. Qed.

Lemma launch_browser_sound : sound (launch_browser W).
Proof. unfold launch_browser. repeat run_step. Qed.

Lemma server_getBrowser_emits (P : Event -> Prop) :
  (forall e, session_event cfg e -> P e) -> emits P (ServerJs.getBrowser W).
Proof.
  intros HP. unfold ServerJs.getBrowser.
  apply emits_bind; [auto with run | intros [id|]]; [auto with run|].
  apply emits_bind; [|auto with run].
  apply launch_browser_emits, HP. unfold session_event. tauto.
Qed.

Lemma server_getBrowser_sound : sound (ServerJs.getBrowser W).
Proof.
  pose proof launch_browser_sound.
  unfold ServerJs.getBrowser. run_step; [run_step|].
  destruct a; repeat run_step.
Qed.

Lemma server_withPage_emits {A} (P : Event -> Prop) (fn : Page -> M A) :
  (forall e, session_event cfg e -> P e) ->
  (forall page, emits P (fn page)) ->
  emits P (ServerJs.withPage cfg W fn).
Proof.
  intros HP Hfn. unfold ServerJs.withPage.
  apply emits_bind; [by apply server_getBrowser_emits | intros _].
  by apply page_session_emits.
Qed.

Lemma server_withPage_sound {A} (fn : Page -> M A) :
  (forall page, sound (fn page)) -> sound (ServerJs.withPage cfg W fn).
Proof.
  intros Hfn. unfold ServerJs.withPage.
  apply sound_bind; [apply server_getBrowser_sound | intros _].
  by apply page_session_sound.
Qed.

Lemma server_withPage_fails {A} (fn : Page -> M A) :
  (forall page, fails (fn page)) -> fails (ServerJs.withPage cfg W fn).
Proof.
  intros Hfn. unfold ServerJs.withPage.
  apply fails_bind_r; [apply server_getBrowser_sound | intros _].
  by apply page_session_fails.
Qed.

Lemma server_wrapper_ok : wrapper_ok cfg (ServerJs.withPage cfg W).
Proof.
  split; [|split].
  - intros P fn. apply server_withPage_emits.
  - apply server_withPage_sound.
  - apply server_withPage_fails.
Qed.

Lemma swagger_getBrowser_emits (P : Event -> Prop) :
  (forall e, session_event cfg e -> P e) -> emits P (SwaggerJs.getBrowser W).
Proof.
  intros HP. unfold SwaggerJs.getBrowser.
  assert (P contexts_probe) by (apply HP; unfold session_event; tauto).
  assert (P launch) by (apply HP; unfold session_event; tauto).
  apply emits_bind; [auto with run | intros [id|]].
  - apply emits_bind; [repeat run_step | intros _].
    apply emits_bind; [auto with run | intros [id'|]]; repeat run_step.
  - apply emits_bind; [auto with run | intros _].
    apply emits_bind; [auto with run | intros [id'|]]; repeat run_step.
Qed.

Lemma swagger_getBrowser_sound : sound (SwaggerJs.getBrowser W).
Proof.
  pose proof launch_browser_sound.
  unfold SwaggerJs.getBrowser. run_step; [run_step|].
  run_step; [destruct a; repeat run_step|].
  run_step; [run_step|]. destruct a1; repeat run_step.
Qed.

Lemma swagger_attempt_emits {A} (P : Event -> Prop) (fn : Page -> M A) :
  (forall e, session_event cfg e -> P e) ->
  (forall page, emits P (fn page)) ->
  emits P (SwaggerJs.attempt cfg W fn).
Proof.
  intros HP Hfn. unfold SwaggerJs.attempt.
  apply emits_bind; [by apply swagger_getBrowser_emits | intros _].
  by apply page_session_emits.
Qed.

Lemma swagger_attempt_fails {A} (fn : Page -> M A) :
  (forall page, fails (fn page)) -> fails (SwaggerJs.attempt cfg W fn).
Proof.
  intros Hfn. unfold SwaggerJs.attempt.
  apply fails_bind_r; [apply swagger_getBrowser_sound | intros _].
  by apply page_session_fails.
Qed.

Lemma swagger_loop_emits {A} (P : Event -> Prop) (fn : Page -> M A) n lastError :
  (forall e, session_event cfg e -> P e) ->
  (forall page, emits P (fn page)) ->
  emits P (SwaggerJs.withPage_loop cfg W n lastError fn).
Proof.
  intros HP Hfn. revert lastError.
  induction n as [|n IH]; intros lastError; simpl; [auto with run|].
  apply emits_try_catch; [by apply swagger_attempt_emits|].
  intros [|msg]; [auto with run|].
  destruct (SwaggerJs.browser_closed msg); [|auto with run].
  apply emits_bind; [auto with run | intros _].
  apply emits_bind; [|intros _; apply IH].
  apply emits_record, HP. unfold session_event. tauto.
Qed.

Lemma swagger_loop_sound {A} (fn : Page -> M A) n lastError :
  (n = O -> exists msg, lastError = JsError msg) ->
  sound (SwaggerJs.withPage_loop cfg W n lastError fn).
Proof.
  revert lastError. induction n as [|n IH]; intros lastError Hlast; simpl.
  - destruct (Hlast eq_refl) as [msg ->]. auto with run.
  - apply sound_try_catch. intros [|msg]; [auto with run|].
    destruct (SwaggerJs.browser_closed msg); [|auto with run].
    do 2 (apply sound_bind; [auto with run | intros _]).
    apply IH. eauto.
Qed.

Lemma swagger_loop_fails {A} (fn : Page -> M A) n lastError :
  (n = O -> exists msg, lastError = JsError msg) ->
  (forall page, fails (fn page)) ->
  fails (SwaggerJs.withPage_loop cfg W n lastError fn).
Proof.
  intros Hlast Hfn. revert lastError Hlast.
  induction n as [|n IH]; intros lastError Hlast; simpl.
  - destruct (Hlast eq_refl) as [msg ->]. apply fails_throw.
  - apply fails_try_catch; [by apply swagger_attempt_fails|].
    intros [|msg]; [apply fails_throw|].
    destruct (SwaggerJs.browser_closed msg); [|apply fails_throw].
    do 2 (apply fails_bind_r; [auto with run | intros _]).
    apply IH. eauto.
Qed.

Lemma swagger_wrapper_ok : wrapper_ok cfg (SwaggerJs.withPage cfg W).
Proof.
  split; [|split]; unfold SwaggerJs.withPage.
  - intros P fn. apply swagger_loop_emits.
  - intros fn _. apply swagger_loop_sound. discriminate.
  - intros fn. apply swagger_loop_fails. discriminate.
Qed.

End Wrappers.

(** * The [/render] handler over any well-behaved [withPage] *)

Section Handler.

Variable cfg : Config.
Variable PRESETS : Presets.
Variable W : World.
Variable withPage : (Page -> M Bytes) -> M Bytes.

Local Abbreviation render := (render_with cfg PRESETS W withPage).

(** The handler, one decision at a time. *)
Lemma render_with_unfold body st :
  render body st =
  match RenderSchema W body with
  | None => (Val (Json400 "Invalid payload"), st)
  | Some opts =>
      match requested_size PRESETS opts with
      | Failure msg => (msg' <- error_text (JsError msg) ;; ret (Json400 msg')) st
      | Success dims =>
          match enforceSize cfg (fst dims) (snd dims) with
          | Failure msg => (msg' <- error_text (JsError msg) ;; ret (Json400 msg')) st
          | Success size =>
              match resolved_clip PRESETS opts with
              | Failure msg =>
                  (msg' <- error_text (JsError msg) ;; ret (Json400 msg')) st
              | Success clip =>
                  match withPage (render_page cfg W opts size clip) st with
                  | (Val buffer, st1) => (Val (Image (format opts) buffer), st1)
                  | (Throw e, st1) =>
                      (msg' <- error_text e ;; ret (Json400 msg')) st1
                  end
              end
          end
      end
  end.
Proof.
  unfold render_with. destruct (RenderSchema W body) as [opts|]; [|done].
  cbv [try_catch bind raise ret throw].
  destruct (requested_size PRESETS opts) as [dims|]; [|done].
  destruct (enforceSize cfg (fst dims) (snd dims)) as [size|]; [|done].
  destruct (resolved_clip PRESETS opts) as [clip|]; [|done].
  by destruct (withPage (render_page cfg W opts size clip) st) as [[buf|e] st1].
Qed.

(** A request stopped by the size or clip resolution is answered at once:
    the state is untouched, so [withPage] was never entered. *)
Lemma render_with_size_preset_failure body opts msg st :
  RenderSchema W body = Some opts ->
  requested_size PRESETS opts = Failure msg ->
  render body st
  = (Val (Json400 (if String.eqb msg "" then "Render failed" else msg)), st).
Proof. intros Hs Hr. by rewrite render_with_unfold, Hs, Hr. Qed.

Lemma render_with_budget_failure body opts dims msg st :
  RenderSchema W body = Some opts ->
  requested_size PRESETS opts = Success dims ->
  enforceSize cfg (fst dims) (snd dims) = Failure msg ->
  render body st
  = (Val (Json400 (if String.eqb msg "" then "Render failed" else msg)), st).
Proof. intros Hs Hr He. by rewrite render_with_unfold, Hs, Hr, He. Qed.

Hypothesis withPage_ok : wrapper_ok cfg withPage.

(** Either nothing was asked of the engine, or the request passed schema,
    size and clip resolution and every call made is one of its own. *)
Lemma render_with_appends body st :
  snd (render body st) = st \/
  exists opts dims size clip evs,
    RenderSchema W body = Some opts /\
    requested_size PRESETS opts = Success dims /\
    enforceSize cfg (fst dims) (snd dims) = Success size /\
    resolved_clip PRESETS opts = Success clip /\
    appended (render body) st evs /\
    Forall (request_event cfg W opts size clip) evs.
Proof.
  unfold appended. rewrite render_with_unfold.
  destruct (RenderSchema W body) as [opts|] eqn:Hs; [|by left].
  destruct (requested_size PRESETS opts) as [dims|] eqn:Hr; [|by left].
  destruct (enforceSize cfg (fst dims) (snd dims)) as [size|] eqn:He; [|by left].
  destruct (resolved_clip PRESETS opts) as [clip|] eqn:Hc; [|by left].
  right. exists opts, dims, size, clip.
  destruct withPage_ok as (Hemit & _ & _).
  destruct (Hemit (request_event cfg W opts size clip)
              (render_page cfg W opts size clip)
              (fun e He' => or_introl He')
              (render_page_emits cfg W opts size clip) st) as (evs & Hevs & Hall).
  exists evs. repeat split; auto.
  destruct (withPage (render_page cfg W opts size clip) st) as [[buf|e] st1];
    simpl in *; [done|].
  by destruct e.
Qed.

(** The handler always answers: an image or a JSON error. *)
Lemma render_with_total body st : exists resp, fst (render body st) = Val resp.
Proof.
  rewrite render_with_unfold.
  destruct (RenderSchema W body) as [opts|]; [|by eexists].
  destruct (requested_size PRESETS opts) as [dims|]; [|by eexists].
  destruct (enforceSize cfg (fst dims) (snd dims)) as [size|]; [|by eexists].
  destruct (resolved_clip PRESETS opts) as [clip|]; [|by eexists].
  destruct withPage_ok as (_ & Hsound & _).
  pose proof (Hsound (render_page cfg W opts size clip)
                (render_page_sound cfg W opts size clip) st) as Hs.
  destruct (withPage (render_page cfg W opts size clip) st) as [[buf|e] st1];
    simpl in *; [by eexists|].
  destruct (Hs e eq_refl) as [msg ->]. by eexists.
Qed.

Lemma render_page_fails opts size clip page :
  fails (load_content cfg W opts) ->
  fails (render_page cfg W opts size clip page).
Proof.
  intros Hfail. unfold render_page.
  do 3 (apply fails_bind_r; [auto with run | intros _]).
  by apply fails_bind_l.
Qed.

(** When the content step cannot succeed the answer is a JSON error. *)
Lemma render_with_content_failure body opts st :
  RenderSchema W body = Some opts ->
  fails (load_content cfg W opts) ->
  exists msg, fst (render body st) = Val (Json400 msg).
Proof.
  intros Hschema Hfail. rewrite render_with_unfold, Hschema.
  destruct (requested_size PRESETS opts) as [dims|]; [|by eexists].
  destruct (enforceSize cfg (fst dims) (snd dims)) as [size|]; [|by eexists].
  destruct (resolved_clip PRESETS opts) as [clip|]; [|by eexists].
  destruct withPage_ok as (_ & _ & Hfails).
  destruct (Hfails _ (fun page => render_page_fails opts size clip page Hfail) st)
    as [msg Hmsg].
  destruct (withPage (render_page cfg W opts size clip) st) as [[buf|e] st1];
    simpl in *; [discriminate|].
  injection Hmsg as ->. by eexists.
Qed.

End Handler.

(** * Size resolution *)

Section SizeFacts.

Variable cfg : Config.
Variable PRESETS : Presets.
Variable W : World.

Lemma enforceSize_within_budget width height :
  let w := Z.min (Js.orZ width 1200) (MAX_WIDTH cfg) in
  let h := Z.min (Js.orZ height 630) (MAX_HEIGHT cfg) in
  w * h <= MAX_PIXELS cfg ->
  enforceSize cfg width height = Success (mkSize w h).
Proof.
  intros w h Hle. unfold enforceSize. fold w h.
  destruct (Z.gtb_spec (w * h) (MAX_PIXELS cfg)); [lia|done].
Qed.

Lemma enforceSize_over_budget width height :
  let w := Z.min (Js.orZ width 1200) (MAX_WIDTH cfg) in
  let h := Z.min (Js.orZ height 630) (MAX_HEIGHT cfg) in
  w * h > MAX_PIXELS cfg ->
  enforceSize cfg width height =
  Failure ("Requested viewport " +:+ Js.showZ w +:+ "x" +:+ Js.showZ h
           +:+ " exceeds maximum pixel budget " +:+ Js.showZ (MAX_PIXELS cfg)).
Proof.
  intros w h Hgt. unfold enforceSize. fold w h.
  destruct (Z.gtb_spec (w * h) (MAX_PIXELS cfg)); [done|lia].
Qed.

Lemma enforceSize_success width height size :
  enforceSize cfg width height = Success size ->
  size_width size = Z.min (Js.orZ width 1200) (MAX_WIDTH cfg) /\
  size_height size = Z.min (Js.orZ height 630) (MAX_HEIGHT cfg) /\
  size_width size * size_height size <= MAX_PIXELS cfg.
Proof.
  unfold enforceSize.
  destruct (Z.gtb_spec (Z.min (Js.orZ width 1200) (MAX_WIDTH cfg)
                        * Z.min (Js.orZ height 630) (MAX_HEIGHT cfg))
                       (MAX_PIXELS cfg)); [done|].
  intros [= <-]. simpl. auto.
Qed.

Lemma content_script_cases opts e :
  In e (content_script cfg W opts) ->
  (Js.truthy (templateName opts) = true /\
   exists tpl markup,
     getTemplate W (Js.nullish (templateName opts) "") = Success tpl /\
     tpl (Js.nullish (templateData opts) []) = Success markup /\
     e = setContent (inject_css opts markup) (waitUntil opts)) \/
  (Js.truthy (templateName opts) = false /\ Js.truthy (html opts) = true /\
   e = setContent (inject_css opts (Js.nullish (html opts) "")) (waitUntil opts)) \/
  (Js.truthy (templateName opts) = false /\ Js.truthy (html opts) = false /\
   Js.truthy (url opts) = true /\ ALLOW_URL cfg = true /\
   isWhitelisted cfg W (Js.nullish (url opts) "") = true /\
   e = goto (Js.nullish (url opts) "") (waitUntil opts)).
Proof.
  unfold content_script.
  destruct (Js.truthy (templateName opts)).
  { destruct (getTemplate W _) as [tpl|] eqn:Ht; [|done].
    destruct (tpl _) as [markup|] eqn:Hm; [|done].
    intros [<-|[]]. left. eauto 10. }
  destruct (Js.truthy (html opts)).
  { intros [<-|[]]. right. left. auto. }
  destruct (Js.truthy (url opts)); [|done].
  destruct (ALLOW_URL cfg); [|done].
  destruct (isWhitelisted cfg W _); [|done].
  intros [<-|[]]. right. right. auto 10.
Qed.

Lemma wait_script_cases opts e :
  In e (wait_script opts) ->
  (exists n, e = waitForTimeout n) \/ (exists sel t, e = waitForSelector sel t).
Proof.
  unfold wait_script. destruct (waitFor opts) as [[n|sel]|]; [| |done];
    intros [<-|[]]; eauto.
Qed.

(** The calls of a request, by kind. *)
Lemma request_event_cases opts size clip e :
  request_event cfg W opts size clip e ->
  session_event cfg e \/
  e = setViewportSize (size_width size) (size_height size) \/
  e = emulateMedia \/
  e = setDefaultTimeout (Js.nullish (timeout opts) 15000) \/
  In e (content_script cfg W opts) \/
  In e (wait_script opts) \/
  e = evaluate_devicePixelRatio (Js.nullish (dpr opts) (DEFAULT_DPR cfg)) \/
  e = screenshot (screenshotOptions opts clip).
Proof.
  intros [Hs|Hp]; [by left|]. right. unfold page_script in Hp.
  repeat (apply in_app_or in Hp as [Hp|Hp]); simpl in Hp;
    intuition (subst; auto 10).
Qed.

Lemma request_event_viewport opts size clip e :
  request_event cfg W opts size clip e ->
  viewport_is (size_width size) (size_height size) e.
Proof.
  intros He w' h' ->. apply request_event_cases in He.
  unfold session_event in He.
  destruct He as [He|[He|[He|[He|[He|[He|[He|He]]]]]]]; try discriminate.
  - intuition discriminate.
  - injection He as Hw Hh. by subst.
  - apply content_script_cases in He.
    destruct He as [(_ & tpl & markup & _ & _ & He)|[(_ & _ & He)|He]];
      [discriminate | discriminate | by destruct He as (_ & _ & _ & _ & _ & He)].
  - apply wait_script_cases in He.
    destruct He as [[n He]|(sel & t & He)]; discriminate.
Qed.

End SizeFacts.

(** * Runs on a healthy engine *)

Section Healthy.

Variable cfg : Config.
Variable PRESETS : Presets.
Variable W : World.
Hypothesis W_healthy : healthy W.

Lemma add_events_add st evs1 evs2 :
  add_events (add_events st evs1) evs2 = add_events st (evs1 ++ evs2).
Proof. unfold add_events. simpl. by rewrite app_assoc. Qed.

Lemma add_events_nil st : add_events st [] = st.
Proof. destruct st. unfold add_events. simpl. by rewrite app_nil_r. Qed.

Lemma bind_val {A B} (m : M A) (k : A -> M B) st a st' :
  m st = (Val a, st') -> bind m k st = k a st'.
Proof. intros H. unfold bind. by rewrite H. Qed.

Lemma bind_throw {A B} (m : M A) (k : A -> M B) st e st' :
  m st = (Throw e, st') -> bind m k st = (Throw e, st').
Proof. intros H. unfold bind. by rewrite H. Qed.

Lemma call_healthy e st : call W e st = (Val tt, add_events st [e]).
Proof. unfold call. by rewrite W_healthy. Qed.

Lemma bind_call_healthy {B} e (k : unit -> M B) st :
  bind (call W e) k st = k tt (add_events st [e]).
Proof. apply bind_val, call_healthy. Qed.

Lemma call_screenshot_healthy o st :
  call_screenshot W o st = (Val (capture W (trace st)), add_events st [screenshot o]).
Proof. unfold call_screenshot. by rewrite W_healthy. Qed.

Lemma extra_wait_healthy opts st :
  extra_wait W opts st = (Val tt, add_events st (wait_script opts)).
Proof.
  unfold extra_wait, wait_script.
  destruct (waitFor opts) as [[n|sel]|]; try apply call_healthy.
  by rewrite add_events_nil.
Qed.

(** The callback when the content step throws on its own. *)
Lemma render_page_healthy_throw opts size clip page msg st :
  (forall st', load_content cfg W opts st' = (Throw (JsError msg), st')) ->
  render_page cfg W opts size clip page st =
  (Throw (JsError msg),
   add_events st [setViewportSize (size_width size) (size_height size);
                  emulateMedia;
                  setDefaultTimeout (Js.nullish (timeout opts) 15000)]).
Proof.
  intros Hload. unfold render_page.
  rewrite !bind_call_healthy, !add_events_add. simpl.
  by rewrite (bind_throw _ _ _ _ _ (Hload _)).
Qed.

(** The callback when the content step only depends on the engine. *)
Lemma render_page_healthy_ok opts size clip page st :
  (forall st', load_content cfg W opts st'
               = (Val tt, add_events st' (content_script cfg W opts))) ->
  exists buffer,
    render_page cfg W opts size clip page st =
    (Val buffer, add_events st (page_script cfg W opts size clip)).
Proof.
  intros Hload. unfold render_page, page_script. eexists.
  rewrite !bind_call_healthy, !add_events_add. simpl.
  rewrite (bind_val _ _ _ _ _ (Hload _)), add_events_add.
  rewrite (bind_val _ _ _ _ _ (extra_wait_healthy _ _)), add_events_add.
  rewrite !bind_call_healthy, !add_events_add.
  rewrite call_screenshot_healthy, add_events_add.
  repeat (simpl; rewrite <- ?app_assoc). reflexivity.
Qed.

Lemma load_content_healthy opts st :
  content_script cfg W opts <> [] ->
  load_content cfg W opts st
  = (Val tt, add_events st (content_script cfg W opts)).
Proof.
  unfold load_content, content_script.
  destruct (Js.truthy (templateName opts)).
  { destruct (getTemplate W _) as [tpl|]; [|done].
    unfold bind at 1. simpl.
    destruct (tpl _) as [markup|]; [|done]. intros _.
    unfold bind, raise, ret. apply call_healthy. }
  destruct (Js.truthy (html opts)); [intros _; apply call_healthy|].
  destruct (Js.truthy (url opts)); [|done].
  destruct (negb (ALLOW_URL cfg)); [done|].
  destruct (negb (isWhitelisted cfg W _)); [done|].
  intros _. apply call_healthy.
Qed.

(** A page session: three calls, the callback, two calls. *)
Lemma page_session_healthy {A} (fn : Page -> M A) st :
  exists page,
    page_session cfg W fn st =
    (fst (fn page (page_opened cfg st)),
     add_events (snd (fn page (page_opened cfg st))) [page_close; context_close]).
Proof.
  unfold page_session, page_opened.
  exists (List.length
            (trace st ++ [newContext (DEFAULT_DPR cfg) 1200 630; route_install])).
  rewrite !bind_call_healthy, !add_events_add. simpl.
  unfold bind at 1. simpl. rewrite bind_call_healthy, add_events_add. simpl.
  unfold try_finally.
  destruct (fn _ _) as [r st1]. simpl.
  by rewrite bind_call_healthy, call_healthy, add_events_add.
Qed.

Lemma launch_browser_healthy st :
  launch_browser W st =
  (Val tt, {| browser := Some (List.length (trace st));
              trace := trace st ++ [launch] |}).
Proof.
  unfold launch_browser. unfold bind at 1. simpl.
  by rewrite bind_call_healthy.
Qed.

Lemma server_getBrowser_healthy st :
  exists b, ServerJs.getBrowser W st = (Val b, server_opened st).
Proof.
  unfold ServerJs.getBrowser, server_opened, bind at 1, get_browser at 1. simpl.
  destruct (browser st) as [id|] eqn:Hb; [by eexists|].
  rewrite (bind_val _ _ _ _ _ (launch_browser_healthy _)). by eexists.
Qed.

Lemma swagger_getBrowser_healthy st :
  exists b, SwaggerJs.getBrowser W st = (Val b, swagger_opened st).
Proof.
  unfold SwaggerJs.getBrowser, swagger_opened, bind at 1, get_browser at 1. simpl.
  destruct (browser st) as [id|] eqn:Hb.
  - unfold bind at 1, try_catch. rewrite call_healthy.
    unfold bind at 1, get_browser at 1. simpl. rewrite Hb. by eexists.
  - unfold bind at 1. simpl. unfold bind at 1, get_browser at 1. simpl. rewrite Hb.
    rewrite (bind_val _ _ _ _ _ (launch_browser_healthy _)). by eexists.
Qed.

Lemma server_withPage_healthy {A} (fn : Page -> M A) st :
  exists page,
    let st1 := page_opened cfg (server_opened st) in
    ServerJs.withPage cfg W fn st =
    (fst (fn page st1), add_events (snd (fn page st1)) [page_close; context_close]).
Proof.
  unfold ServerJs.withPage.
  destruct (server_getBrowser_healthy st) as [b Hb].
  rewrite (bind_val _ _ _ _ _ Hb). apply page_session_healthy.
Qed.

Lemma swagger_attempt_healthy {A} (fn : Page -> M A) st :
  exists page,
    let st1 := page_opened cfg (swagger_opened st) in
    SwaggerJs.attempt cfg W fn st =
    (fst (fn page st1), add_events (snd (fn page st1)) [page_close; context_close]).
Proof.
  unfold SwaggerJs.attempt.
  destruct (swagger_getBrowser_healthy st) as [b Hb].
  rewrite (bind_val _ _ _ _ _ Hb). apply page_session_healthy.
Qed.

(** With a healthy engine the retry loop stops after the first attempt
    unless the callback itself reports a closed browser. *)
Lemma swagger_withPage_healthy {A} (fn : Page -> M A) st :
  exists page,
    let st1 := page_opened cfg (swagger_opened st) in
    match fst (fn page st1) with
    | Throw JsUndefined => True
    | Throw (JsError msg) =>
        SwaggerJs.browser_closed msg = false ->
        SwaggerJs.withPage cfg W fn st =
        (Throw (JsError msg),
         add_events (snd (fn page st1)) [page_close; context_close])
    | Val a =>
        SwaggerJs.withPage cfg W fn st =
        (Val a, add_events (snd (fn page st1)) [page_close; context_close])
    end.
Proof.
  destruct (swagger_attempt_healthy fn st) as [page Hatt]. exists page.
  simpl in *. unfold SwaggerJs.withPage. simpl. unfold try_catch.
  rewrite Hatt. destruct (fst (fn page _)) as [a|[|msg]]; [done|done|].
  by intros ->.
Qed.

End Healthy.

(** * The handler on a healthy engine *)

Section HealthyHandler.

Variable cfg : Config.
Variable PRESETS : Presets.
Variable W : World.
Hypothesis W_healthy : healthy W.

Variables (body : RenderBody) (opts : RenderOpts) (size : Size)
          (clip : option ClipValue).
Hypothesis Hschema : RenderSchema W body = Some opts.
Hypothesis Hresolves : resolves cfg PRESETS opts size clip.

Lemma render_with_resolved withPage st :
  render_with cfg PRESETS W withPage body st =
  match withPage (render_page cfg W opts size clip) st with
  | (Val buffer, st1) => (Val (Image (format opts) buffer), st1)
  | (Throw e, st1) => (msg' <- error_text e ;; ret (Json400 msg')) st1
  end.
Proof.
  destruct Hresolves as (dims & Hr & He & Hc).
  by rewrite render_with_unfold, Hschema, Hr, He, Hc.
Qed.

(** The content step throws [msg] on its own: the session is opened, the
    page is prepared, both are closed and the answer is [msg]. *)
Lemma render_healthy_content_error msg st :
  (forall st', load_content cfg W opts st' = (Throw (JsError msg), st')) ->
  msg <> "" ->
  SwaggerJs.browser_closed msg = false ->
  let prepared := [setViewportSize (size_width size) (size_height size);
                   emulateMedia;
                   setDefaultTimeout (Js.nullish (timeout opts) 15000);
                   page_close; context_close] in
  ServerJs.render cfg PRESETS W body st =
    (Val (Json400 msg), add_events (page_opened cfg (server_opened st)) prepared) /\
  SwaggerJs.render cfg PRESETS W body st =
    (Val (Json400 msg), add_events (page_opened cfg (swagger_opened st)) prepared).
Proof.
  intros Hload Hmsg Hclosed prepared.
  assert (String.eqb msg "" = false) as Hne by by apply String.eqb_neq.
  unfold ServerJs.render, SwaggerJs.render. rewrite !render_with_resolved. split.
  - destruct (server_withPage_healthy cfg W W_healthy
                (render_page cfg W opts size clip) st) as [page ->].
    rewrite (render_page_healthy_throw cfg W W_healthy _ _ _ _ msg _ Hload).
    simpl. rewrite add_events_add. unfold bind. simpl. by rewrite Hne.
  - destruct (swagger_withPage_healthy cfg W W_healthy
                (render_page cfg W opts size clip) st) as [page Hrun].
    simpl in Hrun.
    rewrite (render_page_healthy_throw cfg W W_healthy _ _ _ _ msg _ Hload) in Hrun.
    simpl in Hrun. rewrite (Hrun Hclosed).
    rewrite add_events_add. unfold bind. simpl. by rewrite Hne.
Qed.

(** The content step only depends on the engine: the whole script runs
    and the answer is the image. *)
Lemma render_healthy_image st :
  (forall st', load_content cfg W opts st'
               = (Val tt, add_events st' (content_script cfg W opts))) ->
  let script := page_script cfg W opts size clip ++ [page_close; context_close] in
  (exists buffer,
    ServerJs.render cfg PRESETS W body st =
    (Val (Image (format opts) buffer),
     add_events (page_opened cfg (server_opened st)) script)) /\
  (exists buffer,
    SwaggerJs.render cfg PRESETS W body st =
    (Val (Image (format opts) buffer),
     add_events (page_opened cfg (swagger_opened st)) script)).
Proof.
  intros Hload script.
  unfold ServerJs.render, SwaggerJs.render. rewrite !render_with_resolved. split.
  - destruct (server_withPage_healthy cfg W W_healthy
                (render_page cfg W opts size clip) st) as [page ->].
    destruct (render_page_healthy_ok cfg W W_healthy opts size clip page
                (page_opened cfg (server_opened st)) Hload) as [buffer ->].
    exists buffer. simpl. by rewrite add_events_add.
  - destruct (swagger_withPage_healthy cfg W W_healthy
                (render_page cfg W opts size clip) st) as [page Hrun].
    simpl in Hrun.
    destruct (render_page_healthy_ok cfg W W_healthy opts size clip page
                (page_opened cfg (swagger_opened st)) Hload) as [buffer Hbuf].
    rewrite Hbuf in Hrun. simpl in Hrun. rewrite Hrun.
    exists buffer. by rewrite add_events_add.
Qed.

End HealthyHandler.

(** * Runs on which the calls of the request resolve *)

Section Resolving.

Variable cfg : Config.
Variable PRESETS : Presets.
Variable W : World.

Lemma call_resolves e st :
  outcome W (trace st) e = None -> call W e st = (Val tt, add_events st [e]).
Proof. intros H. unfold call. by rewrite H. Qed.

Lemma bind_call_resolves {B} e (k : unit -> M B) st :
  outcome W (trace st) e = None ->
  bind (call W e) k st = k tt (add_events st [e]).
Proof. intros H. apply bind_val, call_resolves, H. Qed.

Lemma all_resolve_healthy history evs : healthy W -> all_resolve W history evs.
Proof.
  intros Hh. revert history. induction evs as [|e evs IH]; intros history; simpl;
    [done | by split].
Qed.

(** The session of a request whose content step throws [msg] on its own. *)
Lemma page_session_refused opts size clip msg st :
  (forall st', load_content cfg W opts st' = (Throw (JsError msg), st')) ->
  all_resolve W (trace st) (refused_script cfg opts size) ->
  page_session cfg W (render_page cfg W opts size clip) st
  = (Throw (JsError msg), add_events st (refused_script cfg opts size)).
Proof.
  intros Hload (H1 & H2 & H3 & H4 & H5 & H6 & H7 & H8 & _).
  unfold page_session.
  rewrite (bind_call_resolves _ _ _ H1).
  rewrite (bind_call_resolves _ _ (add_events st _) H2).
  unfold bind at 1. simpl.
  rewrite (bind_call_resolves _ _ (add_events (add_events st _) _) H3).
  unfold try_finally, render_page.
  rewrite (bind_call_resolves _ _
             (add_events (add_events (add_events st _) _) _) H4).
  rewrite (bind_call_resolves _ _
             (add_events (add_events (add_events (add_events st _) _) _) _) H5).
  rewrite (bind_call_resolves _ _
             (add_events (add_events (add_events (add_events
                (add_events st _) _) _) _) _) H6).
  rewrite (bind_throw _ _ _ _ _ (Hload _)).
  rewrite (bind_call_resolves _ _
             (add_events (add_events (add_events (add_events (add_events
                (add_events st _) _) _) _) _) _) H7).
  rewrite (call_resolves _
             (add_events (add_events (add_events (add_events (add_events
                (add_events (add_events st _) _) _) _) _) _) _) H8).
  by rewrite !add_events_add.
Qed.

Variables (body : RenderBody) (opts : RenderOpts) (size : Size)
          (clip : option ClipValue).
Hypothesis Hschema : RenderSchema W body = Some opts.
Hypothesis Hresolves : resolves cfg PRESETS opts size clip.

(** The content step throws [msg] on its own, the handle is obtained and
    the calls of the session resolve: the answer is [msg]. *)
Lemma render_refused msg st :
  (forall st', load_content cfg W opts st' = (Throw (JsError msg), st')) ->
  msg <> "" ->
  SwaggerJs.browser_closed msg = false ->
  (forall b s0,
      ServerJs.getBrowser W st = (Val b, s0) ->
      all_resolve W (trace s0) (refused_script cfg opts size) ->
      ServerJs.render cfg PRESETS W body st
      = (Val (Json400 msg), add_events s0 (refused_script cfg opts size))) /\
  (forall b s0,
      SwaggerJs.getBrowser W st = (Val b, s0) ->
      all_resolve W (trace s0) (refused_script cfg opts size) ->
      SwaggerJs.render cfg PRESETS W body st
      = (Val (Json400 msg), add_events s0 (refused_script cfg opts size))).
Proof.
  intros Hload Hmsg Hclosed.
  assert (String.eqb msg "" = false) as Hne by by apply String.eqb_neq.
  split; intros b s0 Hget Hall.
  - unfold ServerJs.render.
    rewrite (render_with_resolved cfg PRESETS W body opts size clip Hschema
               Hresolves).
    unfold ServerJs.withPage. rewrite (bind_val _ _ _ _ _ Hget).
    rewrite (page_session_refused opts size clip msg s0 Hload Hall).
    unfold bind. simpl. by rewrite Hne.
  - unfold SwaggerJs.render.
    rewrite (render_with_resolved cfg PRESETS W body opts size clip Hschema
               Hresolves).
    unfold SwaggerJs.withPage. simpl. unfold try_catch, SwaggerJs.attempt.
    rewrite (bind_val _ _ _ _ _ Hget).
    rewrite (page_session_refused opts size clip msg s0 Hload Hall).
    rewrite Hclosed. unfold throw, bind. simpl. by rewrite Hne.
Qed.

End Resolving.

(** * The claims *)

Section ViewportEvents.

Variable cfg : Config.
Variable PRESETS : Presets.
Variable W : World.

(** Every viewport call of a request uses the size [enforceSize] returned. *)
Lemma render_with_viewport withPage body opts dims size st :
  wrapper_ok cfg withPage ->
  RenderSchema W body = Some opts ->
  requested_size PRESETS opts = Success dims ->
  enforceSize cfg (fst dims) (snd dims) = Success size ->
  exists evs,
    appended (render_with cfg PRESETS W withPage body) st evs /\
    Forall (viewport_is (size_width size) (size_height size)) evs.
Proof.
  intros Hok Hs Hr He.
  destruct (render_with_appends cfg PRESETS W withPage Hok body st)
    as [Hsame|(opts' & dims' & size' & clip & evs & Hs' & Hr' & He' & _ & Happ & Hall)].
  - exists []. unfold appended. rewrite Hsame, app_nil_r. auto.
  - rewrite Hs in Hs'. injection Hs' as <-.
    rewrite Hr in Hr'. injection Hr' as <-.
    rewrite He in He'. injection He' as <-.
    exists evs. split; [done|].
    eapply Forall_impl; [exact Hall|]. intros e. apply request_event_viewport.
Qed.

End ViewportEvents.

(** C1. For every [/render] request that passes the schema and the preset
    lookup, the viewport is [w = min(width || 1200, MAX_WIDTH)] by
    [h = min(height || 630, MAX_HEIGHT)], each axis clamped on its own.
    When [w * h > MAX_PIXELS] the request is answered with the budget
    error and the state is left as it was: no engine call is made, the
    shared browser handle is not touched.  Otherwise [w * h <= MAX_PIXELS],
    [enforceSize] returns [w] by [h], and every [page.setViewportSize] call
    the request causes, in either version of [withPage] and on any engine,
    sets exactly [w] by [h]. *)
Theorem render_viewport_within_budget cfg PRESETS W body opts dims st :
  RenderSchema W body = Some opts ->
  requested_size PRESETS opts = Success dims ->
  let w := Z.min (Js.orZ (fst dims) 1200) (MAX_WIDTH cfg) in
  let h := Z.min (Js.orZ (snd dims) 630) (MAX_HEIGHT cfg) in
  if w * h >? MAX_PIXELS cfg then
    let msg := "Requested viewport " +:+ Js.showZ w +:+ "x" +:+ Js.showZ h
               +:+ " exceeds maximum pixel budget " +:+ Js.showZ (MAX_PIXELS cfg) in
    ServerJs.render cfg PRESETS W body st = (Val (Json400 msg), st) /\
    SwaggerJs.render cfg PRESETS W body st = (Val (Json400 msg), st)
  else
    w * h <= MAX_PIXELS cfg /\
    enforceSize cfg (fst dims) (snd dims) = Success (mkSize w h) /\
    exists evs1 evs2,
      appended (ServerJs.render cfg PRESETS W body) st evs1 /\
      appended (SwaggerJs.render cfg PRESETS W body) st evs2 /\
      Forall (viewport_is w h) (evs1 ++ evs2).
Proof.
  intros Hs Hr w h.
  destruct (Z.gtb_spec (w * h) (MAX_PIXELS cfg)) as [Hgt|Hle].
  - pose proof (enforceSize_over_budget cfg (fst dims) (snd dims)) as He.
    simpl in He. specialize (He ltac:(fold w h; lia)). fold w h in He.
    split.
    + unfold ServerJs.render.
      by rewrite (render_with_budget_failure _ _ _ _ _ _ _ _ _ Hs Hr He).
    + unfold SwaggerJs.render.
      by rewrite (render_with_budget_failure _ _ _ _ _ _ _ _ _ Hs Hr He).
  - pose proof (enforceSize_within_budget cfg (fst dims) (snd dims)) as He.
    simpl in He. specialize (He ltac:(fold w h; lia)). fold w h in He.
    split; [lia|]. split; [done|].
    destruct (render_with_viewport cfg PRESETS W _ body opts dims _ st
                (server_wrapper_ok cfg W) Hs Hr He) as (evs1 & Ha1 & Hf1).
    destruct (render_with_viewport cfg PRESETS W _ body opts dims _ st
                (swagger_wrapper_ok cfg W) Hs Hr He) as (evs2 & Ha2 & Hf2).
    exists evs1, evs2. repeat split; [done|done|]. by apply Forall_app.
Qed.

(** A 5000 x 5000 request under the default limits is clamped to
    4000 x 4000, over the budget of 14000000 pixels, and refused before the
    engine is even launched. *)
Example oversized_request_is_refused_early :
  ServerJs.render default_config documented_presets healthy_world
    (sized_body "<p>hi</p>" 5000 5000) initial_state
  = (Val (Json400
            "Requested viewport 4000x4000 exceeds maximum pixel budget 14000000"),
     initial_state) /\
  SwaggerJs.render default_config documented_presets healthy_world
    (sized_body "<p>hi</p>" 5000 5000) initial_state
  = (Val (Json400
            "Requested viewport 4000x4000 exceeds maximum pixel budget 14000000"),
     initial_state).
Proof. vm_compute. auto. Qed.

(** A 5000 x 3000 request under the default limits renders at 4000 x 3000. *)
Lemma render_viewport_within_budget_witness :
  4000 * 3000 <= 14000000 /\
  enforceSize default_config (Some 5000) (Some 3000) = Success (mkSize 4000 3000) /\
  exists evs1 evs2,
    appended (ServerJs.render default_config documented_presets healthy_world
                (sized_body "<p>hi</p>" 5000 3000)) initial_state evs1 /\
    appended (SwaggerJs.render default_config documented_presets healthy_world
                (sized_body "<p>hi</p>" 5000 3000)) initial_state evs2 /\
    Forall (viewport_is 4000 3000) (evs1 ++ evs2).
Proof.
  exact (render_viewport_within_budget default_config documented_presets
           healthy_world (sized_body "<p>hi</p>" 5000 3000) _ _ initial_state
           eq_refl eq_refl).
Defined.

Section RequestEvents.

Variable cfg : Config.
Variable PRESETS : Presets.
Variable W : World.

(** The calls of a request that passed the schema, whatever the engine does. *)
Lemma render_with_request_events withPage body opts st :
  wrapper_ok cfg withPage ->
  RenderSchema W body = Some opts ->
  exists evs,
    appended (render_with cfg PRESETS W withPage body) st evs /\
    (evs = [] \/
     exists size clip,
       resolves cfg PRESETS opts size clip /\
       Forall (request_event cfg W opts size clip) evs).
Proof.
  intros Hok Hs.
  destruct (render_with_appends cfg PRESETS W withPage Hok body st)
    as [Hsame|(opts' & dims & size & clip & evs & Hs' & Hr & He & Hc & Happ & Hall)].
  - exists []. unfold appended. rewrite Hsame, app_nil_r. auto.
  - rewrite Hs in Hs'. injection Hs' as <-.
    exists evs. split; [done|]. right. exists size, clip. split; [|done].
    by exists dims.
Qed.

(** A navigation happens only in URL mode, with URL rendering enabled and
    the URL on the allowlist. *)
Lemma request_event_goto opts size clip e :
  request_event cfg W opts size clip e ->
  is_goto e ->
  Js.truthy (templateName opts) = false /\ Js.truthy (html opts) = false /\
  Js.truthy (url opts) = true /\ ALLOW_URL cfg = true /\
  isWhitelisted cfg W (Js.nullish (url opts) "") = true /\
  e = goto (Js.nullish (url opts) "") (waitUntil opts).
Proof.
  intros He (u & wu & ->). apply request_event_cases in He.
  unfold session_event in He.
  destruct He as [He|[He|[He|[He|[He|[He|[He|He]]]]]]]; try discriminate.
  - intuition discriminate.
  - apply content_script_cases in He.
    destruct He as [(_ & tpl & markup & _ & _ & He)|[(_ & _ & He)|He]];
      [discriminate | discriminate | tauto].
  - apply wait_script_cases in He.
    destruct He as [[n He]|(sel & t & He)]; discriminate.
Qed.

Lemma render_with_never_navigates withPage body opts st :
  wrapper_ok cfg withPage ->
  RenderSchema W body = Some opts ->
  (ALLOW_URL cfg = false \/
   isWhitelisted cfg W (Js.nullish (url opts) "") = false \/
   Js.truthy (templateName opts) = true \/ Js.truthy (html opts) = true) ->
  exists evs,
    appended (render_with cfg PRESETS W withPage body) st evs /\
    Forall (fun e => ~ is_goto e) evs.
Proof.
  intros Hok Hs Hno.
  destruct (render_with_request_events withPage body opts st Hok Hs)
    as (evs & Happ & [->|(size & clip & _ & Hall)]).
  - exists []. auto.
  - exists evs. split; [done|]. eapply Forall_impl; [exact Hall|].
    intros e He Hgoto.
    destruct (request_event_goto opts size clip e He Hgoto)
      as (Ht & Hh & _ & Ha & Hw & _).
    destruct Hno as [Hno|[Hno|[Hno|Hno]]]; congruence.
Qed.

Lemma isWhitelisted_spec u :
  isWhitelisted cfg W u = true <->
  exists h pattern,
    hostnameOf W u = Some h /\ h <> "" /\ In pattern (ALLOWLIST cfg) /\
    allowlist_entry_matches h pattern = true.
Proof.
  unfold isWhitelisted. destruct (hostnameOf W u) as [h|].
  2:{ split; [done|]. by intros (h & p & ? & _). }
  destruct (String.eqb_spec h "") as [->|Hne].
  { split; [done|]. intros (h & p & [= <-] & Hne & _). done. }
  destruct (ALLOWLIST cfg) as [|p0 ps] eqn:Hal.
  { split; [done|]. by intros (h' & p & _ & _ & [] & _). }
  change (Nat.eqb (List.length (p0 :: ps)) 0) with false. cbv iota.
  rewrite existsb_exists. split.
  - intros (p & Hin & Hm). eauto 10.
  - intros (h' & p & [= <-] & _ & Hin & Hm). eauto.
Qed.

Lemma wildcard_entry_spec h dom :
  allowlist_entry_matches h ("*." +:+ dom) = true <->
  h = dom \/ exists sub, h = sub +:+ "." +:+ dom.
Proof.
  unfold allowlist_entry_matches.
  rewrite JsFacts.startsWith_wildcard, JsFacts.slice_wildcard.
  rewrite orb_true_iff, String.eqb_eq, JsFacts.endsWith_spec. done.
Qed.

Lemma exact_entry_spec h pattern :
  Js.startsWith pattern "*." = false ->
  allowlist_entry_matches h pattern = true <-> h = pattern.
Proof.
  intros Hp. unfold allowlist_entry_matches. rewrite Hp. apply String.eqb_eq.
Qed.

Lemma load_content_not_allowlisted opts u st :
  url_mode opts u -> ALLOW_URL cfg = true -> isWhitelisted cfg W u = false ->
  load_content cfg W opts st = (Throw (JsError "URL not in allowlist"), st).
Proof.
  intros (Ht & Hh & Hu & Hne) Ha Hw. unfold load_content.
  rewrite Ht, Hh, Hu, Ha. simpl.
  destruct (String.eqb_spec u ""); [done|]. simpl. by rewrite Hw.
Qed.

Lemma load_content_url_disabled opts u st :
  url_mode opts u -> ALLOW_URL cfg = false ->
  load_content cfg W opts st =
  (Throw (JsError "URL rendering disabled by server configuration"), st).
Proof.
  intros (Ht & Hh & Hu & Hne) Ha. unfold load_content.
  rewrite Ht, Hh, Hu, Ha. simpl.
  by destruct (String.eqb_spec u "").
Qed.

Lemma fails_of_throw {A} (m : M A) msg :
  (forall st, m st = (Throw (JsError msg), st)) -> fails m.
Proof. intros H st. exists msg. by rewrite H. Qed.

End RequestEvents.

(** C8 does not hold of the code.  The handler looks the name up with
    [PRESETS.sizes?.[opts.sizePreset]] and tests the result with [!sp]: the
    lookup also finds the members every object inherits from
    [Object.prototype], and those are truthy.  For a request with a truthy
    [sizePreset]:
    - a name that is an own key of the table makes the preset's width and
      height the requested dimensions whatever [width] and [height] the
      request carries, and when the preset fits the configured limits
      [enforceSize] returns exactly the preset's size and every viewport
      call of the request sets it;
    - a name that is neither an own key nor a member of [Object.prototype]
      is answered with [Unknown sizePreset: name] and nothing is asked of
      the engine;
    - a name such as [constructor] or [toString] that no own key shadows is
      not refused: the request goes on with [width] and [height] undefined,
      whatever the request supplied, so that [enforceSize] falls back to
      1200 x 630 (clamped to the limits), every viewport call sets that
      size, and on a healthy engine the image is returned. *)
Theorem sizePreset_lookup_reaches_the_prototype cfg PRESETS W body opts name st :
  RenderSchema W body = Some opts ->
  sizePreset opts = Some name ->
  name <> "" ->
  (Js.member (sizes PRESETS) name = Js.Inherited name <->
   exists table, sizes PRESETS = Some table /\ table !! name = None /\
                 In name Js.Object_prototype) /\
  match Js.member (sizes PRESETS) name with
  | Js.Undefined =>
      let msg := "Unknown sizePreset: " +:+ name in
      ServerJs.render cfg PRESETS W body st = (Val (Json400 msg), st) /\
      SwaggerJs.render cfg PRESETS W body st = (Val (Json400 msg), st)
  | Js.Own sp =>
      requested_size PRESETS opts
      = Success (Some (size_width sp), Some (size_height sp)) /\
      (size_width sp <> 0 -> size_height sp <> 0 ->
       size_width sp <= MAX_WIDTH cfg -> size_height sp <= MAX_HEIGHT cfg ->
       size_width sp * size_height sp <= MAX_PIXELS cfg ->
       enforceSize cfg (Some (size_width sp)) (Some (size_height sp)) = Success sp /\
       exists evs1 evs2,
         appended (ServerJs.render cfg PRESETS W body) st evs1 /\
         appended (SwaggerJs.render cfg PRESETS W body) st evs2 /\
         Forall (viewport_is (size_width sp) (size_height sp)) (evs1 ++ evs2))
  | Js.Inherited _ =>
      requested_size PRESETS opts = Success (None, None) /\
      let w := Z.min 1200 (MAX_WIDTH cfg) in
      let h := Z.min 630 (MAX_HEIGHT cfg) in
      (w * h <= MAX_PIXELS cfg ->
       enforceSize cfg None None = Success (mkSize w h) /\
       (exists evs1 evs2,
           appended (ServerJs.render cfg PRESETS W body) st evs1 /\
           appended (SwaggerJs.render cfg PRESETS W body) st evs2 /\
           Forall (viewport_is w h) (evs1 ++ evs2)) /\
       (healthy W ->
        forall clip,
          resolved_clip PRESETS opts = Success clip ->
          content_script cfg W opts <> [] ->
          let script := page_script cfg W opts (mkSize w h) clip
                        ++ [page_close; context_close] in
          (exists buffer,
              ServerJs.render cfg PRESETS W body st =
              (Val (Image (format opts) buffer),
               add_events (page_opened cfg (server_opened st)) script)) /\
          (exists buffer,
              SwaggerJs.render cfg PRESETS W body st =
              (Val (Image (format opts) buffer),
               add_events (page_opened cfg (swagger_opened st)) script))))
  end.
Proof.
  intros Hs Hname Hne.
  assert (Js.truthy (sizePreset opts) = true) as Htruthy.
  { rewrite Hname. simpl. by destruct (String.eqb_spec name ""). }
  split.
  { unfold Js.member. destruct (sizes PRESETS) as [table|].
    - destruct (table !! name) as [sp|] eqn:Hlook.
      + split; [done|]. intros (t & [= <-] & Hnone & _). congruence.
      + destruct (existsb (String.eqb name) Js.Object_prototype) eqn:Hin.
        * split; [|done]. intros _. exists table. repeat split; [done|].
          apply existsb_exists in Hin. destruct Hin as (k & Hk & Heq).
          apply String.eqb_eq in Heq. by subst k.
        * split; [done|]. intros (t & _ & _ & Hin').
          assert (existsb (String.eqb name) Js.Object_prototype = true) as Hyes.
          { apply existsb_exists. exists name. split; [done|].
            apply String.eqb_refl. }
          congruence.
    - split; [done|]. by intros (t & ? & _). }
  destruct (Js.member (sizes PRESETS) name) as [sp|key|] eqn:Hlook.
  - assert (requested_size PRESETS opts
            = Success (Some (size_width sp), Some (size_height sp))) as Hr.
    { unfold requested_size. rewrite Htruthy, Hname. simpl. by rewrite Hlook. }
    split; [done|]. intros Hw0 Hh0 Hw Hh Hpx.
    assert (enforceSize cfg (Some (size_width sp)) (Some (size_height sp))
            = Success sp) as He.
    { assert (Js.orZ (Some (size_width sp)) 1200 = size_width sp) as Hcw
        by (unfold Js.orZ; by destruct (Z.eqb_spec (size_width sp) 0)).
      assert (Js.orZ (Some (size_height sp)) 630 = size_height sp) as Hch
        by (unfold Js.orZ; by destruct (Z.eqb_spec (size_height sp) 0)).
      rewrite enforceSize_within_budget; rewrite Hcw, Hch, !Z.min_l by done.
      - by destruct sp.
      - done. }
    split; [done|].
    destruct (render_with_viewport cfg PRESETS W _ body opts _ _ st
                (server_wrapper_ok cfg W) Hs Hr He) as (evs1 & Ha1 & Hf1).
    destruct (render_with_viewport cfg PRESETS W _ body opts _ _ st
                (swagger_wrapper_ok cfg W) Hs Hr He) as (evs2 & Ha2 & Hf2).
    exists evs1, evs2. repeat split; [done|done|]. by apply Forall_app.
  - assert (requested_size PRESETS opts = Success (None, None)) as Hr.
    { unfold requested_size. rewrite Htruthy, Hname. simpl. by rewrite Hlook. }
    split; [done|]. intros w h Hpx.
    assert (enforceSize cfg None None = Success (mkSize w h)) as He
      by (by apply enforceSize_within_budget).
    split; [done|]. split.
    + destruct (render_with_viewport cfg PRESETS W _ body opts _ _ st
                  (server_wrapper_ok cfg W) Hs Hr He) as (evs1 & Ha1 & Hf1).
      destruct (render_with_viewport cfg PRESETS W _ body opts _ _ st
                  (swagger_wrapper_ok cfg W) Hs Hr He) as (evs2 & Ha2 & Hf2).
      exists evs1, evs2. repeat split; [done|done|]. by apply Forall_app.
    + intros Hhealthy clip Hclip Hcontent.
      apply (render_healthy_image cfg PRESETS W Hhealthy body opts (mkSize w h)
               clip Hs).
      * exists (None, None). by repeat split.
      * intros st'. by apply load_content_healthy.
  - assert (requested_size PRESETS opts
            = Failure ("Unknown sizePreset: " +:+ name)) as Hr.
    { unfold requested_size. rewrite Htruthy, Hname. simpl. by rewrite Hlook. }
    split.
    + unfold ServerJs.render.
      by rewrite (render_with_size_preset_failure _ _ _ _ _ _ _ _ Hs Hr).
    + unfold SwaggerJs.render.
      by rewrite (render_with_size_preset_failure _ _ _ _ _ _ _ _ Hs Hr).
Qed.

(** [sizePreset: "constructor"] with [width: 5000, height: 3000], on the
    documented table and the default limits: no error, and the image is
    rendered at 1200 x 630. *)
Lemma sizePreset_lookup_reaches_the_prototype_witness :
  exists buffer,
    ServerJs.render default_config documented_presets healthy_world
      (preset_body "<p>hi</p>" "constructor" 5000 3000) initial_state
    = (Val (Image png buffer),
       {| browser := Some 0%nat;
          trace := [launch; newContext 1 1200 630; route_install; newPage;
                    setViewportSize 1200 630; emulateMedia;
                    setDefaultTimeout 15000;
                    setContent "<p>hi</p>" networkidle;
                    setViewportSize 1200 630; evaluate_devicePixelRatio 1;
                    screenshot (mkShot png None false false None);
                    page_close; context_close] |}).
Proof.
  pose proof (sizePreset_lookup_reaches_the_prototype default_config
                documented_presets healthy_world
                (preset_body "<p>hi</p>" "constructor" 5000 3000)
                _ "constructor" initial_state eq_refl eq_refl
                ltac:(discriminate)) as [_ H].
  change (Js.member (sizes documented_presets) "constructor")
    with (@Js.Inherited Size "constructor") in H.
  destruct H as (_ & H).
  destruct (H ltac:(simpl; lia)) as (_ & _ & Hrun).
  destruct (Hrun ltac:(intros ? ?; reflexivity) None eq_refl
              ltac:(discriminate)) as [[buffer Hb] _].
  exists buffer. exact Hb.
Defined.

(** A documented name: [twitter_card] with [width: 5000, height: 3000] also
    supplied renders at 1200 x 630; an unknown name is refused. *)
Example twitter_card_overrides_supplied_dimensions :
  ServerJs.render default_config documented_presets healthy_world
    (preset_body "<p>hi</p>" "twitter_card" 5000 3000) initial_state
  = (Val (Image png [137; 80; 78; 71]),
     {| browser := Some 0%nat;
        trace := [launch; newContext 1 1200 630; route_install; newPage;
                  setViewportSize 1200 630; emulateMedia;
                  setDefaultTimeout 15000;
                  setContent "<p>hi</p>" networkidle;
                  setViewportSize 1200 630; evaluate_devicePixelRatio 1;
                  screenshot (mkShot png None false false None);
                  page_close; context_close] |}) /\
  ServerJs.render default_config documented_presets healthy_world
    (preset_body "<p>hi</p>" "square_1080" 5000 3000) initial_state
  = (Val (Image png [137; 80; 78; 71]),
     {| browser := Some 0%nat;
        trace := [launch; newContext 1 1200 630; route_install; newPage;
                  setViewportSize 1080 1080; emulateMedia;
                  setDefaultTimeout 15000;
                  setContent "<p>hi</p>" networkidle;
                  setViewportSize 1080 1080; evaluate_devicePixelRatio 1;
                  screenshot (mkShot png None false false None);
                  page_close; context_close] |}) /\
  ServerJs.render default_config documented_presets healthy_world
    (preset_body "<p>hi</p>" "nope" 5000 3000) initial_state
  = (Val (Json400 "Unknown sizePreset: nope"), initial_state).
Proof. vm_compute. auto. Qed.

(** C6, as the code has it.  The route handler lets a request through
    exactly when external requests are not blocked ([BLOCK_EXTERNAL] is
    false), or the URL starts with [data:] or [blob:], or URL rendering is
    enabled and the URL is allowlisted; it aborts every other request. *)
Theorem routeHandler_policy cfg W requestUrl :
  (routeHandler cfg W requestUrl = route_continue <->
   BLOCK_EXTERNAL cfg = false \/
   Js.startsWith requestUrl "data:" = true \/
   Js.startsWith requestUrl "blob:" = true \/
   (ALLOW_URL cfg = true /\ isWhitelisted cfg W requestUrl = true)) /\
  (routeHandler cfg W requestUrl = route_abort <->
   BLOCK_EXTERNAL cfg = true /\
   Js.startsWith requestUrl "data:" = false /\
   Js.startsWith requestUrl "blob:" = false /\
   (ALLOW_URL cfg = false \/ isWhitelisted cfg W requestUrl = false)).
Proof.
  unfold routeHandler.
  destruct (BLOCK_EXTERNAL cfg), (Js.startsWith requestUrl "data:"),
    (Js.startsWith requestUrl "blob:"), (ALLOW_URL cfg),
    (isWhitelisted cfg W requestUrl); simpl; intuition congruence.
Qed.

(** C6 as stated fails twice.  With [BLOCK_EXTERNAL=false] an ordinary URL
    is let through although URL rendering is off and nothing is
    allowlisted; with [BLOCK_EXTERNAL=true] an allowlisted URL is let
    through although external requests are blocked. *)
Lemma routeHandler_continue_without_all_three :
  (routeHandler open_network_config healthy_world "https://example.org/x.png"
   = route_continue /\
   ALLOW_URL open_network_config = false /\
   isWhitelisted open_network_config healthy_world "https://example.org/x.png"
   = false) /\
  (routeHandler wildcard_config healthy_world "https://sub.example.com/"
   = route_continue /\
   BLOCK_EXTERNAL wildcard_config = true).
Proof. vm_compute. auto. Qed.

(** C4, as the code has it.  An entry [*.domain] matches the bare hostname
    [domain] as well as every hostname ending in [.domain]; any other entry
    matches the identical hostname only; a URL is allowlisted when its
    hostname is non-empty and matches some entry.  A URL-mode request (no
    truthy [templateName] or [html]) with URL rendering enabled whose URL is
    not allowlisted never navigates and is always answered with a JSON
    error: the content step throws [URL not in allowlist] before it asks
    anything of the page.  That is the answer when the size and the clip of
    the request resolve, [getBrowser] returns the handle and every engine
    call of the request resolves: [newContext], [route], [newPage] and the
    three calls that prepare the page before the check, [page.close()] and
    [context.close()] after it. *)
Theorem allowlist_decides_url_requests cfg PRESETS W body opts u st :
  RenderSchema W body = Some opts ->
  url_mode opts u ->
  ALLOW_URL cfg = true ->
  (forall h dom,
      allowlist_entry_matches h ("*." +:+ dom) = true <->
      h = dom \/ exists sub, h = sub +:+ "." +:+ dom) /\
  (forall h pattern,
      Js.startsWith pattern "*." = false ->
      allowlist_entry_matches h pattern = true <-> h = pattern) /\
  (isWhitelisted cfg W u = true <->
   exists h pattern,
     hostnameOf W u = Some h /\ h <> "" /\ In pattern (ALLOWLIST cfg) /\
     allowlist_entry_matches h pattern = true) /\
  (isWhitelisted cfg W u = false ->
   (forall st',
       load_content cfg W opts st' = (Throw (JsError "URL not in allowlist"), st')) /\
   (exists msg1 msg2 evs1 evs2,
       fst (ServerJs.render cfg PRESETS W body st) = Val (Json400 msg1) /\
       fst (SwaggerJs.render cfg PRESETS W body st) = Val (Json400 msg2) /\
       appended (ServerJs.render cfg PRESETS W body) st evs1 /\
       appended (SwaggerJs.render cfg PRESETS W body) st evs2 /\
       Forall (fun e => ~ is_goto e) (evs1 ++ evs2)) /\
   (forall size clip, resolves cfg PRESETS opts size clip ->
      let calls := refused_script cfg opts size in
      (forall b s0,
          ServerJs.getBrowser W st = (Val b, s0) ->
          all_resolve W (trace s0) calls ->
          ServerJs.render cfg PRESETS W body st
          = (Val (Json400 "URL not in allowlist"), add_events s0 calls)) /\
      (forall b s0,
          SwaggerJs.getBrowser W st = (Val b, s0) ->
          all_resolve W (trace s0) calls ->
          SwaggerJs.render cfg PRESETS W body st
          = (Val (Json400 "URL not in allowlist"), add_events s0 calls)))).
Proof.
  intros Hs Hmode Ha.
  split; [apply wildcard_entry_spec|].
  split; [apply exact_entry_spec|].
  split; [apply isWhitelisted_spec|].
  intros Hw.
  pose proof (fun st' => load_content_not_allowlisted cfg W opts u st' Hmode Ha Hw)
    as Hload.
  assert (Js.nullish (url opts) "" = u) as Hu
    by (destruct Hmode as (_ & _ & -> & _); done).
  split; [done|]. split.
  - destruct (render_with_content_failure cfg PRESETS W _ (server_wrapper_ok cfg W)
                body opts st Hs (fails_of_throw _ _ Hload)) as [msg1 H1].
    destruct (render_with_content_failure cfg PRESETS W _ (swagger_wrapper_ok cfg W)
                body opts st Hs (fails_of_throw _ _ Hload)) as [msg2 H2].
    destruct (render_with_never_navigates cfg PRESETS W _ body opts st
                (server_wrapper_ok cfg W) Hs) as (evs1 & Ha1 & Hf1);
      [rewrite Hu; auto|].
    destruct (render_with_never_navigates cfg PRESETS W _ body opts st
                (swagger_wrapper_ok cfg W) Hs) as (evs2 & Ha2 & Hf2);
      [rewrite Hu; auto|].
    exists msg1, msg2, evs1, evs2. repeat split; try done. by apply Forall_app.
  - intros size clip Hres.
    exact (render_refused cfg PRESETS W body opts size clip Hs Hres
             "URL not in allowlist" st Hload ltac:(discriminate) eq_refl).
Qed.

(** [https://example.org/x.png] against the allowlist [*.example.com]. *)
Lemma allowlist_decides_url_requests_witness :
  fst (ServerJs.render wildcard_config documented_presets healthy_world
         (url_body "https://example.org/x.png") initial_state)
  = Val (Json400 "URL not in allowlist") /\
  fst (SwaggerJs.render wildcard_config documented_presets healthy_world
         (url_body "https://example.org/x.png") initial_state)
  = Val (Json400 "URL not in allowlist").
Proof.
  pose proof (allowlist_decides_url_requests wildcard_config documented_presets
                healthy_world (url_body "https://example.org/x.png") _
                "https://example.org/x.png" initial_state eq_refl
                ltac:(repeat split; discriminate) eq_refl)
    as (_ & _ & _ & H).
  destruct (H eq_refl) as (_ & _ & Hmsg).
  destruct (Hmsg (mkSize 1200 630) None
              ltac:(exists (None, None); repeat split)) as [H1 H2].
  split.
  - by rewrite (H1 _ _ eq_refl ltac:(simpl; tauto)).
  - by rewrite (H2 _ _ eq_refl ltac:(simpl; tauto)).
Defined.

(** Outside these conditions the answer is another error: that of
    [page.close()] when it rejects, that of the size preset when it is
    unknown (and then nothing is asked of the engine). *)
Example not_allowlisted_but_another_error :
  ServerJs.render wildcard_config documented_presets stuck_page_world
    (url_body "https://example.org/x.png") initial_state
  = (Val (Json400 "page.close: Protocol error (Target.closeTarget)"),
     {| browser := Some 0%nat;
        trace := [launch; newContext 1 1200 630; route_install; newPage;
                  setViewportSize 1200 630; emulateMedia;
                  setDefaultTimeout 15000; page_close] |}) /\
  ServerJs.render wildcard_config documented_presets healthy_world
    (body_with_sizePreset (url_body "https://example.org/x.png") "nope")
    initial_state
  = (Val (Json400 "Unknown sizePreset: nope"), initial_state).
Proof. vm_compute. auto. Qed.

(** C4 as stated fails: the entry [*.example.com] admits the bare host
    [example.com], which is not listed, and the request is rendered.  And a
    request for a host that matches no entry is not always answered with
    the allowlist error: with URL rendering disabled the answer is that
    rendering is disabled, and when the engine fails before the check the
    answer is the engine's error. *)
Lemma wildcard_entry_admits_bare_domain :
  ~ In "example.com" (ALLOWLIST wildcard_config) /\
  allowlist_entry_matches "example.com" "*.example.com" = true /\
  isWhitelisted wildcard_config healthy_world "https://example.com/" = true /\
  ServerJs.render wildcard_config documented_presets healthy_world
    (url_body "https://example.com/") initial_state
  = (Val (Image png [137; 80; 78; 71]),
     {| browser := Some 0%nat;
        trace := [launch; newContext 1 1200 630; route_install; newPage;
                  setViewportSize 1200 630; emulateMedia;
                  setDefaultTimeout 15000;
                  goto "https://example.com/" networkidle;
                  setViewportSize 1200 630; evaluate_devicePixelRatio 1;
                  screenshot (mkShot png None false false None);
                  page_close; context_close] |}) /\
  isWhitelisted default_config healthy_world "https://example.org/x.png" = false /\
  fst (ServerJs.render default_config documented_presets healthy_world
         (url_body "https://example.org/x.png") initial_state)
  = Val (Json400 "URL rendering disabled by server configuration") /\
  isWhitelisted wildcard_config page_lost_world "https://example.org/x.png" = false /\
  fst (ServerJs.render wildcard_config documented_presets page_lost_world
         (url_body "https://example.org/x.png") initial_state)
  = Val (Json400 "Target page, context or browser has been closed").
Proof.
  split; [|vm_compute; auto 10].
  simpl. intros [H|[]]. discriminate.
Qed.

Section BothVersions.

Variable cfg : Config.
Variable PRESETS : Presets.
Variable W : World.

(** A property of every call a request may cause holds of every call
    either version of the handler makes for it. *)
Lemma both_renders_invariant (P : Event -> Prop) body opts st :
  RenderSchema W body = Some opts ->
  (forall size clip e,
      resolves cfg PRESETS opts size clip ->
      request_event cfg W opts size clip e -> P e) ->
  exists evs1 evs2,
    appended (ServerJs.render cfg PRESETS W body) st evs1 /\
    appended (SwaggerJs.render cfg PRESETS W body) st evs2 /\
    Forall P (evs1 ++ evs2).
Proof.
  intros Hs HP.
  assert (forall withPage, wrapper_ok cfg withPage ->
            exists evs, appended (render_with cfg PRESETS W withPage body) st evs /\
                        Forall P evs) as Hone.
  { intros withPage Hok.
    destruct (render_with_request_events cfg PRESETS W withPage body opts st Hok Hs)
      as (evs & Happ & [->|(size & clip & Hres & Hall)]).
    - exists []. auto.
    - exists evs. split; [done|]. eapply Forall_impl; [exact Hall|].
      intros e. by apply HP. }
  destruct (Hone _ (server_wrapper_ok cfg W)) as (evs1 & Ha1 & Hf1).
  destruct (Hone _ (swagger_wrapper_ok cfg W)) as (evs2 & Ha2 & Hf2).
  exists evs1, evs2. repeat split; [done|done|]. by apply Forall_app.
Qed.

Lemma request_event_dpr opts size clip e :
  request_event cfg W opts size clip e -> dpr_event_ok cfg opts e.
Proof.
  intros He. apply request_event_cases in He. unfold session_event in He.
  split.
  - intros d w h ->.
    destruct He as [He|[He|[He|[He|[He|[He|[He|He]]]]]]]; try discriminate.
    + destruct He as [He|[He|[He|He]]]; try discriminate.
      * by injection He.
      * intuition discriminate.
    + apply content_script_cases in He.
      destruct He as [(_ & tpl & markup & _ & _ & He)|[(_ & _ & He)|He]];
        [discriminate | discriminate | by destruct He as (_ & _ & _ & _ & _ & He)].
    + apply wait_script_cases in He.
      destruct He as [[n He]|(sel & t & He)]; discriminate.
  - intros d ->.
    destruct He as [He|[He|[He|[He|[He|[He|[He|He]]]]]]]; try discriminate.
    + intuition discriminate.
    + apply content_script_cases in He.
      destruct He as [(_ & tpl & markup & _ & _ & He)|[(_ & _ & He)|He]];
        [discriminate | discriminate | by destruct He as (_ & _ & _ & _ & _ & He)].
    + apply wait_script_cases in He.
      destruct He as [[n He]|(sel & t & He)]; discriminate.
    + by injection He.
Qed.

Lemma request_event_clip opts size clip e :
  request_event cfg W opts size clip e -> clip_event_ok clip e.
Proof.
  intros He o ->. apply request_event_cases in He. unfold session_event in He.
  destruct He as [He|[He|[He|[He|[He|[He|[He|He]]]]]]]; try discriminate.
  - intuition discriminate.
  - apply content_script_cases in He.
    destruct He as [(_ & tpl & markup & _ & _ & He)|[(_ & _ & He)|He]];
      [discriminate | discriminate | by destruct He as (_ & _ & _ & _ & _ & He)].
  - apply wait_script_cases in He.
    destruct He as [[n He]|(sel & t & He)]; discriminate.
  - injection He as ->. done.
Qed.

Lemma request_event_content opts size clip e :
  request_event cfg W opts size clip e -> content_event_ok W opts e.
Proof.
  intros He. apply request_event_cases in He. unfold session_event in He.
  split.
  - intros markup wu ->.
    destruct He as [He|[He|[He|[He|[He|[He|[He|He]]]]]]]; try discriminate.
    + intuition discriminate.
    + apply content_script_cases in He.
      destruct He as [(Ht & tpl & m & Hg & Hm & He)|[(Ht & Hh & He)|He]].
      * injection He as -> _. left. eauto 10.
      * injection He as -> _. right. auto.
      * by destruct He as (_ & _ & _ & _ & _ & He).
    + apply wait_script_cases in He.
      destruct He as [[n He]|(sel & t & He)]; discriminate.
  - intros u wu ->.
    destruct He as [He|[He|[He|[He|[He|[He|[He|He]]]]]]]; try discriminate.
    + intuition discriminate.
    + apply content_script_cases in He.
      destruct He as [(_ & tpl & m & _ & _ & He)|[(_ & _ & He)|He]];
        [discriminate | discriminate |].
      destruct He as (Ht & Hh & Hu & _ & _ & He). injection He as -> _.
      repeat split; [done|done|].
      destruct (url opts) as [u'|]; [done|discriminate].
    + apply wait_script_cases in He.
      destruct He as [[n He]|(sel & t & He)]; discriminate.
Qed.

End BothVersions.

(** C5, as the code has it.  A URL-mode request made while [ALLOW_URL] is
    false never navigates and is always answered with a JSON error: the
    content step throws [URL rendering disabled by server configuration]
    before it asks anything of the page.  The check sits inside the
    [withPage] callback: the handle is obtained, the context is created, the
    route handler installed and the page opened and prepared before the
    error is thrown, and [page.close()] and [context.close()] are called
    after it.  When the size and the clip of the request resolve,
    [getBrowser] returns the handle and these eight calls all resolve, they
    are what the request asks of the engine and the answer is that error. *)
Theorem url_disabled_never_navigates cfg PRESETS W body opts u st :
  RenderSchema W body = Some opts ->
  url_mode opts u ->
  ALLOW_URL cfg = false ->
  (forall st',
      load_content cfg W opts st' =
      (Throw (JsError "URL rendering disabled by server configuration"), st')) /\
  (exists msg1 msg2 evs1 evs2,
      fst (ServerJs.render cfg PRESETS W body st) = Val (Json400 msg1) /\
      fst (SwaggerJs.render cfg PRESETS W body st) = Val (Json400 msg2) /\
      appended (ServerJs.render cfg PRESETS W body) st evs1 /\
      appended (SwaggerJs.render cfg PRESETS W body) st evs2 /\
      Forall (fun e => ~ is_goto e) (evs1 ++ evs2)) /\
  (forall size clip, resolves cfg PRESETS opts size clip ->
     let calls := refused_script cfg opts size in
     (forall b s0,
         ServerJs.getBrowser W st = (Val b, s0) ->
         all_resolve W (trace s0) calls ->
         ServerJs.render cfg PRESETS W body st =
         (Val (Json400 "URL rendering disabled by server configuration"),
          add_events s0 calls)) /\
     (forall b s0,
         SwaggerJs.getBrowser W st = (Val b, s0) ->
         all_resolve W (trace s0) calls ->
         SwaggerJs.render cfg PRESETS W body st =
         (Val (Json400 "URL rendering disabled by server configuration"),
          add_events s0 calls))).
Proof.
  intros Hs Hmode Ha.
  pose proof (fun st' => load_content_url_disabled cfg W opts u st' Hmode Ha)
    as Hload.
  split; [done|]. split.
  - destruct (render_with_content_failure cfg PRESETS W _ (server_wrapper_ok cfg W)
                body opts st Hs (fails_of_throw _ _ Hload)) as [msg1 H1].
    destruct (render_with_content_failure cfg PRESETS W _ (swagger_wrapper_ok cfg W)
                body opts st Hs (fails_of_throw _ _ Hload)) as [msg2 H2].
    destruct (render_with_never_navigates cfg PRESETS W _ body opts st
                (server_wrapper_ok cfg W) Hs) as (evs1 & Ha1 & Hf1); [auto|].
    destruct (render_with_never_navigates cfg PRESETS W _ body opts st
                (swagger_wrapper_ok cfg W) Hs) as (evs2 & Ha2 & Hf2); [auto|].
    exists msg1, msg2, evs1, evs2. repeat split; try done. by apply Forall_app.
  - intros size clip Hres.
    exact (render_refused cfg PRESETS W body opts size clip Hs Hres
             _ st Hload ltac:(discriminate) eq_refl).
Qed.

(** [url: https://example.com/] under the default configuration. *)
Lemma url_disabled_never_navigates_witness :
  fst (ServerJs.render default_config documented_presets healthy_world
         (url_body "https://example.com/") initial_state)
  = Val (Json400 "URL rendering disabled by server configuration") /\
  fst (SwaggerJs.render default_config documented_presets healthy_world
         (url_body "https://example.com/") initial_state)
  = Val (Json400 "URL rendering disabled by server configuration").
Proof.
  pose proof (url_disabled_never_navigates default_config documented_presets
                healthy_world (url_body "https://example.com/") _
                "https://example.com/" initial_state eq_refl
                ltac:(repeat split; discriminate) eq_refl)
    as (_ & _ & H).
  destruct (H (mkSize 1200 630) None
              ltac:(exists (None, None); repeat split)) as [H1 H2].
  split.
  - by rewrite (H1 _ _ eq_refl ltac:(simpl; tauto)).
  - by rewrite (H2 _ _ eq_refl ltac:(simpl; tauto)).
Defined.

(** Outside these conditions the answer is another error: that of
    [page.close()] when it rejects, that of the size preset when it is
    unknown (and then nothing is asked of the engine). *)
Example url_disabled_but_another_error :
  ServerJs.render default_config documented_presets stuck_page_world
    (url_body "https://example.com/") initial_state
  = (Val (Json400 "page.close: Protocol error (Target.closeTarget)"),
     {| browser := Some 0%nat;
        trace := [launch; newContext 1 1200 630; route_install; newPage;
                  setViewportSize 1200 630; emulateMedia;
                  setDefaultTimeout 15000; page_close] |}) /\
  ServerJs.render default_config documented_presets healthy_world
    (body_with_sizePreset (url_body "https://example.com/") "nope")
    initial_state
  = (Val (Json400 "Unknown sizePreset: nope"), initial_state).
Proof. vm_compute. auto. Qed.

(** C5 as stated fails: with [ALLOW_URL=false] a [url] request makes the
    server launch the engine, create a context, install the route handler
    and open a page before it is refused; and when the engine fails on the
    way, the answer is the engine's error. *)
Lemma url_disabled_request_reaches_route_setup :
  ALLOW_URL default_config = false /\
  fst (ServerJs.render default_config documented_presets page_lost_world
         (url_body "https://example.com/") initial_state)
  = Val (Json400 "Target page, context or browser has been closed") /\
  ServerJs.render default_config documented_presets healthy_world
    (url_body "https://example.com/") initial_state
  = (Val (Json400 "URL rendering disabled by server configuration"),
     {| browser := Some 0%nat;
        trace := [launch; newContext 1 1200 630; route_install; newPage;
                  setViewportSize 1200 630; emulateMedia;
                  setDefaultTimeout 15000; page_close; context_close] |}) /\
  SwaggerJs.render default_config documented_presets healthy_world
    (url_body "https://example.com/") initial_state
  = (Val (Json400 "URL rendering disabled by server configuration"),
     {| browser := Some 0%nat;
        trace := [launch; newContext 1 1200 630; route_install; newPage;
                  setViewportSize 1200 630; emulateMedia;
                  setDefaultTimeout 15000; page_close; context_close] |}).
Proof. vm_compute. auto 10. Qed.

(** C7. Content is selected by truthiness in the order [templateName],
    [html], [url], the first truthy one winning: on any engine and in
    either version, every [page.setContent] of a request carries the
    template's markup when [templateName] is truthy and otherwise the
    request's [html] (with the [css] injected), and a [page.goto] happens
    only when neither is truthy.  The content step of a request with a
    truthy [templateName] is [setContent] of the rendered template whatever
    its [html] and [url]; that of a request with a truthy [html] and no
    truthy [templateName] is [setContent(html)] whatever its [url]; and on a
    healthy engine the selected content is loaded, the rest of the script
    runs and the image is returned. *)
Theorem content_source_precedence cfg PRESETS W body opts st :
  RenderSchema W body = Some opts ->
  (exists evs1 evs2,
      appended (ServerJs.render cfg PRESETS W body) st evs1 /\
      appended (SwaggerJs.render cfg PRESETS W body) st evs2 /\
      Forall (content_event_ok W opts) (evs1 ++ evs2)) /\
  (Js.truthy (templateName opts) = true ->
   forall tpl markup,
     getTemplate W (Js.nullish (templateName opts) "") = Success tpl ->
     tpl (Js.nullish (templateData opts) []) = Success markup ->
     content_script cfg W opts
     = [setContent (inject_css opts markup) (waitUntil opts)]) /\
  (Js.truthy (templateName opts) = false -> Js.truthy (html opts) = true ->
   content_script cfg W opts
   = [setContent (inject_css opts (Js.nullish (html opts) "")) (waitUntil opts)]) /\
  (healthy W ->
   forall size clip, resolves cfg PRESETS opts size clip ->
     content_script cfg W opts <> [] ->
     let script := page_script cfg W opts size clip
                   ++ [page_close; context_close] in
     (exists buffer,
         ServerJs.render cfg PRESETS W body st =
         (Val (Image (format opts) buffer),
          add_events (page_opened cfg (server_opened st)) script)) /\
     (exists buffer,
         SwaggerJs.render cfg PRESETS W body st =
         (Val (Image (format opts) buffer),
          add_events (page_opened cfg (swagger_opened st)) script))).
Proof.
  intros Hs. split; [|split; [|split]].
  - apply (both_renders_invariant cfg PRESETS W _ body opts st Hs).
    intros size clip e _. apply request_event_content.
  - intros Ht tpl markup Hg Hm. unfold content_script. by rewrite Ht, Hg, Hm.
  - intros Ht Hh. unfold content_script. by rewrite Ht, Hh.
  - intros Hhealthy size clip Hres Hcontent.
    apply (render_healthy_image cfg PRESETS W Hhealthy body opts size clip Hs Hres).
    intros st'. by apply load_content_healthy.
Qed.

(** [html] and an allowlisted [url] together: the [html] is rendered. *)
Lemma content_source_precedence_witness :
  exists buffer,
    ServerJs.render wildcard_config documented_presets healthy_world
      (html_and_url_body "<p>hi</p>" "https://sub.example.com/") initial_state
    = (Val (Image png buffer),
       {| browser := Some 0%nat;
          trace := [launch; newContext 1 1200 630; route_install; newPage;
                    setViewportSize 1200 630; emulateMedia;
                    setDefaultTimeout 15000;
                    setContent "<p>hi</p>" networkidle;
                    setViewportSize 1200 630; evaluate_devicePixelRatio 1;
                    screenshot (mkShot png None false false None);
                    page_close; context_close] |}).
Proof.
  pose proof (content_source_precedence wildcard_config documented_presets
                healthy_world
                (html_and_url_body "<p>hi</p>" "https://sub.example.com/") _
                initial_state eq_refl) as (_ & _ & _ & Hrun).
  destruct (Hrun ltac:(intros ? ?; reflexivity) (mkSize 1200 630) None
              ltac:(exists (None, None); repeat split) ltac:(discriminate))
    as [[buffer Hb] _].
  exists buffer. exact Hb.
Defined.

(** With all three sources supplied the template is rendered. *)
Example template_wins_over_html_and_url :
  SwaggerJs.render wildcard_config documented_presets card_world
    all_sources_body initial_state
  = (Val (Image jpeg [137; 80; 78; 71]),
     {| browser := Some 0%nat;
        trace := [launch; newContext 1 1200 630; route_install; newPage;
                  setViewportSize 1200 630; emulateMedia;
                  setDefaultTimeout 15000;
                  setContent
                    "<html><head><style>body{margin:0}</style></head><body>card</body></html>"
                    load;
                  waitForTimeout 250;
                  setViewportSize 1200 630; evaluate_devicePixelRatio 1;
                  screenshot (mkShot jpeg (Some 90) false false None);
                  page_close; context_close] |}).
Proof. vm_compute. reflexivity. Qed.

(** C9. Every browsing context a request gets is created with
    [deviceScaleFactor = DEFAULT_DPR], whatever [dpr] the request carries;
    the requested ratio ([dpr ?? DEFAULT_DPR]) only ever reaches the engine
    as the argument of the [page.evaluate] that redefines
    [window.devicePixelRatio].  That call is the last but one of the
    callback: on any engine the calls of the callback are a prefix of its
    script, in which the content load comes before the [evaluate] and the
    screenshot directly after it; on a healthy engine the whole script runs
    inside a context whose scale factor is [DEFAULT_DPR]. *)
Theorem dpr_only_patches_reported_ratio cfg PRESETS W body opts st :
  RenderSchema W body = Some opts ->
  (exists evs1 evs2,
      appended (ServerJs.render cfg PRESETS W body) st evs1 /\
      appended (SwaggerJs.render cfg PRESETS W body) st evs2 /\
      Forall (dpr_event_ok cfg opts) (evs1 ++ evs2)) /\
  (forall size clip page,
      follows (page_script cfg W opts size clip)
              (render_page cfg W opts size clip page) /\
      page_script cfg W opts size clip =
      [setViewportSize (size_width size) (size_height size); emulateMedia;
       setDefaultTimeout (Js.nullish (timeout opts) 15000)]
      ++ content_script cfg W opts ++ wait_script opts
      ++ [setViewportSize (size_width size) (size_height size);
          evaluate_devicePixelRatio (Js.nullish (dpr opts) (DEFAULT_DPR cfg));
          screenshot (screenshotOptions opts clip)]) /\
  (healthy W ->
   forall size clip, resolves cfg PRESETS opts size clip ->
     content_script cfg W opts <> [] ->
     let calls := [newContext (DEFAULT_DPR cfg) 1200 630; route_install; newPage]
                  ++ page_script cfg W opts size clip
                  ++ [page_close; context_close] in
     (exists buffer,
         ServerJs.render cfg PRESETS W body st =
         (Val (Image (format opts) buffer), add_events (server_opened st) calls)) /\
     (exists buffer,
         SwaggerJs.render cfg PRESETS W body st =
         (Val (Image (format opts) buffer), add_events (swagger_opened st) calls))).
Proof.
  intros Hs. split; [|split].
  - apply (both_renders_invariant cfg PRESETS W _ body opts st Hs).
    intros size clip e _. apply request_event_dpr.
  - intros size clip page. split; [apply render_page_follows | done].
  - intros Hhealthy size clip Hres Hcontent calls.
    destruct (render_healthy_image cfg PRESETS W Hhealthy body opts size clip Hs
                Hres st (fun st' => load_content_healthy cfg W Hhealthy opts st'
                                      Hcontent))
      as [[b1 H1] [b2 H2]].
    unfold page_opened in H1, H2. rewrite add_events_add in H1, H2.
    split; eauto.
Qed.

(** [dpr: 2] under the default configuration ([DEFAULT_DPR = 1]): the
    context has scale factor 1, the page is told 2. *)
Lemma dpr_only_patches_reported_ratio_witness :
  exists buffer,
    ServerJs.render default_config documented_presets healthy_world
      (dpr_body "<p>hi</p>" 2) initial_state
    = (Val (Image png buffer),
       {| browser := Some 0%nat;
          trace := [launch; newContext 1 1200 630; route_install; newPage;
                    setViewportSize 1200 630; emulateMedia;
                    setDefaultTimeout 15000;
                    setContent "<p>hi</p>" networkidle;
                    setViewportSize 1200 630; evaluate_devicePixelRatio 2;
                    screenshot (mkShot png None false false None);
                    page_close; context_close] |}).
Proof.
  pose proof (dpr_only_patches_reported_ratio default_config documented_presets
                healthy_world (dpr_body "<p>hi</p>" 2) _ initial_state eq_refl)
    as (_ & _ & H).
  destruct (H ltac:(intros ? ?; reflexivity) (mkSize 1200 630) None
              ltac:(exists (None, None); repeat split) ltac:(discriminate))
    as [[buffer Hb] _].
  exists buffer. exact Hb.
Defined.

(** C10. The clip rectangle is never checked: the schema accepts a body
    with any [clip] exactly when it accepts it with any other, the resolved
    clip is what [PRESETS.clips?.[clipPreset]] gives when [clipPreset] is
    truthy (the preset's rectangle, or the inherited member for a name the
    table only inherits from [Object.prototype]) and the request's own
    [clip] otherwise, the size budget does not look at it, and
    on any engine and in either version every [page.screenshot] call of the
    request carries the resolved clip as it is.  On a healthy engine the
    request is rendered and captured with that clip. *)
Theorem clip_passed_unchanged cfg PRESETS W body opts rc st :
  RenderSchema W body = Some opts ->
  resolved_clip PRESETS opts = Success rc ->
  (forall c, RenderSchema W (body_with_clip body c) = Some (opts_with_clip opts c)) /\
  (forall c, requested_size PRESETS (opts_with_clip opts c)
             = requested_size PRESETS opts) /\
  rc = (if Js.truthy (clipPreset opts)
        then match Js.member (clips PRESETS) (Js.nullish (clipPreset opts) "") with
             | Js.Own cp => Some (ClipRect cp)
             | Js.Inherited key => Some (ClipMember key)
             | Js.Undefined => None
             end
        else option_map ClipRect (clip opts)) /\
  (exists evs1 evs2,
      appended (ServerJs.render cfg PRESETS W body) st evs1 /\
      appended (SwaggerJs.render cfg PRESETS W body) st evs2 /\
      Forall (clip_event_ok rc) (evs1 ++ evs2)) /\
  (healthy W ->
   forall dims size,
     requested_size PRESETS opts = Success dims ->
     enforceSize cfg (fst dims) (snd dims) = Success size ->
     content_script cfg W opts <> [] ->
     let calls := [newContext (DEFAULT_DPR cfg) 1200 630; route_install; newPage]
                  ++ page_script cfg W opts size rc
                  ++ [page_close; context_close] in
     In (screenshot (screenshotOptions opts rc)) calls /\
     shot_clip (screenshotOptions opts rc) = rc /\
     (exists buffer,
         ServerJs.render cfg PRESETS W body st =
         (Val (Image (format opts) buffer), add_events (server_opened st) calls)) /\
     (exists buffer,
         SwaggerJs.render cfg PRESETS W body st =
         (Val (Image (format opts) buffer), add_events (swagger_opened st) calls))).
Proof.
  intros Hs Hc. split; [|split; [|split; [|split]]].
  - intros c. unfold RenderSchema in *. simpl.
    destruct (check_url W (b_url body)), (check_int 1 10000 (b_width body)),
      (check_int 1 10000 (b_height body)), (check_dpr (b_dpr body)),
      (check_int 1 100 (b_quality body)), (check_waitFor (b_waitFor body)),
      (check_int 0 60000 (b_timeout body)); try discriminate.
    by injection Hs as <-.
  - done.
  - unfold resolved_clip in Hc. destruct (Js.truthy (clipPreset opts)).
    + destruct (Js.member _ _) as [cp|key|];
        [by injection Hc | by injection Hc | discriminate].
    + by injection Hc.
  - apply (both_renders_invariant cfg PRESETS W _ body opts st Hs).
    intros size clip e (dims & _ & _ & Hc') He.
    rewrite Hc in Hc'. injection Hc' as <-. by eapply request_event_clip.
  - intros Hhealthy dims size Hr He Hcontent calls.
    assert (resolves cfg PRESETS opts size rc) as Hres by (by exists dims).
    destruct (render_healthy_image cfg PRESETS W Hhealthy body opts size rc Hs
                Hres st (fun st' => load_content_healthy cfg W Hhealthy opts st'
                                      Hcontent))
      as [[b1 H1] [b2 H2]].
    unfold page_opened in H1, H2. rewrite add_events_add in H1, H2.
    split; [|split; [done|split; eauto]].
    unfold calls, page_script. rewrite !in_app_iff. simpl. tauto.
Qed.

(** A clip of 100000 x 7 at (-5, 0) on the default 1200 x 630 viewport. *)
Lemma clip_passed_unchanged_witness :
  exists buffer,
    ServerJs.render default_config documented_presets healthy_world
      (body_with_clip (html_body "<p>hi</p>") (Some wild_clip)) initial_state
    = (Val (Image png buffer),
       {| browser := Some 0%nat;
          trace := [launch; newContext 1 1200 630; route_install; newPage;
                    setViewportSize 1200 630; emulateMedia;
                    setDefaultTimeout 15000;
                    setContent "<p>hi</p>" networkidle;
                    setViewportSize 1200 630; evaluate_devicePixelRatio 1;
                    screenshot (mkShot png None false false
                                  (Some (ClipRect wild_clip)));
                    page_close; context_close] |}).
Proof.
  pose proof (clip_passed_unchanged default_config documented_presets
                healthy_world
                (body_with_clip (html_body "<p>hi</p>") (Some wild_clip)) _
                (Some (ClipRect wild_clip)) initial_state eq_refl eq_refl)
    as (_ & _ & _ & _ & H).
  destruct (H ltac:(intros ? ?; reflexivity) (None, None) (mkSize 1200 630)
              eq_refl eq_refl ltac:(discriminate))
    as (_ & _ & [buffer Hb] & _).
  exists buffer. exact Hb.
Defined.

(** A clip preset name that the table only inherits: [toString] is passed
    on to [page.screenshot] as the clip, over the request's own [clip]; an
    unknown name is refused. *)
Example inherited_clip_preset_is_passed_on :
  ServerJs.render default_config documented_presets healthy_world
    (body_with_clipPreset
       (body_with_clip (html_body "<p>hi</p>") (Some wild_clip)) "toString")
    initial_state
  = (Val (Image png [137; 80; 78; 71]),
     {| browser := Some 0%nat;
        trace := [launch; newContext 1 1200 630; route_install; newPage;
                  setViewportSize 1200 630; emulateMedia;
                  setDefaultTimeout 15000;
                  setContent "<p>hi</p>" networkidle;
                  setViewportSize 1200 630; evaluate_devicePixelRatio 1;
                  screenshot (mkShot png None false false
                                (Some (ClipMember "toString")));
                  page_close; context_close] |}) /\
  ServerJs.render default_config documented_presets healthy_world
    (body_with_clipPreset (html_body "<p>hi</p>") "nope") initial_state
  = (Val (Json400 "Unknown clipPreset: nope"), initial_state).
Proof. vm_compute. auto. Qed.

(** * The retry loop of src/swagger.js *)

Section Retry.

Context {A : Type}.
Variable cfg : Config.
Variable W : World.
Variable fn : Page -> M A.

Lemma loop_retry st msg st1 n lastError :
  SwaggerJs.attempt cfg W fn st = (Throw (JsError msg), st1) ->
  SwaggerJs.browser_closed msg = true ->
  SwaggerJs.withPage_loop cfg W (S n) lastError fn st
  = SwaggerJs.withPage_loop cfg W n (JsError msg) fn (after_pause st1).
Proof. intros Hatt Hc. simpl. unfold try_catch. by rewrite Hatt, Hc. Qed.

Lemma final_error_cons lastError msg msgs :
  final_error lastError (msg :: msgs) = final_error (JsError msg) msgs.
Proof.
  destruct msgs as [|m msgs]; [reflexivity|]. unfold final_error.
  change (last (msg :: m :: msgs)) with (last (m :: msgs)).
  destruct (last (m :: msgs)) eqn:Hlast; [reflexivity|].
  apply last_None in Hlast. discriminate.
Qed.

(** The loop with [n] iterations left: it retries while attempts report a
    closed browser, at most [n] times in all, and otherwise returns what
    the attempt returned. *)
Lemma withPage_loop_policy n lastError st :
  exists msgs s,
    retried cfg W fn st msgs s /\
    (((List.length msgs < n)%nat /\
      match SwaggerJs.attempt cfg W fn s with
      | (Val a, s') =>
          SwaggerJs.withPage_loop cfg W n lastError fn st = (Val a, s')
      | (Throw (JsError msg), s') =>
          SwaggerJs.browser_closed msg = false /\
          SwaggerJs.withPage_loop cfg W n lastError fn st = (Throw (JsError msg), s')
      | (Throw JsUndefined, s') =>
          SwaggerJs.withPage_loop cfg W n lastError fn st =
          (Throw (JsError
                    "Cannot read properties of undefined (reading 'message')"), s')
      end) \/
     (List.length msgs = n /\
      SwaggerJs.withPage_loop cfg W n lastError fn st
      = (Throw (final_error lastError msgs), s))).
Proof.
  revert lastError st. induction n as [|n IH]; intros lastError st.
  { exists [], st. split; [constructor|]. right. done. }
  destruct (SwaggerJs.attempt cfg W fn st) as [[a|[|msg]] st1] eqn:Hatt.
  - exists [], st. split; [constructor|]. left. split; [simpl; lia|].
    rewrite Hatt. simpl. unfold try_catch. by rewrite Hatt.
  - exists [], st. split; [constructor|]. left. split; [simpl; lia|].
    rewrite Hatt. simpl. unfold try_catch. by rewrite Hatt.
  - destruct (SwaggerJs.browser_closed msg) eqn:Hc.
    + destruct (IH (JsError msg) (after_pause st1)) as (msgs & s & Hret & Hend).
      exists (msg :: msgs), s. split; [by econstructor|].
      rewrite (loop_retry st msg st1 n lastError Hatt Hc).
      destruct Hend as [[Hlt Hrun]|[Hlen Hrun]].
      * left. split; [simpl; lia | exact Hrun].
      * right. split; [simpl; lia|]. by rewrite final_error_cons.
    + exists [], st. split; [constructor|]. left. split; [simpl; lia|].
      rewrite Hatt. simpl. unfold try_catch. by rewrite Hatt, Hc.
Qed.

End Retry.

(** Without a handle, [getBrowser] launches an engine first thing. *)
Lemma getBrowser_relaunches W st :
  browser st = None ->
  trace (snd (SwaggerJs.getBrowser W st)) = trace st ++ [launch].
Proof.
  intros Hb. unfold SwaggerJs.getBrowser, bind, get_browser, ret. simpl.
  rewrite Hb. simpl. rewrite Hb.
  unfold launch_browser, bind, fresh_id, call. simpl.
  by destruct (outcome W (trace st) launch).
Qed.

(** ** Counting calls *)

Section Counting.

Context {A B : Type}.
Variable p : Event -> bool.

Lemma count_app evs1 evs2 : count p (evs1 ++ evs2) = (count p evs1 + count p evs2)%nat.
Proof. unfold count. by rewrite List.filter_app, length_app. Qed.

Lemma count_none evs : Forall (fun e => p e = false) evs -> count p evs = 0%nat.
Proof.
  unfold count. induction 1 as [|e evs He _ IH]; simpl; [done|]. by rewrite He.
Qed.

Lemma emits_mono (P Q : Event -> Prop) (m : M A) :
  (forall e, P e -> Q e) -> emits P m -> emits Q m.
Proof.
  intros HPQ Hm st. destruct (Hm st) as (evs & Happ & Hall).
  exists evs. split; [done|]. eapply Forall_impl; eauto.
Qed.

Lemma at_most_emits (m : M A) : emits (fun e => p e = false) m -> at_most p 0 m.
Proof.
  intros Hm st. destruct (Hm st) as (evs & Happ & Hall).
  exists evs. split; [done|]. by rewrite count_none.
Qed.

Lemma at_most_mono n n' (m : M A) : (n <= n')%nat -> at_most p n m -> at_most p n' m.
Proof.
  intros Hle Hm st. destruct (Hm st) as (evs & Happ & Hc).
  exists evs. split; [done|]. lia.
Qed.

Lemma at_most_bind n1 n2 (m : M A) (k : A -> M B) :
  at_most p n1 m -> (forall a, at_most p n2 (k a)) ->
  at_most p (n1 + n2) (bind m k).
Proof.
  intros Hm Hk st. unfold bind.
  destruct (Hm st) as (e1 & E1 & C1).
  destruct (m st) as [[a|e] st1]; simpl in *.
  - destruct (Hk a st1) as (e2 & E2 & C2).
    exists (e1 ++ e2). rewrite E2, E1, <- app_assoc. split; [done|].
    rewrite count_app. lia.
  - exists e1. split; [done|]. lia.
Qed.

Lemma at_most_try_catch n1 n2 (m : M A) (h : Thrown -> M A) :
  at_most p n1 m -> (forall e, at_most p n2 (h e)) ->
  at_most p (n1 + n2) (try_catch m h).
Proof.
  intros Hm Hh st. unfold try_catch.
  destruct (Hm st) as (e1 & E1 & C1).
  destruct (m st) as [[a|e] st1]; simpl in *.
  - exists e1. split; [done|]. lia.
  - destruct (Hh e st1) as (e2 & E2 & C2).
    exists (e1 ++ e2). rewrite E2, E1, <- app_assoc. split; [done|].
    rewrite count_app. lia.
Qed.

End Counting.

(** * One attempt *)

Section Attempt.

Context {A : Type}.
Variable cfg : Config.
Variable W : World.
Variable fn : Page -> M A.

(** A page session adds five calls of its own to those of the callback. *)
Lemma page_session_emits_own (P : Event -> Prop) :
  P (newContext (DEFAULT_DPR cfg) 1200 630) -> P route_install -> P newPage ->
  P page_close -> P context_close ->
  (forall page, emits P (fn page)) ->
  emits P (page_session cfg W fn).
Proof.
  intros H1 H2 H3 H4 H5 Hfn. unfold page_session.
  apply emits_bind; [by apply emits_call | intros _].
  apply emits_bind; [by apply emits_call | intros _].
  apply emits_bind; [apply emits_fresh_id | intros page].
  apply emits_bind; [by apply emits_call | intros _].
  apply emits_try_finally; [apply Hfn|].
  apply emits_bind; [by apply emits_call | intros _]. by apply emits_call.
Qed.

Lemma callback_emits (P : Event -> Prop) :
  callback_ok cfg fn ->
  (forall e, ~ session_event cfg e -> P e) ->
  forall page, emits P (fn page).
Proof. intros Hfn HP page. eapply emits_mono; [exact HP | apply Hfn]. Qed.

(** One page at most is opened in a session, and nothing is asked of the
    engine process. *)
Lemma page_session_own_calls :
  callback_ok cfg fn ->
  emits (fun e => e <> launch /\ e <> contexts_probe /\ is_pause e = false)
        (page_session cfg W fn) /\
  at_most is_newPage 1 (page_session cfg W fn).
Proof.
  intros Hfn. split.
  - apply page_session_emits_own; try (repeat split; discriminate).
    apply (callback_emits _ Hfn). intros e He. repeat split.
    + intros ->. apply He. unfold session_event. tauto.
    + intros ->. apply He. unfold session_event. tauto.
    + destruct e; try reflexivity. simpl. destruct (Z.eqb_spec ms 500); [|done].
      subst ms. exfalso. apply He. unfold session_event. tauto.
  - assert (forall page, emits (fun e => is_newPage e = false) (fn page)) as Hno.
    { apply (callback_emits _ Hfn). intros e He. destruct e; try reflexivity.
      exfalso. apply He. unfold session_event. tauto. }
    unfold page_session.
    apply (at_most_bind _ 0 1); [by apply at_most_emits, emits_call | intros _].
    apply (at_most_bind _ 0 1); [by apply at_most_emits, emits_call | intros _].
    apply (at_most_bind _ 0 1); [apply at_most_emits, emits_fresh_id | intros page].
    apply (at_most_bind _ 1 0).
    { intros st. exists [newPage]. split; [|unfold count; simpl; lia].
      unfold call. by destruct (outcome W (trace st) newPage). }
    intros _. apply at_most_emits, emits_try_finally; [apply Hno|].
    apply emits_bind; [by apply emits_call | intros _]. by apply emits_call.
Qed.

Lemma server_getBrowser_script s :
  trace (snd (ServerJs.getBrowser W s)) = trace s ++ server_handle_script s.
Proof.
  unfold ServerJs.getBrowser, server_handle_script, bind, get_browser. simpl.
  destruct (browser s) as [id|] eqn:Hb; simpl; rewrite ?Hb; simpl.
  - by rewrite app_nil_r.
  - unfold launch_browser, bind, fresh_id, call. simpl.
    by destruct (outcome W (trace s) launch).
Qed.

Lemma swagger_getBrowser_script s :
  trace (snd (SwaggerJs.getBrowser W s)) = trace s ++ swagger_handle_script W s.
Proof.
  unfold SwaggerJs.getBrowser, swagger_handle_script, bind, get_browser. simpl.
  destruct (browser s) as [id|] eqn:Hb; simpl; rewrite ?Hb; simpl.
  - unfold try_catch, call.
    destruct (outcome W (trace s) contexts_probe) as [msg|]; simpl;
      rewrite ?Hb; simpl.
    + unfold launch_browser, bind, fresh_id, call. simpl.
      destruct (outcome W _ launch); simpl; by rewrite <- app_assoc.
    + done.
  - unfold launch_browser, bind, fresh_id, call. simpl.
    by destruct (outcome W (trace s) launch).
Qed.

(** An attempt of src/swagger.js starts with [getBrowser]; what follows
    asks nothing of the engine process and opens one page at most. *)
Lemma swagger_attempt_script s :
  callback_ok cfg fn ->
  exists rest,
    appended (SwaggerJs.attempt cfg W fn) s (swagger_handle_script W s ++ rest) /\
    Forall (fun e => e <> launch /\ e <> contexts_probe /\ is_pause e = false) rest /\
    (count is_newPage rest <= 1)%nat.
Proof.
  intros Hfn. destruct (page_session_own_calls Hfn) as [Hown Hpages].
  pose proof (swagger_getBrowser_script s) as Hget.
  unfold appended, SwaggerJs.attempt, bind.
  destruct (SwaggerJs.getBrowser W s) as [[b|e] s1]; simpl in *.
  - destruct (Hown s1) as (rest & Happ & Hall).
    destruct (Hpages s1) as (rest' & Happ' & Hc).
    rewrite Happ in Happ'. apply app_inv_head in Happ'. subst rest'.
    exists rest. rewrite Happ, Hget, <- app_assoc. done.
  - exists []. rewrite app_nil_r. split; [done|]. split; [constructor|].
    unfold count. simpl. lia.
Qed.

Lemma server_withPage_script s :
  callback_ok cfg fn ->
  exists rest,
    appended (ServerJs.withPage cfg W fn) s (server_handle_script s ++ rest) /\
    Forall (fun e => e <> launch /\ e <> contexts_probe /\ is_pause e = false) rest /\
    (count is_newPage rest <= 1)%nat.
Proof.
  intros Hfn. destruct (page_session_own_calls Hfn) as [Hown Hpages].
  pose proof (server_getBrowser_script s) as Hget.
  unfold appended, ServerJs.withPage, bind.
  destruct (ServerJs.getBrowser W s) as [[b|e] s1]; simpl in *.
  - destruct (Hown s1) as (rest & Happ & Hall).
    destruct (Hpages s1) as (rest' & Happ' & Hc).
    rewrite Happ in Happ'. apply app_inv_head in Happ'. subst rest'.
    exists rest. rewrite Happ, Hget, <- app_assoc. done.
  - exists []. rewrite app_nil_r. split; [done|]. split; [constructor|].
    unfold count. simpl. lia.
Qed.

(** The loop with [n] iterations left opens [n] pages and pauses [n]
    times at most. *)
Lemma swagger_loop_counts n lastError :
  callback_ok cfg fn ->
  at_most is_newPage n (SwaggerJs.withPage_loop cfg W n lastError fn) /\
  at_most is_pause n (SwaggerJs.withPage_loop cfg W n lastError fn).
Proof.
  intros Hfn.
  assert (at_most is_newPage 1 (SwaggerJs.attempt cfg W fn)) as Hpages.
  { intros s. destruct (swagger_attempt_script s Hfn) as (rest & Happ & _ & Hc).
    exists (swagger_handle_script W s ++ rest). split; [exact Happ|].
    rewrite count_app.
    assert (count is_newPage (swagger_handle_script W s) = 0%nat) as ->; [|lia].
    unfold swagger_handle_script.
    destruct (browser s); [destruct (outcome W _ _)|]; reflexivity. }
  assert (at_most is_pause 0 (SwaggerJs.attempt cfg W fn)) as Hpauses.
  { intros s. destruct (swagger_attempt_script s Hfn) as (rest & Happ & Hall & _).
    exists (swagger_handle_script W s ++ rest). split; [exact Happ|].
    rewrite count_app, (count_none is_pause rest).
    - assert (count is_pause (swagger_handle_script W s) = 0%nat) as ->; [|lia].
      unfold swagger_handle_script.
      destruct (browser s); [destruct (outcome W _ _)|]; reflexivity.
    - eapply Forall_impl; [exact Hall|]. by intros e (_ & _ & He). }
  revert lastError. induction n as [|n IH]; intros lastError; simpl.
  { split; intros s; exists []; simpl; rewrite app_nil_r; split; try done;
      unfold count; simpl; lia. }
  destruct (IH lastError) as [_ _].
  split.
  - apply (at_most_try_catch _ 1 n); [exact Hpages|].
    intros [|msg].
    + intros s. exists []. simpl. rewrite app_nil_r. split; [done|].
      unfold count. simpl. lia.
    + destruct (SwaggerJs.browser_closed msg).
      * apply (at_most_bind _ 0 n).
        { apply at_most_emits, emits_set_browser. }
        intros _. apply (at_most_bind _ 0 n).
        { by apply at_most_emits, emits_record. }
        intros _. apply IH.
      * intros s. exists []. simpl. rewrite app_nil_r. split; [done|].
        unfold count. simpl. lia.
  - apply (at_most_try_catch _ 0 (S n)); [exact Hpauses|].
    intros [|msg].
    + intros s. exists []. simpl. rewrite app_nil_r. split; [done|].
      unfold count. simpl. lia.
    + destruct (SwaggerJs.browser_closed msg).
      * apply (at_most_bind _ 0 (S n)).
        { apply at_most_emits, emits_set_browser. }
        intros _. apply (at_most_bind _ 1 n).
        { intros s. exists [sleep 500]. split; [done|]. unfold count. simpl. lia. }
        intros _. apply IH.
      * intros s. exists []. simpl. rewrite app_nil_r. split; [done|].
        unfold count. simpl. lia.
Qed.

(** One iteration of the loop, from any state. *)
Lemma withPage_loop_step n lastError s :
  SwaggerJs.withPage_loop cfg W (S n) lastError fn s =
  match SwaggerJs.attempt cfg W fn s with
  | (Val a, s') => (Val a, s')
  | (Throw (JsError msg), s') =>
      if SwaggerJs.browser_closed msg
      then SwaggerJs.withPage_loop cfg W n (JsError msg) fn (after_pause s')
      else (Throw (JsError msg), s')
  | (Throw JsUndefined, s') =>
      (Throw (JsError "Cannot read properties of undefined (reading 'message')"),
       s')
  end.
Proof.
  simpl. unfold try_catch.
  destruct (SwaggerJs.attempt cfg W fn s) as [[a|[|msg]] s']; try reflexivity.
  by destruct (SwaggerJs.browser_closed msg).
Qed.

End Attempt.

(** The callback of the [/render] handler is such a callback. *)
Lemma page_script_not_session cfg W opts size clip e :
  In e (page_script cfg W opts size clip) -> ~ session_event cfg e.
Proof.
  unfold page_script, session_event. intros He.
  repeat (apply in_app_or in He as [He|He]); simpl in He.
  - destruct He as [<-|[<-|[<-|[]]]]; intuition discriminate.
  - apply content_script_cases in He.
    destruct He as [(_ & tpl & markup & _ & _ & ->)|[(_ & _ & ->)|He]];
      [intuition discriminate | intuition discriminate |].
    destruct He as (_ & _ & _ & _ & _ & ->). intuition discriminate.
  - apply wait_script_cases in He.
    destruct He as [[n ->]|(sel & t & ->)]; intuition discriminate.
  - destruct He as [<-|[<-|[<-|[]]]]; intuition discriminate.
Qed.

Lemma render_page_callback_ok cfg W opts size clip :
  callback_ok cfg (render_page cfg W opts size clip).
Proof.
  intros page. eapply follows_emits; [apply render_page_follows|].
  apply Forall_forall. intros e He%list_elem_of_In.
  by eapply page_script_not_session.
Qed.

(** The test of the [catch] block: the message holds the text that
    Playwright gives for a closed page, context or browser. *)
Lemma browser_closed_spec msg :
  SwaggerJs.browser_closed msg = true <->
  exists i,
    String.substring i (String.length SwaggerJs.closed_message) msg
    = SwaggerJs.closed_message.
Proof.
  unfold SwaggerJs.browser_closed, Js.includes. split.
  - intros [_ Hi]%andb_true_iff.
    destruct (String.index 0 SwaggerJs.closed_message msg) as [i|] eqn:Hidx;
      [|discriminate].
    exists i. by apply index_correct1 in Hidx.
  - intros [i Hi]. apply andb_true_iff. split.
    + destruct msg; [|reflexivity]. destruct i; discriminate.
    + destruct (String.index 0 SwaggerJs.closed_message msg) as [j|] eqn:Hidx;
        [reflexivity|].
      exfalso. eapply (index_correct3 0 i); [exact Hidx | discriminate | lia |].
      exact Hi.
Qed.



(** A browser lost once: the first attempt fails at [newPage], the handle
    is dropped, 500 ms pass, the engine is launched again and the second
    attempt renders. *)
Example retry_relaunches_after_closed_browser :
  SwaggerJs.render default_config documented_presets flaky_world
    (html_body "<p>hi</p>") initial_state
  = (Val (Image png [137; 80; 78; 71]),
     {| browser := Some 5%nat;
        trace := [launch; newContext 1 1200 630; route_install; newPage;
                  sleep 500;
                  launch; newContext 1 1200 630; route_install; newPage;
                  setViewportSize 1200 630; emulateMedia;
                  setDefaultTimeout 15000;
                  setContent "<p>hi</p>" networkidle;
                  setViewportSize 1200 630; evaluate_devicePixelRatio 1;
                  screenshot (mkShot png None false false None);
                  page_close; context_close] |}).
Proof. vm_compute. reflexivity. Qed.

(** An error that does not report a closed browser is not retried. *)
Example other_errors_are_not_retried :
  SwaggerJs.render default_config documented_presets stuck_page_world
    (html_body "<p>hi</p>") initial_state
  = (Val (Json400 "page.close: Protocol error (Target.closeTarget)"),
     {| browser := Some 0%nat;
        trace := [launch; newContext 1 1200 630; route_install; newPage;
                  setViewportSize 1200 630; emulateMedia;
                  setDefaultTimeout 15000;
                  setContent "<p>hi</p>" networkidle;
                  setViewportSize 1200 630; evaluate_devicePixelRatio 1;
                  screenshot (mkShot png None false false None);
                  page_close] |}).
Proof. vm_compute. reflexivity. Qed.

(** C3 does not hold of the code.  When [context.newPage()] rejects, the
    context just created is left open: [withPage] leaves before its
    [try/finally] (once in src/server.js, on each of the three attempts in
    src/swagger.js).  When [page.close()] rejects inside [finally],
    [context.close()] is skipped. *)
Theorem context_left_open_on_early_exit :
  ServerJs.render default_config documented_presets page_lost_world
    (html_body "<p>hi</p>") initial_state
  = (Val (Json400 "Target page, context or browser has been closed"),
     {| browser := Some 0%nat;
        trace := [launch; newContext 1 1200 630; route_install; newPage] |}) /\
  SwaggerJs.render default_config documented_presets page_lost_world
    (html_body "<p>hi</p>") initial_state
  = (Val (Json400 "Target page, context or browser has been closed"),
     {| browser := None;
        trace := [launch; newContext 1 1200 630; route_install; newPage;
                  sleep 500;
                  launch; newContext 1 1200 630; route_install; newPage;
                  sleep 500;
                  launch; newContext 1 1200 630; route_install; newPage;
                  sleep 500] |}) /\
  ServerJs.render default_config documented_presets stuck_page_world
    (html_body "<p>hi</p>") initial_state
  = (Val (Json400 "page.close: Protocol error (Target.closeTarget)"),
     {| browser := Some 0%nat;
        trace := [launch; newContext 1 1200 630; route_install; newPage;
                  setViewportSize 1200 630; emulateMedia;
                  setDefaultTimeout 15000;
                  setContent "<p>hi</p>" networkidle;
                  setViewportSize 1200 630; evaluate_devicePixelRatio 1;
                  screenshot (mkShot png None false false None);
                  page_close] |}).
Proof. vm_compute. auto. Qed.

(** * Further properties of the server *)

(** ** Normal returns *)

Section NormalReturn.

Context {A B : Type}.

Lemma exactly_call W e : exactly [e] (call W e).
Proof.
  intros st a st'. unfold call.
  destruct (outcome W (trace st) e); [discriminate|]. by intros [= _ <-].
Qed.

Lemma exactly_state_read (f : State -> A) :
  exactly [] (fun st => (Val (f st), st)).
Proof. intros st a st' [= _ <-]. by rewrite app_nil_r. Qed.

Lemma exactly_bind s1 s2 (m : M A) (k : A -> M B) :
  exactly s1 m -> (forall a, exactly s2 (k a)) -> exactly (s1 ++ s2) (bind m k).
Proof.
  intros Hm Hk st b st'. unfold bind.
  destruct (m st) as [[a|e] st1] eqn:Hrun; [|discriminate].
  intros Hk'. rewrite (Hk a _ _ _ Hk'), (Hm _ _ _ Hrun). by rewrite app_assoc.
Qed.

Lemma exactly_try_finally s1 s2 (m : M A) (fin : M unit) :
  exactly s1 m -> exactly s2 fin -> exactly (s1 ++ s2) (try_finally m fin).
Proof.
  intros Hm Hf st a st'. unfold try_finally.
  destruct (m st) as [r st1] eqn:Hrun.
  destruct (fin st1) as [[u|e] st2] eqn:Hfin; [|discriminate].
  intros [= -> <-].
  rewrite (Hf _ _ _ Hfin), (Hm _ _ _ Hrun). by rewrite app_assoc.
Qed.

Lemma follows_exactly script (m : M A) : follows script m -> exactly script m.
Proof.
  intros Hm st a st' Hrun. destruct (Hm st) as (evs & Happ & _ & Hval).
  rewrite Hrun in Happ, Hval. simpl in *. by rewrite Happ, (Hval a eq_refl).
Qed.

Lemma finishes_with_exactly script (m : M A) :
  exactly script m -> finishes_with script m.
Proof. intros Hm st a st' Hrun. exists []. by rewrite (Hm _ _ _ Hrun). Qed.

(** A prelude that only appends calls does not disturb the ending. *)
Lemma finishes_with_bind tail (m : M A) (k : A -> M B) :
  emits (fun _ => True) m ->
  (forall a, finishes_with tail (k a)) ->
  finishes_with tail (bind m k).
Proof.
  intros Hm Hk st b st'. unfold bind.
  destruct (Hm st) as (evs & Happ & _).
  destruct (m st) as [[a|e] st1] eqn:Hrun; [|discriminate].
  intros Hk'. destruct (Hk a _ _ _ Hk') as [pre Hpre]. simpl in Happ.
  exists (evs ++ pre). rewrite Hpre, Happ. by rewrite <- !app_assoc.
Qed.

End NormalReturn.

Section CompleteSession.

Variable cfg : Config.
Variable PRESETS : Presets.
Variable W : World.

Lemma finishes_with_try_catch {A} tail (m : M A) (h : Thrown -> M A) :
  emits (fun _ => True) m ->
  finishes_with tail m ->
  (forall e, finishes_with tail (h e)) ->
  finishes_with tail (try_catch m h).
Proof.
  intros He Hm Hh st a st'. unfold try_catch.
  destruct (He st) as (evs & Happ & _).
  destruct (m st) as [[a'|e] st1] eqn:Hrun.
  - intros [= -> ->]. by eapply Hm.
  - intros Hrun'. destruct (Hh e _ _ _ Hrun') as [pre Hpre]. simpl in Happ.
    exists (evs ++ pre). rewrite Hpre, Happ. by rewrite <- !app_assoc.
Qed.

Lemma page_session_exactly {A} script (fn : Page -> M A) :
  (forall page, exactly script (fn page)) ->
  exactly ([newContext (DEFAULT_DPR cfg) 1200 630; route_install; newPage]
           ++ script ++ [page_close; context_close])
          (page_session cfg W fn).
Proof.
  intros Hfn. unfold page_session.
  apply (exactly_bind [_] _); [apply exactly_call | intros _].
  apply (exactly_bind [_] _); [apply exactly_call | intros _].
  apply (exactly_bind [] _);
    [apply (exactly_state_read (fun st => List.length (trace st))) | intros page].
  apply (exactly_bind [_] _); [apply exactly_call | intros _].
  apply exactly_try_finally; [apply Hfn|].
  apply (exactly_bind [_] [_]); [apply exactly_call | intros _; apply exactly_call].
Qed.

Lemma server_withPage_finishes {A} script (fn : Page -> M A) :
  (forall page, exactly script (fn page)) ->
  finishes_with ([newContext (DEFAULT_DPR cfg) 1200 630; route_install; newPage]
                 ++ script ++ [page_close; context_close])
                (ServerJs.withPage cfg W fn).
Proof.
  intros Hfn. unfold ServerJs.withPage.
  apply finishes_with_bind; [by apply (server_getBrowser_emits cfg) | intros _].
  by apply finishes_with_exactly, page_session_exactly.
Qed.

Lemma swagger_loop_finishes {A} script (fn : Page -> M A) n lastError :
  (forall page, emits (fun _ => True) (fn page)) ->
  (forall page, exactly script (fn page)) ->
  finishes_with ([newContext (DEFAULT_DPR cfg) 1200 630; route_install; newPage]
                 ++ script ++ [page_close; context_close])
                (SwaggerJs.withPage_loop cfg W n lastError fn).
Proof.
  intros Hemit Hfn. revert lastError.
  induction n as [|n IH]; intros lastError; simpl; [by intros st a st'|].
  apply finishes_with_try_catch.
  - by apply swagger_attempt_emits.
  - unfold SwaggerJs.attempt.
    apply finishes_with_bind; [by apply (swagger_getBrowser_emits cfg) | intros _].
    by apply finishes_with_exactly, page_session_exactly.
  - intros [|msg]; [by intros st a st'|].
    destruct (SwaggerJs.browser_closed msg); [|by intros st a st'].
    apply finishes_with_bind; [auto with run | intros _].
    apply finishes_with_bind; [by apply emits_record | intros _]. apply IH.
Qed.

(** The content step cannot return normally without a content call. *)
Lemma load_content_empty_script_fails opts :
  content_script cfg W opts = [] -> fails (load_content cfg W opts).
Proof.
  unfold content_script, load_content.
  destruct (Js.truthy (templateName opts)).
  { destruct (getTemplate W _) as [tpl|msg]; [|intros _ st; by exists msg].
    intros Hs st. unfold bind at 1. simpl.
    destruct (tpl _) as [markup|msg]; [done | by exists msg]. }
  destruct (Js.truthy (html opts)); [done|].
  destruct (Js.truthy (url opts)); [|intros _; apply fails_throw].
  destruct (negb (ALLOW_URL cfg)); [intros _; apply fails_throw|].
  destruct (negb (isWhitelisted cfg W _)); [intros _; apply fails_throw | done].
Qed.

Lemma render_with_image withPage body st fmt buffer st' :
  (forall opts size clip,
      finishes_with (session_script cfg W opts size clip)
                    (withPage (render_page cfg W opts size clip))) ->
  wrapper_ok cfg withPage ->
  render_with cfg PRESETS W withPage body st = (Val (Image fmt buffer), st') ->
  exists opts size clip pre,
    RenderSchema W body = Some opts /\
    resolves cfg PRESETS opts size clip /\
    fmt = format opts /\
    content_script cfg W opts <> [] /\
    trace st' = trace st ++ pre ++ session_script cfg W opts size clip.
Proof.
  intros Hfin (_ & _ & Hfails). rewrite render_with_unfold.
  destruct (RenderSchema W body) as [opts|] eqn:Hs; [|discriminate].
  destruct (requested_size PRESETS opts) as [dims|msg] eqn:Hr;
    [|unfold bind; simpl; discriminate].
  destruct (enforceSize cfg (fst dims) (snd dims)) as [size|msg] eqn:He;
    [|unfold bind; simpl; discriminate].
  destruct (resolved_clip PRESETS opts) as [clip|msg] eqn:Hc;
    [|unfold bind; simpl; discriminate].
  destruct (withPage (render_page cfg W opts size clip) st) as [[buf|e] st1] eqn:Hrun.
  - intros [= <- <- <-].
    destruct (Hfin opts size clip _ _ _ Hrun) as [pre Hpre].
    exists opts, size, clip, pre. repeat split; [by exists dims| |done].
    intros Hempty.
    destruct (Hfails (render_page cfg W opts size clip)
                (fun page => render_page_fails cfg W opts size clip page
                               (load_content_empty_script_fails opts Hempty)) st)
      as [msg Hmsg].
    rewrite Hrun in Hmsg. discriminate.
  - destruct e as [|msg]; unfold bind; simpl; discriminate.
Qed.

End CompleteSession.

(** X1. An image is only ever returned at the end of a complete session:
    whenever [/render] answers with an image, in either version and on any
    engine, the request had passed schema, size and clip resolution, the
    image has the requested format, a content call was made, and the last
    calls made are, in this order, [newContext], [route], [newPage], the
    whole script of the callback, [page.close()] and [context.close()]. *)
Theorem image_only_after_complete_session cfg PRESETS W body st fmt buffer st' :
  ServerJs.render cfg PRESETS W body st = (Val (Image fmt buffer), st') \/
  SwaggerJs.render cfg PRESETS W body st = (Val (Image fmt buffer), st') ->
  exists opts size clip pre,
    RenderSchema W body = Some opts /\
    resolves cfg PRESETS opts size clip /\
    fmt = format opts /\
    content_script cfg W opts <> [] /\
    trace st' = trace st ++ pre ++ session_script cfg W opts size clip.
Proof.
  assert (forall opts size clip page,
             exactly (page_script cfg W opts size clip)
                     (render_page cfg W opts size clip page)) as Hex
    by (intros; apply follows_exactly, render_page_follows).
  assert (forall opts size clip page,
             emits (fun _ => True) (render_page cfg W opts size clip page)) as Hem.
  { intros. eapply follows_emits; [apply render_page_follows|].
    by apply Forall_forall. }
  intros [Hrun|Hrun].
  - eapply (render_with_image cfg PRESETS W (ServerJs.withPage cfg W));
      [|apply server_wrapper_ok|exact Hrun].
    intros opts size clip. by apply server_withPage_finishes.
  - eapply (render_with_image cfg PRESETS W (SwaggerJs.withPage cfg W));
      [|apply swagger_wrapper_ok|exact Hrun].
    intros opts size clip. unfold SwaggerJs.withPage.
    by apply swagger_loop_finishes.
Qed.

(** The second attempt on [flaky_world]: the failed first attempt and the
    relaunch come before the complete session. *)
Lemma image_only_after_complete_session_witness :
  exists opts size clip pre,
    RenderSchema flaky_world (html_body "<p>hi</p>") = Some opts /\
    resolves default_config documented_presets opts size clip /\
    png = format opts /\
    content_script default_config flaky_world opts <> [] /\
    [launch; newContext 1 1200 630; route_install; newPage; sleep 500;
     launch; newContext 1 1200 630; route_install; newPage;
     setViewportSize 1200 630; emulateMedia; setDefaultTimeout 15000;
     setContent "<p>hi</p>" networkidle;
     setViewportSize 1200 630; evaluate_devicePixelRatio 1;
     screenshot (mkShot png None false false None);
     page_close; context_close]
    = [] ++ pre ++ session_script default_config flaky_world opts size clip.
Proof.
  exact (image_only_after_complete_session default_config documented_presets
           flaky_world (html_body "<p>hi</p>") initial_state png
           [137; 80; 78; 71] _ (or_intror retry_relaunches_after_closed_browser)).
Defined.

(** ** Answers *)

Section Answers.

Variable cfg : Config.
Variable PRESETS : Presets.
Variable W : World.

Lemma error_text_nonempty msg st :
  exists text, error_text (JsError msg) st = (Val text, st) /\ text <> "".
Proof.
  unfold error_text, ret. destruct (String.eqb_spec msg "").
  - exists "Render failed". split; [reflexivity | discriminate].
  - exists msg. split; [reflexivity | done].
Qed.

Lemma render_with_answer withPage body st :
  wrapper_ok cfg withPage ->
  (exists fmt buffer,
      fst (render_with cfg PRESETS W withPage body st) = Val (Image fmt buffer)) \/
  (exists text,
      fst (render_with cfg PRESETS W withPage body st) = Val (Json400 text) /\
      text <> "").
Proof.
  intros (_ & Hsound & _). rewrite render_with_unfold.
  assert (forall msg st0,
             exists text,
               fst ((msg' <- error_text (JsError msg) ;; ret (Json400 msg')) st0)
               = Val (Json400 text) /\ text <> "") as Herr.
  { intros msg st0. destruct (error_text_nonempty msg st0) as (text & Ht & Hne).
    exists text. unfold bind. by rewrite Ht. }
  destruct (RenderSchema W body) as [opts|];
    [|right; eexists; split; [reflexivity | discriminate]].
  destruct (requested_size PRESETS opts) as [dims|msg]; [|right; apply Herr].
  destruct (enforceSize cfg (fst dims) (snd dims)) as [size|msg];
    [|right; apply Herr].
  destruct (resolved_clip PRESETS opts) as [clip|msg]; [|right; apply Herr].
  pose proof (Hsound (render_page cfg W opts size clip)
                (render_page_sound cfg W opts size clip) st) as Hs.
  destruct (withPage (render_page cfg W opts size clip) st) as [[buf|e] st1];
    simpl in *; [left; eauto|].
  destruct (Hs e eq_refl) as [msg ->]. right. apply (Herr msg st1).
Qed.

End Answers.

(** X2. No exception escapes the [/render] handler, in either version:
    once the calls it awaits have settled, each resolved or rejected with
    an [Error], the handler has answered, with an image or with a JSON
    error whose [error] text is not empty.  In particular the [catch] block
    never reads [message] of [undefined]: [withPage] never throws its
    initial [lastError].  (A call that never settles is outside this
    statement; every call of the model settles.) *)
Theorem render_lets_no_exception_escape cfg PRESETS W body st :
  ((exists fmt buffer,
       fst (ServerJs.render cfg PRESETS W body st) = Val (Image fmt buffer)) \/
   (exists text,
       fst (ServerJs.render cfg PRESETS W body st) = Val (Json400 text) /\
       text <> "")) /\
  ((exists fmt buffer,
       fst (SwaggerJs.render cfg PRESETS W body st) = Val (Image fmt buffer)) \/
   (exists text,
       fst (SwaggerJs.render cfg PRESETS W body st) = Val (Json400 text) /\
       text <> "")).
Proof.
  split.
  - apply render_with_answer, server_wrapper_ok.
  - apply render_with_answer, swagger_wrapper_ok.
Qed.

(** ** The shared engine handle *)

Section Handle.

Variable cfg : Config.
Variable PRESETS : Presets.
Variable W : World.

Lemma keeps_browser_ret {A} (a : A) : keeps_browser (ret a).
Proof. by intros st. Qed.

Lemma keeps_browser_throw {A} e : keeps_browser (@throw A e).
Proof. by intros st. Qed.

Lemma keeps_browser_raise {A} (r : Try A) : keeps_browser (raise r).
Proof. intros st. by destruct r. Qed.

Lemma keeps_browser_call e : keeps_browser (call W e).
Proof. intros st. unfold call. by destruct (outcome W (trace st) e). Qed.

Lemma keeps_browser_call_screenshot o : keeps_browser (call_screenshot W o).
Proof.
  intros st. unfold call_screenshot. by destruct (outcome W (trace st) _).
Qed.

Lemma keeps_browser_fresh_id : keeps_browser fresh_id.
Proof. by intros st. Qed.

Lemma keeps_browser_bind {A B} (m : M A) (k : A -> M B) :
  keeps_browser m -> (forall a, keeps_browser (k a)) -> keeps_browser (bind m k).
Proof.
  intros Hm Hk st. unfold bind. pose proof (Hm st) as H1.
  destruct (m st) as [[a|e] st1]; simpl in *; [|done].
  by rewrite (Hk a st1).
Qed.

Lemma keeps_browser_try_finally {A} (m : M A) (fin : M unit) :
  keeps_browser m -> keeps_browser fin -> keeps_browser (try_finally m fin).
Proof.
  intros Hm Hf st. unfold try_finally. pose proof (Hm st) as H1.
  destruct (m st) as [r st1]. pose proof (Hf st1) as H2.
  destruct (fin st1) as [[u|e] st2]; simpl in *; congruence.
Qed.

Lemma load_content_keeps_browser opts : keeps_browser (load_content cfg W opts).
Proof.
  unfold load_content.
  repeat match goal with |- keeps_browser (if ?b then _ else _) => destruct b end;
    repeat first [ apply keeps_browser_bind; [|intros ?]
                 | apply keeps_browser_raise
                 | apply keeps_browser_call
                 | apply keeps_browser_throw ].
Qed.

Lemma render_page_keeps_browser opts size clip page :
  keeps_browser (render_page cfg W opts size clip page).
Proof.
  unfold render_page.
  repeat first [ apply keeps_browser_bind; [|intros ?]
               | apply keeps_browser_call
               | apply keeps_browser_call_screenshot
               | apply load_content_keeps_browser ].
  unfold extra_wait. destruct (waitFor opts) as [[n|sel]|];
    first [apply keeps_browser_call | apply keeps_browser_ret].
Qed.

Lemma page_session_keeps_browser {A} (fn : Page -> M A) :
  (forall page, keeps_browser (fn page)) ->
  keeps_browser (page_session cfg W fn).
Proof.
  intros Hfn. unfold page_session.
  repeat first [ apply keeps_browser_bind; [|intros ?]
               | apply keeps_browser_try_finally
               | apply keeps_browser_call
               | apply keeps_browser_fresh_id
               | apply Hfn ].
Qed.

Lemma server_getBrowser_set id st :
  browser st = Some id -> ServerJs.getBrowser W st = (Val (Some id), st).
Proof.
  intros Hb. unfold ServerJs.getBrowser, bind, get_browser. simpl.
  rewrite Hb. simpl. by rewrite Hb.
Qed.

End Handle.

(** The callback asks nothing of the engine process itself. *)
Lemma page_script_page_calls cfg W opts size clip e :
  In e (page_script cfg W opts size clip) ->
  e <> launch /\ e <> contexts_probe /\ e <> sleep 500.
Proof.
  intros He.
  assert (request_event cfg W opts size clip e) as Hr by by right.
  apply request_event_cases in Hr.
  destruct Hr as [Hr|[Hr|[Hr|[Hr|[Hr|[Hr|[Hr|Hr]]]]]]];
    try (subst e; repeat split; discriminate).
  - unfold page_script in He.
    repeat (apply in_app_or in He as [He|He]); simpl in He.
    + destruct He as [<-|[<-|[<-|[]]]]; repeat split; discriminate.
    + apply content_script_cases in He.
      destruct He as [(_ & tpl & markup & _ & _ & ->)|[(_ & _ & ->)|He]];
        [repeat split; discriminate | repeat split; discriminate |].
      destruct He as (_ & _ & _ & _ & _ & ->). repeat split; discriminate.
    + apply wait_script_cases in He.
      destruct He as [[n ->]|(sel & t & ->)]; repeat split; discriminate.
    + destruct He as [<-|[<-|[<-|[]]]]; repeat split; discriminate.
  - apply content_script_cases in Hr.
    destruct Hr as [(_ & tpl & markup & _ & _ & ->)|[(_ & _ & ->)|Hr]];
      [repeat split; discriminate | repeat split; discriminate |].
    destruct Hr as (_ & _ & _ & _ & _ & ->). repeat split; discriminate.
  - apply wait_script_cases in Hr.
    destruct Hr as [[n ->]|(sel & t & ->)]; repeat split; discriminate.
Qed.

(** X3. A [/render] request of src/server.js that finds the shared handle
    set does not write it: followed on its own, with no other request
    running in between, it ends with the handle it found, and it neither
    probes nor launches an engine nor pauses, whatever the engine does in
    between (a handle to a dead engine is not dropped by such a request
    either). *)
Theorem server_request_leaves_found_handle cfg PRESETS W body id st :
  browser st = Some id ->
  browser (snd (ServerJs.render cfg PRESETS W body st)) = Some id /\
  exists evs,
    appended (ServerJs.render cfg PRESETS W body) st evs /\
    Forall (fun e => e <> launch /\ e <> contexts_probe /\ e <> sleep 500) evs.
Proof.
  intros Hb. unfold ServerJs.render, appended. rewrite render_with_unfold.
  destruct (RenderSchema W body) as [opts|];
    [|split; [done | exists []; by rewrite app_nil_r]].
  destruct (requested_size PRESETS opts) as [dims|msg];
    [|split; [done | exists []; simpl; by rewrite app_nil_r]].
  destruct (enforceSize cfg (fst dims) (snd dims)) as [size|msg];
    [|split; [done | exists []; simpl; by rewrite app_nil_r]].
  destruct (resolved_clip PRESETS opts) as [clip|msg];
    [|split; [done | exists []; simpl; by rewrite app_nil_r]].
  unfold ServerJs.withPage.
  rewrite (bind_val _ _ _ _ _ (server_getBrowser_set W id st Hb)).
  pose proof (page_session_keeps_browser cfg W _
                (render_page_keeps_browser cfg W opts size clip) st) as Hkeep.
  assert (emits (fun e => e <> launch /\ e <> contexts_probe /\ e <> sleep 500)
            (page_session cfg W (render_page cfg W opts size clip))) as Hemits.
  { unfold page_session.
    apply emits_bind; [apply emits_call; repeat split; discriminate | intros _].
    apply emits_bind; [apply emits_call; repeat split; discriminate | intros _].
    apply emits_bind; [apply emits_fresh_id | intros page].
    apply emits_bind; [apply emits_call; repeat split; discriminate | intros _].
    apply emits_try_finally.
    - eapply follows_emits; [apply render_page_follows|].
      apply Forall_forall. intros e He%list_elem_of_In.
      by eapply page_script_page_calls.
    - apply emits_bind; [|intros _];
        apply emits_call; repeat split; discriminate. }
  destruct (Hemits st) as (evs & Happ & Hall).
  destruct (page_session cfg W (render_page cfg W opts size clip) st)
    as [[buf|e] st1]; simpl in *.
  - split; [congruence | by exists evs].
  - destruct e as [|msg]; simpl; (split; [congruence | by exists evs]).
Qed.

(** A second request on a healthy engine reuses the handle of the first. *)
Lemma server_request_leaves_found_handle_witness :
  let st1 := snd (ServerJs.render default_config documented_presets
                    healthy_world (html_body "<p>one</p>") initial_state) in
  browser (snd (ServerJs.render default_config documented_presets healthy_world
                  (html_body "<p>two</p>") st1)) = Some 0%nat /\
  exists evs,
    appended (ServerJs.render default_config documented_presets healthy_world
                (html_body "<p>two</p>")) st1 evs /\
    Forall (fun e => e <> launch /\ e <> contexts_probe /\ e <> sleep 500) evs.
Proof.
  exact (server_request_leaves_found_handle default_config documented_presets
           healthy_world (html_body "<p>two</p>") 0%nat
           (snd (ServerJs.render default_config documented_presets
                   healthy_world (html_body "<p>one</p>") initial_state))
           eq_refl).
Defined.


(** ** After a closed browser *)

Lemma retried_ends_paused {A} cfg W (fn : Page -> M A) st msgs s :
  retried cfg W fn st msgs s -> msgs <> [] -> exists st1, s = after_pause st1.
Proof.
  induction 1 as [st|st msg st1 msgs st2 Hatt Hc Hrest IH]; [done|].
  intros _. destruct msgs as [|m msgs].
  - inversion Hrest; subst. by exists st1.
  - by apply IH.
Qed.

(** X5. When [withPage] (src/swagger.js) gives up with an error that
    reports a closed browser, three attempts in a row have failed that way,
    and its last acts were to clear the shared handle and to wait 500 ms: a
    pause after which nothing is retried.  Followed on its own, with no
    other request running in between, the call leaves the handle unset,
    and a [withPage] called next starts by launching an engine. *)
Theorem giving_up_ends_with_a_pause {A} cfg W (fn : Page -> M A) st msg st' :
  SwaggerJs.withPage cfg W fn st = (Throw (JsError msg), st') ->
  SwaggerJs.browser_closed msg = true ->
  (exists msgs,
      List.length msgs = 3%nat /\ last msgs = Some msg /\
      retried cfg W fn st msgs st') /\
  browser st' = None /\
  (exists pre, trace st' = pre ++ [sleep 500]) /\
  (forall B (fn' : Page -> M B),
      callback_ok cfg fn' ->
      exists rest,
        appended (SwaggerJs.withPage cfg W fn') st' (launch :: rest)).
Proof.
  intros Hrun Hclosed.
  assert ((exists msgs,
              List.length msgs = 3%nat /\ last msgs = Some msg /\
              retried cfg W fn st msgs st') /\
          browser st' = None /\ exists pre, trace st' = pre ++ [sleep 500])
    as (Hchain & Hb & Ht).
  { destruct (withPage_loop_policy cfg W fn 3 JsUndefined st)
      as (msgs & s & Hret & [[Hlt Hend]|[Hlen Hend]]).
    - unfold SwaggerJs.withPage in Hrun. rewrite Hrun in Hend.
      destruct (SwaggerJs.attempt cfg W fn s) as [[a|[|msg']] s'].
      + discriminate.
      + injection Hend as Hmsg _. subst msg. vm_compute in Hclosed. discriminate.
      + destruct Hend as [Hc Hend]. injection Hend as Hmsg _. congruence.
    - unfold SwaggerJs.withPage in Hrun. rewrite Hrun in Hend.
      injection Hend as Hlast ->.
      destruct (retried_ends_paused cfg W fn st msgs s Hret) as [st1 ->];
        [by destruct msgs|].
      split; [|split; [done | by exists (trace st1)]].
      exists msgs. split; [done|]. split; [|done].
      unfold final_error in Hlast. destruct (last msgs) as [m|]; congruence. }
  split; [done|]. split; [done|]. split; [done|].
  intros B fn' Hfn'.
  destruct (swagger_attempt_script cfg W fn' st' Hfn') as (rest & Happ & _).
  unfold swagger_handle_script in Happ. rewrite Hb in Happ.
  unfold SwaggerJs.withPage, appended in *.
  rewrite withPage_loop_step.
  destruct (SwaggerJs.attempt cfg W fn' st') as [[a|[|m]] s'];
    cbn [snd] in Happ |- *; try (by exists rest).
  destruct (SwaggerJs.browser_closed m); [|by exists rest].
  destruct (swagger_loop_emits cfg W (fun _ => True) fn' 2 (JsError m)
              ltac:(done)
              (fun page => emits_mono _ _ _ (fun _ _ => I) (Hfn' page))
              (after_pause s')) as (evs & Hevs & _).
  exists (rest ++ sleep 500 :: evs). rewrite Hevs.
  unfold after_pause. cbn [trace]. rewrite Happ.
  by rewrite <- !app_assoc.
Qed.

(** Three lost pages in a row on [page_lost_world]. *)
Lemma giving_up_ends_with_a_pause_witness :
  exists st',
    SwaggerJs.withPage default_config page_lost_world (fun _ => ret tt)
      initial_state
    = (Throw (JsError SwaggerJs.closed_message), st') /\
    browser st' = None /\
    (exists pre, trace st' = pre ++ [sleep 500]).
Proof.
  eexists. split; [vm_compute; reflexivity|].
  destruct (giving_up_ends_with_a_pause default_config page_lost_world
              (fun _ => ret tt) initial_state SwaggerJs.closed_message _
              ltac:(vm_compute; reflexivity) ltac:(vm_compute; reflexivity))
    as (_ & Hb & Ht & _).
  split; [exact Hb | exact Ht].
Defined.

(** ** What the schema guarantees *)

Section SchemaFacts.

Variable W : World.

Lemma check_int_range lo hi q n :
  check_int lo hi q = Some (Some n) -> lo <= n <= hi.
Proof.
  unfold check_int. destruct q as [v|]; [|discriminate].
  destruct (Js.asInt v) as [m|]; [|discriminate].
  destruct (Z.leb_spec lo m), (Z.leb_spec m hi); simpl; try discriminate.
  intros [= <-]. lia.
Qed.

Lemma check_int_absent lo hi q :
  check_int lo hi q = Some None -> q = None.
Proof.
  unfold check_int. destruct q as [v|]; [|done].
  destruct (Js.asInt v) as [m|]; [|discriminate].
  by destruct ((lo <=? m) && (m <=? hi)).
Qed.

Lemma asInt_inject_Z n : Js.asInt (inject_Z n) = Some n.
Proof.
  unfold Js.asInt, inject_Z. simpl. rewrite Z.rem_1_r, Z.quot_1_r. done.
Qed.

Lemma check_int_inject lo hi n :
  lo <= n <= hi -> check_int lo hi (Some (inject_Z n)) = Some (Some n).
Proof.
  intros Hn. unfold check_int. rewrite asInt_inject_Z.
  destruct (Z.leb_spec lo n), (Z.leb_spec n hi); simpl; [done|lia|lia|lia].
Qed.

(** The fields of [parsed.data], one by one. *)
Lemma RenderSchema_fields body opts :
  RenderSchema W body = Some opts ->
  check_url W (b_url body) = Some (url opts) /\
  check_int 1 10000 (b_width body) = Some (width opts) /\
  check_int 1 10000 (b_height body) = Some (height opts) /\
  check_dpr (b_dpr body) = Some (dpr opts) /\
  check_int 1 100 (b_quality body) = Some (quality opts) /\
  check_waitFor (b_waitFor body) = Some (waitFor opts) /\
  check_int 0 60000 (b_timeout body) = Some (timeout opts) /\
  html opts = b_html body /\ templateName opts = b_templateName body /\
  templateData opts = b_templateData body /\
  sizePreset opts = b_sizePreset body /\ clipPreset opts = b_clipPreset body /\
  clip opts = b_clip body /\ css opts = b_css body /\
  format opts = Js.nullish (b_format body) png /\
  fullPage opts = Js.nullish (b_fullPage body) false /\
  omitBackground opts = Js.nullish (b_omitBackground body) false /\
  waitUntil opts = Js.nullish (b_waitUntil body) networkidle.
Proof.
  unfold RenderSchema.
  destruct (check_url W (b_url body)), (check_int 1 10000 (b_width body)),
    (check_int 1 10000 (b_height body)), (check_dpr (b_dpr body)),
    (check_int 1 100 (b_quality body)), (check_waitFor (b_waitFor body)),
    (check_int 0 60000 (b_timeout body)); try discriminate.
  intros [= <-]. simpl. repeat split.
Qed.

End SchemaFacts.

(** X6. What [page.screenshot] is asked, for every request, engine and
    version: the requested format, [fullPage] and [omitBackground] as
    parsed, no [quality] at all for PNG, and for JPEG and WebP the quality
    of the request, or 90 when the request gives none; that number is
    always between 1 and 100. *)
Theorem screenshot_options_follow_the_request cfg PRESETS W body opts st :
  RenderSchema W body = Some opts ->
  exists evs1 evs2,
    appended (ServerJs.render cfg PRESETS W body) st evs1 /\
    appended (SwaggerJs.render cfg PRESETS W body) st evs2 /\
    Forall (capture_event_ok opts) (evs1 ++ evs2).
Proof.
  intros Hs. apply (both_renders_invariant cfg PRESETS W _ body opts st Hs).
  intros size clip e _ He o ->.
  pose proof (request_event_clip cfg W opts size clip _ He) as _.
  apply request_event_cases in He. unfold session_event in He.
  assert (screenshot o = screenshot (screenshotOptions opts clip)) as Ho.
  { destruct He as [He|[He|[He|[He|[He|[He|[He|He]]]]]]]; try discriminate.
    - intuition discriminate.
    - apply content_script_cases in He.
      destruct He as [(_ & tpl & markup & _ & _ & He)|[(_ & _ & He)|He]];
        [discriminate | discriminate | by destruct He as (_ & _ & _ & _ & _ & He)].
    - apply wait_script_cases in He.
      destruct He as [[n He]|(sel & t & He)]; discriminate.
    - done. }
  injection Ho as ->. simpl. repeat split.
  destruct (RenderSchema_fields W body opts Hs) as (_ & _ & _ & _ & Hq & _).
  destruct (format opts); [done| |];
    (split; [done|]; destruct (quality opts) as [q|] eqn:Hquality; simpl;
     [by apply check_int_range in Hq | lia]).
Qed.

(** A JPEG request with quality 55. *)
Lemma screenshot_options_follow_the_request_witness :
  exists evs1 evs2,
    appended (ServerJs.render default_config documented_presets healthy_world
                (jpeg_body "<p>hi</p>" 55)) initial_state evs1 /\
    appended (SwaggerJs.render default_config documented_presets healthy_world
                (jpeg_body "<p>hi</p>" 55)) initial_state evs2 /\
    Forall (capture_event_ok
              (mkOpts (Some "<p>hi</p>") None None None None None None None None
                      None None jpeg (Some 55) true false None None networkidle
                      None None None))
           (evs1 ++ evs2).
Proof.
  exact (screenshot_options_follow_the_request default_config documented_presets
           healthy_world (jpeg_body "<p>hi</p>" 55) _ initial_state eq_refl).
Defined.

(** X7. The top-level navigation of a URL-mode request is never stopped
    by the request's own route handler: whenever [page.goto(u)] is called,
    [u] is the request's [url] and the handler installed on the context
    lets [u] through. *)
Theorem navigation_passes_own_route_handler cfg PRESETS W body opts st :
  RenderSchema W body = Some opts ->
  exists evs1 evs2,
    appended (ServerJs.render cfg PRESETS W body) st evs1 /\
    appended (SwaggerJs.render cfg PRESETS W body) st evs2 /\
    Forall (navigation_ok cfg W opts) (evs1 ++ evs2).
Proof.
  intros Hs. apply (both_renders_invariant cfg PRESETS W _ body opts st Hs).
  intros size clip e _ He u wu ->.
  destruct (request_event_goto cfg W opts size clip _ He)
    as (_ & _ & Hu & Ha & Hw & Heq); [by eexists _, _|].
  injection Heq as -> ->.
  destruct (url opts) as [u|]; [|discriminate]. simpl in *.
  repeat split. unfold routeHandler. rewrite Ha, Hw. simpl.
  destruct (negb (BLOCK_EXTERNAL cfg)); [done|].
  by destruct (Js.startsWith u "data:" || Js.startsWith u "blob:").
Qed.

(** An allowlisted subdomain. *)
Lemma navigation_passes_own_route_handler_witness :
  exists evs1 evs2,
    appended (ServerJs.render wildcard_config documented_presets healthy_world
                (url_body "https://sub.example.com/")) initial_state evs1 /\
    appended (SwaggerJs.render wildcard_config documented_presets healthy_world
                (url_body "https://sub.example.com/")) initial_state evs2 /\
    Forall (navigation_ok wildcard_config healthy_world
              (mkOpts None (Some "https://sub.example.com/") None None None None
                      None None None None None png None false false None None
                      networkidle None None None))
           (evs1 ++ evs2).
Proof.
  exact (navigation_passes_own_route_handler wildcard_config documented_presets
           healthy_world (url_body "https://sub.example.com/") _ initial_state
           eq_refl).
Defined.

(** ** The allowlist *)

Lemma isWhitelisted_no_entries cfg W u :
  ALLOWLIST cfg = [] -> isWhitelisted cfg W u = false.
Proof.
  intros Hal. unfold isWhitelisted. rewrite Hal.
  destruct (hostnameOf W u) as [h|]; [|done]. by destruct (String.eqb h "").
Qed.

(** X8. With no allowlist entries nothing is allowlisted: no URL passes
    [isWhitelisted], the route handler of a blocking configuration lets
    through [data:] and [blob:] URLs only, and every URL-mode request is
    refused without a navigation, whether URL rendering is enabled or not. *)
Theorem no_entries_no_url_rendering cfg PRESETS W body opts u st :
  ALLOWLIST cfg = [] ->
  RenderSchema W body = Some opts ->
  url_mode opts u ->
  (forall u', isWhitelisted cfg W u' = false) /\
  (BLOCK_EXTERNAL cfg = true ->
   forall u', routeHandler cfg W u' = route_continue <->
              Js.startsWith u' "data:" = true \/ Js.startsWith u' "blob:" = true) /\
  exists text1 text2 evs1 evs2,
    fst (ServerJs.render cfg PRESETS W body st) = Val (Json400 text1) /\
    fst (SwaggerJs.render cfg PRESETS W body st) = Val (Json400 text2) /\
    appended (ServerJs.render cfg PRESETS W body) st evs1 /\
    appended (SwaggerJs.render cfg PRESETS W body) st evs2 /\
    Forall (fun e => ~ is_goto e) (evs1 ++ evs2).
Proof.
  intros Hal Hs Hmode.
  pose proof (fun u' => isWhitelisted_no_entries cfg W u' Hal) as Hnone.
  split; [done|]. split.
  - intros Hblock u'. unfold routeHandler. rewrite Hblock, Hnone. simpl.
    rewrite andb_false_r.
    destruct (Js.startsWith u' "data:"), (Js.startsWith u' "blob:"); simpl;
      intuition congruence.
  - assert (fails (load_content cfg W opts)) as Hfail.
    { destruct (ALLOW_URL cfg) eqn:Ha.
      - eapply fails_of_throw. intros st0.
        by apply (load_content_not_allowlisted cfg W opts u).
      - eapply fails_of_throw. intros st0.
        by apply (load_content_url_disabled cfg W opts u). }
    assert (Js.nullish (url opts) "" = u) as Hu
      by (destruct Hmode as (_ & _ & -> & _); done).
    destruct (render_with_content_failure cfg PRESETS W _ (server_wrapper_ok cfg W)
                body opts st Hs Hfail) as [text1 H1].
    destruct (render_with_content_failure cfg PRESETS W _ (swagger_wrapper_ok cfg W)
                body opts st Hs Hfail) as [text2 H2].
    destruct (render_with_never_navigates cfg PRESETS W _ body opts st
                (server_wrapper_ok cfg W) Hs) as (evs1 & Ha1 & Hf1);
      [rewrite Hu; auto|].
    destruct (render_with_never_navigates cfg PRESETS W _ body opts st
                (swagger_wrapper_ok cfg W) Hs) as (evs2 & Ha2 & Hf2);
      [rewrite Hu; auto|].
    exists text1, text2, evs1, evs2. repeat split; try done. by apply Forall_app.
Qed.

(** URL rendering switched on, [ALLOWLIST_DOMAINS] left empty. *)
Lemma no_entries_no_url_rendering_witness :
  exists text1 text2 evs1 evs2,
    fst (ServerJs.render no_allowlist_config documented_presets healthy_world
           (url_body "https://example.com/") initial_state) = Val (Json400 text1) /\
    fst (SwaggerJs.render no_allowlist_config documented_presets healthy_world
           (url_body "https://example.com/") initial_state) = Val (Json400 text2) /\
    appended (ServerJs.render no_allowlist_config documented_presets healthy_world
                (url_body "https://example.com/")) initial_state evs1 /\
    appended (SwaggerJs.render no_allowlist_config documented_presets
                healthy_world (url_body "https://example.com/"))
             initial_state evs2 /\
    Forall (fun e => ~ is_goto e) (evs1 ++ evs2).
Proof.
  exact (proj2 (proj2
           (no_entries_no_url_rendering no_allowlist_config documented_presets
              healthy_world (url_body "https://example.com/") _
              "https://example.com/" initial_state eq_refl eq_refl
              ltac:(repeat split; discriminate)))).
Defined.

(** X9. Adding allowlist entries never revokes anything: a URL that is
    allowlisted under one list is allowlisted under every list that
    contains its entries, and a request the route handler lets through
    under the smaller list is let through under the larger one. *)
Theorem allowlist_grows_monotonically cfg cfg' W u :
  incl (ALLOWLIST cfg) (ALLOWLIST cfg') ->
  BLOCK_EXTERNAL cfg' = BLOCK_EXTERNAL cfg ->
  ALLOW_URL cfg' = ALLOW_URL cfg ->
  (isWhitelisted cfg W u = true -> isWhitelisted cfg' W u = true) /\
  (routeHandler cfg W u = route_continue ->
   routeHandler cfg' W u = route_continue).
Proof.
  intros Hincl Hblock Hallow.
  assert (isWhitelisted cfg W u = true -> isWhitelisted cfg' W u = true) as Hmono.
  { rewrite !isWhitelisted_spec. intros (h & p & Hh & Hne & Hin & Hm).
    exists h, p. repeat split; auto. }
  split; [done|]. unfold routeHandler. rewrite Hblock, Hallow.
  destruct (negb (BLOCK_EXTERNAL cfg)); [done|].
  destruct (Js.startsWith u "data:" || Js.startsWith u "blob:"); [done|].
  destruct (ALLOW_URL cfg); simpl; [|done].
  destruct (isWhitelisted cfg W u); [|done]. by rewrite Hmono.
Qed.

(** Adding [example.org] to [*.example.com] keeps the subdomains. *)
Lemma allowlist_grows_monotonically_witness :
  isWhitelisted wider_config healthy_world "https://sub.example.com/" = true /\
  routeHandler wider_config healthy_world "https://sub.example.com/"
  = route_continue.
Proof.
  destruct (allowlist_grows_monotonically wildcard_config wider_config
              healthy_world "https://sub.example.com/") as [H1 H2].
  - intros p [<-|[]]. simpl. auto.
  - reflexivity.
  - reflexivity.
  - split; [apply H1 | apply H2]; reflexivity.
Defined.

(** ** Sizes *)

Lemma orZ_nonzero n d : d <> 0 -> Js.orZ n d <> 0.
Proof.
  intros Hd. unfold Js.orZ. destruct n as [v|]; [|done].
  by destruct (Z.eqb_spec v 0).
Qed.

(** X10. [enforceSize] is idempotent and its result is inside every
    limit: what it returns is at most [MAX_WIDTH] wide, at most
    [MAX_HEIGHT] high and at most [MAX_PIXELS] large, and passing the
    returned size through it again returns the same size. *)
Theorem enforceSize_is_idempotent cfg width height size :
  enforceSize cfg width height = Success size ->
  size_width size <= MAX_WIDTH cfg /\
  size_height size <= MAX_HEIGHT cfg /\
  size_width size * size_height size <= MAX_PIXELS cfg /\
  enforceSize cfg (Some (size_width size)) (Some (size_height size)) = Success size.
Proof.
  intros He. destruct (enforceSize_success cfg width height size He)
    as (Hw & Hh & Hpx).
  pose proof (orZ_nonzero width 1200 ltac:(lia)) as Hxw.
  pose proof (orZ_nonzero height 630 ltac:(lia)) as Hxh.
  split; [lia|]. split; [lia|]. split; [done|].
  assert (Z.min (Js.orZ (Some (size_width size)) 1200) (MAX_WIDTH cfg)
          = size_width size) as Hcw.
  { unfold Js.orZ at 1. destruct (Z.eqb_spec (size_width size) 0); lia. }
  assert (Z.min (Js.orZ (Some (size_height size)) 630) (MAX_HEIGHT cfg)
          = size_height size) as Hch.
  { unfold Js.orZ at 1. destruct (Z.eqb_spec (size_height size) 0); lia. }
  rewrite enforceSize_within_budget; rewrite Hcw, Hch; [by destruct size | done].
Qed.

(** 5000 x 3000 is clamped to 4000 x 3000, which is a fixed point. *)
Lemma enforceSize_is_idempotent_witness :
  4000 <= 4000 /\ 3000 <= 4000 /\ 4000 * 3000 <= 14000000 /\
  enforceSize default_config (Some 4000) (Some 3000) = Success (mkSize 4000 3000).
Proof.
  exact (enforceSize_is_idempotent default_config (Some 5000) (Some 3000)
           (mkSize 4000 3000) eq_refl).
Defined.

(** ** The schema *)

Lemma check_dpr_range d d' :
  check_dpr d = Some (Some d') -> d = Some d' /\ (1 # 2 <= d')%Q /\ (d' <= 4)%Q.
Proof.
  unfold check_dpr. destruct d as [v|]; [|discriminate].
  destruct (Qle_bool (1 # 2) v) eqn:H1, (Qle_bool v 4) eqn:H2; simpl;
    try discriminate.
  intros [= <-]. apply Qle_bool_iff in H1, H2. auto.
Qed.

Lemma check_waitFor_range w n :
  check_waitFor w = Some (Some (WaitMs n)) -> 0 <= n <= 30000.
Proof.
  unfold check_waitFor. destruct w as [[q|s]|]; [|discriminate|discriminate].
  destruct (check_int 0 30000 (Some q)) as [[m|]|] eqn:Hc; try discriminate.
  intros [= <-]. by apply check_int_range in Hc.
Qed.

Lemma check_url_parses W u u' :
  check_url W u = Some (Some u') -> u = Some u' /\ is_Some (hostnameOf W u').
Proof.
  unfold check_url. destruct u as [s|]; [|discriminate].
  destruct (hostnameOf W s) as [h|] eqn:Hh; [|discriminate].
  intros [= <-]. rewrite Hh. eauto.
Qed.

(** X11. Every request the schema accepts is inside its ranges: [width]
    and [height] between 1 and 10000, [quality] between 1 and 100,
    [timeout] between 0 and 60000, a numeric [waitFor] between 0 and 30000,
    [dpr] between 0.5 and 4, and a [url] that the URL parser accepts. *)
Theorem RenderSchema_enforces_ranges W body opts :
  RenderSchema W body = Some opts -> in_schema_ranges W opts.
Proof.
  intros Hs.
  destruct (RenderSchema_fields W body opts Hs)
    as (Hu & Hw & Hh & Hd & Hq & Hwf & Ht & _).
  unfold in_schema_ranges.
  split; [intros w Hw'; rewrite Hw' in Hw; by apply check_int_range in Hw|].
  split; [intros h Hh'; rewrite Hh' in Hh; by apply check_int_range in Hh|].
  split; [intros q Hq'; rewrite Hq' in Hq; by apply check_int_range in Hq|].
  split; [intros t Ht'; rewrite Ht' in Ht; by apply check_int_range in Ht|].
  split; [intros n Hn; rewrite Hn in Hwf; by apply check_waitFor_range in Hwf|].
  split; [intros d Hd'; rewrite Hd' in Hd; apply check_dpr_range in Hd; tauto|].
  intros u Hu'. rewrite Hu' in Hu. apply check_url_parses in Hu. tauto.
Qed.

(** The request with all three sources, a numeric [waitFor] and a format. *)
Lemma RenderSchema_enforces_ranges_witness :
  exists opts,
    RenderSchema card_world all_sources_body = Some opts /\
    in_schema_ranges card_world opts.
Proof.
  eexists. split; [reflexivity|].
  exact (RenderSchema_enforces_ranges card_world all_sources_body _ eq_refl).
Defined.

Lemma check_int_option lo hi (o : option Z) :
  (forall n, o = Some n -> lo <= n <= hi) ->
  check_int lo hi (option_map inject_Z o) = Some o.
Proof.
  intros Hr. destruct o as [n|]; [|done]. simpl.
  apply check_int_inject. by apply Hr.
Qed.

(** X12. Parsing is stable: when the schema accepts a body, the parsed
    data written out again as a body (defaults now explicit) is accepted
    too and parses to the same data. *)
Theorem RenderSchema_round_trip W body opts :
  RenderSchema W body = Some opts ->
  RenderSchema W (body_of_opts opts) = Some opts.
Proof.
  intros Hs.
  destruct (RenderSchema_enforces_ranges W body opts Hs)
    as (Hw & Hh & Hq & Ht & Hwf & Hd & Hu).
  unfold RenderSchema, body_of_opts. simpl.
  rewrite (check_int_option 1 10000 _ Hw), (check_int_option 1 10000 _ Hh),
    (check_int_option 1 100 _ Hq), (check_int_option 0 60000 _ Ht).
  assert (check_url W (url opts) = Some (url opts)) as ->.
  { unfold check_url. destruct (url opts) as [u|]; [|done].
    by destruct (Hu u eq_refl) as [h ->]. }
  assert (check_dpr (dpr opts) = Some (dpr opts)) as ->.
  { unfold check_dpr. destruct (dpr opts) as [d|]; [|done].
    destruct (Hd d eq_refl) as [H1 H2].
    apply Qle_bool_iff in H1, H2. by rewrite H1, H2. }
  assert (check_waitFor
            match waitFor opts with
            | Some (WaitMs n) => Some (RawWaitNum (inject_Z n))
            | Some (WaitSelector sel) => Some (RawWaitStr sel)
            | None => None
            end = Some (waitFor opts)) as ->.
  { destruct (waitFor opts) as [[n|sel]|] eqn:Hwait; [|done|done].
    unfold check_waitFor. by rewrite (check_int_inject 0 30000 n (Hwf n eq_refl)). }
  by destruct opts.
Qed.

(** The request with all three sources parses to a fixed point. *)
Lemma RenderSchema_round_trip_witness :
  exists opts,
    RenderSchema card_world all_sources_body = Some opts /\
    RenderSchema card_world (body_of_opts opts) = Some opts.
Proof.
  eexists. split; [reflexivity|].
  exact (RenderSchema_round_trip card_world all_sources_body _ eq_refl).
Defined.

(** X13. A request sized by its own [width] and [height] (no size preset)
    always gets a positive viewport: under limits of at least 1 x 1, every
    [page.setViewportSize] call asks for a width between 1 and [MAX_WIDTH],
    a height between 1 and [MAX_HEIGHT] and at most [MAX_PIXELS] pixels. *)
Theorem schema_sized_viewport_is_positive cfg PRESETS W body opts st :
  RenderSchema W body = Some opts ->
  Js.truthy (sizePreset opts) = false ->
  1 <= MAX_WIDTH cfg ->
  1 <= MAX_HEIGHT cfg ->
  exists evs1 evs2,
    appended (ServerJs.render cfg PRESETS W body) st evs1 /\
    appended (SwaggerJs.render cfg PRESETS W body) st evs2 /\
    Forall (viewport_in_limits cfg) (evs1 ++ evs2).
Proof.
  intros Hs Hp Hmw Hmh.
  destruct (RenderSchema_enforces_ranges W body opts Hs) as (Hw & Hh & _).
  apply (both_renders_invariant cfg PRESETS W _ body opts st Hs).
  intros size clip e (dims & Hr & He & _) Hev w h ->.
  destruct (request_event_viewport cfg W opts size clip _ Hev w h eq_refl)
    as [-> ->].
  unfold requested_size in Hr. rewrite Hp in Hr. injection Hr as <-.
  destruct (enforceSize_success cfg _ _ _ He) as (Hsw & Hsh & Hpx). simpl in *.
  assert (1 <= Js.orZ (width opts) 1200) as H1.
  { unfold Js.orZ. destruct (width opts) as [v|]; [|lia].
    specialize (Hw v eq_refl). destruct (Z.eqb_spec v 0); lia. }
  assert (1 <= Js.orZ (height opts) 630) as H2.
  { unfold Js.orZ. destruct (height opts) as [v|]; [|lia].
    specialize (Hh v eq_refl). destruct (Z.eqb_spec v 0); lia. }
  lia.
Qed.

(** 5000 x 3000 requested under the default limits. *)
Lemma schema_sized_viewport_is_positive_witness :
  exists evs1 evs2,
    appended (ServerJs.render default_config documented_presets healthy_world
                (sized_body "<p>hi</p>" 5000 3000)) initial_state evs1 /\
    appended (SwaggerJs.render default_config documented_presets healthy_world
                (sized_body "<p>hi</p>" 5000 3000)) initial_state evs2 /\
    Forall (viewport_in_limits default_config) (evs1 ++ evs2).
Proof.
  apply (schema_sized_viewport_is_positive default_config documented_presets
           healthy_world (sized_body "<p>hi</p>" 5000 3000) _ initial_state
           eq_refl eq_refl); simpl; lia.
Defined.

(** ** CSS injection *)

Module CssFacts.

Lemma append_assoc (a b c : string) : (a +:+ b) +:+ c = a +:+ (b +:+ c).
Proof.
  induction a as [|x a IH]; [reflexivity|].
  change (String x ((a +:+ b) +:+ c) = String x (a +:+ (b +:+ c))).
  by rewrite IH.
Qed.

Lemma substring_empty n m : String.substring n m "" = "".
Proof. by destruct n, m. Qed.

Lemma substring_add n a b s :
  String.substring n (a + b) s
  = String.substring n a s +:+ String.substring (n + a) b s.
Proof.
  revert n a. induction s as [|c s IH]; intros n a.
  - by rewrite !substring_empty.
  - destruct n as [|n]; simpl.
    + destruct a as [|a]; simpl; [done|]. by rewrite (IH 0%nat a).
    + apply IH.
Qed.

Lemma substring_length_le n m s :
  (String.length (String.substring n m s) <= String.length s - n)%nat.
Proof.
  revert n m. induction s as [|c s IH]; intros n m.
  - rewrite substring_empty. simpl. lia.
  - destruct n as [|n]; simpl.
    + destruct m as [|m]; simpl; [lia|]. specialize (IH 0%nat m). lia.
    + apply IH.
Qed.

(** A string around the occurrence of [pat] that [index] reports. *)
Lemma index_decompose pat s i :
  (0 < String.length pat)%nat ->
  String.index 0 pat s = Some i ->
  s = String.substring 0 i s +:+ pat +:+ Js.slice (i + String.length pat) s.
Proof.
  intros Hpat Hi. apply index_correct1 in Hi.
  pose proof (substring_length_le i (String.length pat) s) as Hlen.
  rewrite Hi in Hlen.
  rewrite <- (JsFacts.substring_all s) at 1.
  replace (String.length s)
    with (i + (String.length pat + (String.length s - (i + String.length pat))))%nat
    by lia.
  rewrite substring_add. simpl. rewrite substring_add, Hi. done.
Qed.

Lemma no_dollar_append a b :
  no_dollar (a +:+ b) = no_dollar a && no_dollar b.
Proof.
  induction a as [|c a IH]; [reflexivity|].
  change (negb (Ascii.eqb c "$") && no_dollar (a +:+ b)
          = negb (Ascii.eqb c "$") && no_dollar a && no_dollar b).
  rewrite IH. by rewrite andb_assoc.
Qed.

Lemma expand_no_dollar repl before matched after :
  no_dollar repl = true -> Js.expand repl before matched after = repl.
Proof.
  induction repl as [|c r IH]; simpl; [done|].
  destruct (Ascii.eqb c "$"); simpl; [discriminate|].
  intros Hr. by rewrite IH.
Qed.

End CssFacts.

(** X14. CSS injection leaves the markup alone when there is nothing to
    inject or nowhere to put it: with [css] absent or empty, or with no
    [</head>] in the markup, the markup handed to the page is the markup
    itself (the [css] is then silently dropped). *)
Theorem css_injection_is_a_no_op_without_head opts markup :
  Js.truthy (css opts) = false \/ String.index 0 "</head>" markup = None ->
  inject_css opts markup = markup.
Proof.
  intros [Hcss|Hhead]; unfold inject_css.
  - by rewrite Hcss.
  - destruct (Js.truthy (css opts)); [|done]. unfold Js.replace. by rewrite Hhead.
Qed.

(** A fragment without a head element. *)
Lemma css_injection_is_a_no_op_without_head_witness :
  inject_css (styled_opts "<p>hi</p>" "p{color:red}") "<p>hi</p>" = "<p>hi</p>".
Proof.
  apply css_injection_is_a_no_op_without_head. right. reflexivity.
Defined.

(** X15. A [css] without [$] is inserted verbatim, as a [style] element
    directly before the first [</head>] of the markup: the markup is
    [before </head> after] around that first occurrence, and what the page
    gets is [before <style>css</style></head> after]. *)
Theorem css_is_inserted_before_the_first_head_close opts markup style i :
  css opts = Some style ->
  style <> "" ->
  no_dollar style = true ->
  String.index 0 "</head>" markup = Some i ->
  let before := String.substring 0 i markup in
  let after := Js.slice (i + 7) markup in
  markup = before +:+ "</head>" +:+ after /\
  inject_css opts markup
  = before +:+ "<style>" +:+ style +:+ "</style></head>" +:+ after /\
  (forall j, (j < i)%nat -> String.substring j 7 markup <> "</head>").
Proof.
  intros Hcss Hne Hdollar Hi before after.
  split; [exact (CssFacts.index_decompose "</head>" markup i ltac:(simpl; lia) Hi)|].
  split.
  - unfold inject_css. rewrite Hcss. simpl.
    destruct (String.eqb_spec style ""); [done|]. simpl.
    unfold Js.replace. rewrite Hi.
    rewrite CssFacts.expand_no_dollar.
    + fold before. change (String.length "</head>") with 7%nat. fold after.
      change ("<style>" +:+ style +:+ "</style></head>")
        with ("<style>" +:+ (style +:+ "</style></head>")).
      by rewrite !CssFacts.append_assoc.
    + change ("<style>" +:+ style +:+ "</style></head>")
        with ("<style>" +:+ (style +:+ "</style></head>")).
      rewrite !CssFacts.no_dollar_append, Hdollar. reflexivity.
  - intros j Hj. apply (index_correct2 _ _ _ _ Hi j); lia.
Qed.

(** A style sheet injected into a page with an empty head. *)
Lemma css_is_inserted_before_the_first_head_close_witness :
  inject_css (styled_opts "" "body{margin:0}")
    "<html><head></head><body>card</body></html>"
  = "<html><head><style>body{margin:0}</style></head><body>card</body></html>".
Proof.
  exact (proj1 (proj2
    (css_is_inserted_before_the_first_head_close
       (styled_opts "" "body{margin:0}")
       "<html><head></head><body>card</body></html>" "body{margin:0}" 12%nat
       eq_refl ltac:(discriminate) eq_refl eq_refl))).
Defined.

(** With a [$] in it the style sheet is rewritten on the way in: [$&]
    becomes the matched [</head>]. *)
Example css_with_dollar_is_rewritten :
  inject_css (styled_opts "" "a:after{content:'$&'}") "<head></head>"
  = "<head><style>a:after{content:'</head>'}</style></head>".
Proof. reflexivity. Qed.

(** ** Switches *)

Lemma is_true_spec s :
  Env.is_true s = true <->
  exists a b c d,
    s = String a (String b (String c (String d EmptyString))) /\
    (a = "t" \/ a = "T")%char /\ (b = "r" \/ b = "R")%char /\
    (c = "u" \/ c = "U")%char /\ (d = "e" \/ d = "E")%char.
Proof.
  split.
  - destruct s as [|a [|b [|c [|d [|x s]]]]]; try discriminate. simpl.
    rewrite !andb_true_iff, !orb_true_iff, !Ascii.eqb_eq. intros Hs.
    exists a, b, c, d. tauto.
  - intros (a & b & c & d & -> & Ha & Hb & Hc & Hd). simpl.
    rewrite !andb_true_iff, !orb_true_iff, !Ascii.eqb_eq. tauto.
Qed.

(** X16. The two switches are on only for the word [true] in any
    capitalisation.  [BLOCK_EXTERNAL] is on when unset, empty or [true];
    any other value, such as [1], [yes] or [true] with a space, switches
    blocking off, and the route handler then lets every request through.
    [ALLOW_URL] is on only when set to [true]. *)
Theorem switches_accept_only_true :
  (forall v, Env.BLOCK_EXTERNAL v = true <->
             v = None \/ v = Some "" \/ exists s, v = Some s /\ Env.is_true s = true) /\
  (forall v, Env.ALLOW_URL v = true <-> exists s, v = Some s /\ Env.is_true s = true) /\
  (forall s, Env.is_true s = true <->
             exists a b c d,
               s = String a (String b (String c (String d EmptyString))) /\
               (a = "t" \/ a = "T")%char /\ (b = "r" \/ b = "R")%char /\
               (c = "u" \/ c = "U")%char /\ (d = "e" \/ d = "E")%char) /\
  (forall cfg W s u,
      BLOCK_EXTERNAL cfg = Env.BLOCK_EXTERNAL (Some s) ->
      s <> "" -> Env.is_true s = false ->
      routeHandler cfg W u = route_continue) /\
  Env.is_true "TRUE" = true /\ Env.is_true "1" = false /\
  Env.is_true "yes" = false /\ Env.is_true "true " = false.
Proof.
  split; [|split; [|split; [|split]]].
  - intros v. unfold Env.BLOCK_EXTERNAL, Env.or_default.
    destruct v as [s|]; [|by intuition].
    destruct (String.eqb_spec s "") as [->|Hne].
    + split; [auto|]. done.
    + split.
      * intros Ht. right. right. by exists s.
      * intros [?|[[= ?]|(s' & [= <-] & Ht)]]; [done|done|done].
  - intros v. unfold Env.ALLOW_URL, Env.or_default.
    destruct v as [s|].
    + destruct (String.eqb_spec s "") as [->|Hne].
      * split; [done|]. by intros (s' & [= <-] & Ht).
      * split; [intros Ht; by exists s | by intros (s' & [= <-] & Ht)].
    + split; [done|]. by intros (s' & ? & _).
  - apply is_true_spec.
  - intros cfg W s u Hb Hne Hf. unfold routeHandler. rewrite Hb.
    unfold Env.BLOCK_EXTERNAL, Env.or_default.
    destruct (String.eqb_spec s ""); [done|]. by rewrite Hf.
  - repeat split.
Qed.

(** ** The template cache *)

Section CacheFacts.

Context {Compiled : Type}.
Variable compile : string -> Compiled.
Variable template_file : string -> string.
Variable readFileSync : list string -> string -> Try string.

Local Abbreviation getTemplate dev :=
  (TemplateCache.getTemplate dev Compiled compile template_file readFileSync).
Local Abbreviation after_calls dev :=
  (TemplateCache.after_calls dev Compiled compile template_file readFileSync).

Lemma getTemplate_hit name st c :
  TemplateCache.templateCache _ st !! name = Some c ->
  getTemplate false name st = (Success c, st).
Proof. intros Hc. unfold TemplateCache.getTemplate. by rewrite Hc. Qed.

Lemma getTemplate_success_cached name st c st1 :
  getTemplate false name st = (Success c, st1) ->
  TemplateCache.templateCache _ st1 !! name = Some c.
Proof.
  unfold TemplateCache.getTemplate.
  destruct (TemplateCache.templateCache _ st !! name) as [c'|] eqn:Hc.
  - intros [= <- <-]. done.
  - destruct (readFileSync _ _) as [tpl|msg]; [|done].
    intros [= <- <-]. simpl. apply lookup_insert_eq.
Qed.

(** One more call: a cached entry stays, and a read is made only for a
    name that was not cached. *)
Lemma getTemplate_keeps_entry name c name' st :
  TemplateCache.templateCache _ st !! name = Some c ->
  TemplateCache.templateCache _ (snd (getTemplate false name' st)) !! name = Some c /\
  exists more,
    TemplateCache.reads _ (snd (getTemplate false name' st))
    = TemplateCache.reads _ st ++ more /\
    Forall (fun f => name' <> name /\ f = template_file name') more.
Proof.
  intros Hc. unfold TemplateCache.getTemplate.
  destruct (decide (name' = name)) as [->|Hne].
  { rewrite Hc. simpl. split; [done|]. exists []. by rewrite app_nil_r. }
  destruct (TemplateCache.templateCache _ st !! name') as [c'|].
  { simpl. split; [done|]. exists []. by rewrite app_nil_r. }
  destruct (readFileSync _ _) as [tpl|msg]; simpl.
  - split; [by rewrite lookup_insert_ne|]. eexists. split; [done|].
    by repeat constructor.
  - split; [done|]. eexists. split; [done|]. by repeat constructor.
Qed.

Lemma after_calls_keeps_entry name c names st :
  TemplateCache.templateCache _ st !! name = Some c ->
  TemplateCache.templateCache _ (after_calls false names st) !! name = Some c /\
  exists more,
    TemplateCache.reads _ (after_calls false names st)
    = TemplateCache.reads _ st ++ more /\
    Forall (fun f => exists name', In name' names /\ name' <> name /\
                                   f = template_file name') more.
Proof.
  revert st. induction names as [|name' names IH]; intros st Hc; simpl.
  { split; [done|]. exists []. by rewrite app_nil_r. }
  destruct (getTemplate_keeps_entry name c name' st Hc) as (Hc1 & more1 & Hr1 & Hall1).
  destruct (IH _ Hc1) as (Hc2 & more2 & Hr2 & Hall2).
  split; [exact Hc2|]. exists (more1 ++ more2). split.
  - rewrite Hr2, Hr1. by rewrite app_assoc.
  - apply Forall_app. split.
    + eapply Forall_impl; [exact Hall1|]. intros f [Hne ->]. exists name'. auto.
    + eapply Forall_impl; [exact Hall2|]. intros f (n & Hin & Hne & ->).
      exists n. auto.
Qed.

(** X17. In production a template that was loaded once is served from the
    cache from then on: whatever other templates are requested in between,
    a further call for the same name returns the same compiled template,
    reads no file and leaves the store as it is (so a later edit of the
    file is not seen), and every file read in between was read for a
    request of another name. *)
Theorem cached_template_is_served_again name st c st1 names :
  TemplateCache.getTemplate false Compiled compile template_file readFileSync name st
  = (Success c, st1) ->
  let st2 := TemplateCache.after_calls false Compiled compile template_file
               readFileSync names st1 in
  TemplateCache.getTemplate false Compiled compile template_file readFileSync name st2
  = (Success c, st2) /\
  exists more,
    TemplateCache.reads _ st2 = TemplateCache.reads _ st1 ++ more /\
    Forall (fun f => exists name', In name' names /\ name' <> name /\
                                   f = template_file name') more.
Proof.
  intros Hfirst st2.
  apply getTemplate_success_cached in Hfirst.
  destruct (after_calls_keeps_entry name c names st1 Hfirst) as [Hc Hreads].
  split; [|exact Hreads]. by apply getTemplate_hit.
Qed.

(** X18. In development mode nothing is ever cached: any sequence of calls
    leaves the cache as it was, reads the template file once per call, in
    the order of the calls, and each call returns what the file system
    gives at that moment. *)
Theorem development_mode_always_reads names st :
  let st' := TemplateCache.after_calls true Compiled compile template_file
               readFileSync names st in
  TemplateCache.templateCache _ st' = TemplateCache.templateCache _ st /\
  TemplateCache.reads _ st' = TemplateCache.reads _ st ++ List.map template_file names /\
  forall name,
    fst (TemplateCache.getTemplate true Compiled compile template_file
           readFileSync name st')
    = match readFileSync (TemplateCache.reads _ st') (template_file name) with
      | Success tpl => Success (compile tpl)
      | Failure message => Failure message
      end.
Proof.
  simpl. split; [|split].
  - revert st. induction names as [|n names IH]; intros st; simpl; [done|].
    rewrite IH. unfold TemplateCache.getTemplate.
    by destruct (readFileSync _ _).
  - revert st. induction names as [|n names IH]; intros st; simpl.
    + by rewrite app_nil_r.
    + rewrite IH. unfold TemplateCache.getTemplate.
      destruct (readFileSync _ _); simpl; by rewrite <- app_assoc.
  - intros name. unfold TemplateCache.getTemplate.
    by destruct (readFileSync _ _).
Qed.

(** X19. A load that fails is not remembered: in production a call that
    throws leaves the cache unchanged with no entry for the name, having
    read the file once, and the next call for that name reads the file
    again and returns what it holds then. *)
Theorem failed_load_is_not_cached name st message st1 :
  TemplateCache.getTemplate false Compiled compile template_file readFileSync name st
  = (Failure message, st1) ->
  TemplateCache.templateCache _ st1 = TemplateCache.templateCache _ st /\
  TemplateCache.templateCache _ st !! name = None /\
  TemplateCache.reads _ st1 = TemplateCache.reads _ st ++ [template_file name] /\
  let next := TemplateCache.getTemplate false Compiled compile template_file
                readFileSync name st1 in
  fst next = match readFileSync (TemplateCache.reads _ st1) (template_file name) with
             | Success tpl => Success (compile tpl)
             | Failure message' => Failure message'
             end /\
  TemplateCache.reads _ (snd next)
  = TemplateCache.reads _ st ++ [template_file name; template_file name].
Proof.
  unfold TemplateCache.getTemplate at 1.
  destruct (TemplateCache.templateCache _ st !! name) as [c|] eqn:Hc; [done|].
  destruct (readFileSync _ _) as [tpl|msg] eqn:Hread; [done|].
  intros [= -> <-]. simpl. repeat split.
  - unfold TemplateCache.getTemplate. simpl. rewrite Hc.
    destruct (readFileSync (_ ++ _) _); reflexivity.
  - unfold TemplateCache.getTemplate. simpl. rewrite Hc.
    destruct (readFileSync (_ ++ _) _); simpl; by rewrite <- app_assoc.
Qed.

End CacheFacts.

(** Two loads of [card] with a load of [badge] in between, from an empty
    store, while the files change at every read. *)
Lemma cached_template_is_served_again_witness :
  let template_file := fun name => "templates/html/" +:+ name +:+ ".hbs" in
  let get := TemplateCache.getTemplate false string (fun tpl => tpl) template_file
               changing_files in
  let st1 := snd (get "card" (TemplateCache.mkStore string ∅ [])) in
  let st2 := TemplateCache.after_calls false string (fun tpl => tpl) template_file
               changing_files ["badge"; "card"] st1 in
  get "card" st2 = (Success "0", st2) /\
  exists more,
    TemplateCache.reads _ st2 = TemplateCache.reads _ st1 ++ more /\
    Forall (fun f => exists name', In name' ["badge"; "card"] /\ name' <> "card" /\
                                   f = template_file name') more.
Proof.
  exact (cached_template_is_served_again (fun tpl => tpl)
           (fun name => "templates/html/" +:+ name +:+ ".hbs") changing_files
           "card" (TemplateCache.mkStore string ∅ []) "0" _ ["badge"; "card"] eq_refl).
Defined.

(** A template directory that cannot be read. *)
Lemma failed_load_is_not_cached_witness :
  let template_file := fun name => "templates/html/" +:+ name +:+ ".hbs" in
  let readFileSync := fun (_ : list string) (_ : string) =>
                        @Failure string "ENOENT: no such file or directory" in
  let st := TemplateCache.mkStore string ∅ [] in
  let st1 := snd (TemplateCache.getTemplate false string (fun tpl => tpl)
                    template_file readFileSync "card" st) in
  TemplateCache.templateCache _ st1 = ∅ /\
  TemplateCache.reads _ st1 = ["templates/html/card.hbs"].
Proof.
  pose proof (failed_load_is_not_cached (fun tpl => tpl)
           (fun name => "templates/html/" +:+ name +:+ ".hbs")
           (fun _ _ => @Failure string "ENOENT: no such file or directory")
           "card" (TemplateCache.mkStore string ∅ [])
           "ENOENT: no such file or directory" _ eq_refl) as (Hc & _ & Hr & _).
  split; [exact Hc | exact Hr].
Defined.

(** ** [POST /render-html] next to [POST /render] *)



(** ** Template names *)

Lemma append_empty_r (s : string) : s +:+ "" = s.
Proof.
  induction s as [|c s IH]; [done|].
  change (String c (s +:+ "") = String c s). by rewrite IH.
Qed.

Lemma substring_nothing n s : String.substring n 0 s = "".
Proof. revert n. induction s as [|c s IH]; intros [|n]; simpl; auto. Qed.

(** X21. A template file whose name holds [.hbs] only as its ending is
    offered by the template list under a name from which [getTemplate]
    builds that file's name again. *)
Theorem listed_template_opens_its_file files f :
  In f files ->
  String.index 0 ".hbs" f = Some (String.length f - 4)%nat ->
  In (Js.replace f ".hbs" "") (template_names files) /\
  template_file_name (Js.replace f ".hbs" "") = f.
Proof.
  intros Hin Hi.
  pose proof (CssFacts.index_decompose ".hbs" f _ ltac:(simpl; lia) Hi) as Hf.
  assert (4 <= String.length f)%nat as Hlen.
  { rewrite Hf, !JsFacts.length_append. simpl. lia. }
  assert (Js.slice (String.length f - 4 + String.length ".hbs") f = "") as Hafter.
  { unfold Js.slice.
    replace (String.length f - (String.length f - 4 + String.length ".hbs"))%nat
      with 0%nat by (simpl; lia).
    apply substring_nothing. }
  rewrite Hafter in Hf.
  assert (Js.replace f ".hbs" "" = String.substring 0 (String.length f - 4) f) as Hname.
  { unfold Js.replace. rewrite Hi. cbv zeta. rewrite Hafter. simpl Js.expand.
    change ("" +:+ "") with "". apply append_empty_r. }
  split.
  - unfold template_names. apply in_map_iff. exists f. split; [done|].
    apply filter_In. split; [done|]. apply JsFacts.endsWith_spec.
    eexists. exact Hf.
  - rewrite Hname. unfold template_file_name. by rewrite Hf at 3.
Qed.

(** The templates that [/preview] knows by name, next to another file. *)
Lemma listed_template_opens_its_file_witness :
  In (Js.replace "simple-card.hbs" ".hbs" "")
     (template_names ["rednote.hbs"; "simple-card.hbs"; "README.md"]) /\
  template_file_name (Js.replace "simple-card.hbs" ".hbs" "") = "simple-card.hbs".
Proof.
  apply (listed_template_opens_its_file
           ["rednote.hbs"; "simple-card.hbs"; "README.md"] "simple-card.hbs").
  - simpl. auto.
  - reflexivity.
Defined.

(** Without that condition the listed name can lead to another file. *)
Example listed_name_of_doubled_extension :
  template_names ["x.hbsy.hbs"] = ["xy.hbs"] /\
  template_file_name "xy.hbs" = "xy.hbs.hbs".
Proof. split; reflexivity. Qed.
